(** * TOON codec: encoder, decoder and validator

    A shallow embedding of the TOON code of the repository:
      - [Parser]     embeds toon_parser.py (encode_to_toon, decode_from_toon
                     and their helpers);
      - [OldParser]  embeds toon_parser-old.py (class ToonParser: type
                     normaliser, array classifier, encoder, decoder);
      - [Validator]  embeds toon_validator.py (class ToonValidator).

    Python strings are modelled by [string]: a character is a code point
    in U+0000..U+00FF, so the model covers the Latin-1 strings.  The
    built-ins of Python the code calls (str.strip, str.split, int, float,
    str, repr, re.match on the three fixed patterns) are written out in
    [Py] for that range. *)

From Stdlib Require Import ZArith List String Ascii Bool Lia Arith.
From Stdlib Require Import Numbers.DecimalString.
From Stdlib Require Numbers.DecimalPos.
From Stdlib Require Import Floats.SpecFloat.
Import ListNotations.

#[local] Set Warnings "-register-all".

Local Open Scope list_scope.
Local Open Scope string_scope.

(* ------------------------------------------------------------------ *)
(** ** Python built-ins on Latin-1 strings *)

Module Py.

Definition dquote : ascii := "034"%char.
Definition squote : ascii := "039"%char.
Definition backslash : ascii := "092"%char.
Definition newline : ascii := "010"%char.
Definition tab : ascii := "009"%char.
Definition cr : ascii := "013"%char.

Definition chr (c : ascii) : string := String c EmptyString.

(** str.isspace on one character: the white space of U+0000..U+00FF. *)
Definition isspace (c : ascii) : bool :=
  let n := nat_of_ascii c in
  (((9 <=? n) && (n <=? 13)) || ((28 <=? n) && (n <=? 32))
   || (n =? 133) || (n =? 160))%nat.

(** The decimal digits 0-9: what int, float and the pattern \d accept. *)
Definition isdecimal (c : ascii) : bool :=
  let n := nat_of_ascii c in ((48 <=? n) && (n <=? 57))%nat.

(** str.isdigit on one character: 0-9 and the superscripts 1, 2, 3. *)
Definition isdigit_char (c : ascii) : bool :=
  let n := nat_of_ascii c in
  isdecimal c || (n =? 178)%nat || (n =? 179)%nat || (n =? 185)%nat.

Fixpoint all_chars (p : ascii -> bool) (s : string) : bool :=
  match s with
  | EmptyString => true
  | String c s' => p c && all_chars p s'
  end.

(** s.isdigit(): every character is a digit and there is at least one. *)
Definition isdigit (s : string) : bool :=
  match s with
  | EmptyString => false
  | _ => all_chars isdigit_char s
  end.

(** [c in s] for a one-character string c. *)
Fixpoint contains (c : ascii) (s : string) : bool :=
  match s with
  | EmptyString => false
  | String d s' => Ascii.eqb d c || contains c s'
  end.

(** any(c in s for c in chars) *)
Definition contains_any (chars : string) (s : string) : bool :=
  existsb (fun c => contains c s) (list_ascii_of_string chars).

Definition is_empty (s : string) : bool :=
  match s with EmptyString => true | _ => false end.

Fixpoint lstrip_by (p : ascii -> bool) (s : string) : string :=
  match s with
  | EmptyString => EmptyString
  | String c s' => if p c then lstrip_by p s' else s
  end.

Fixpoint rstrip_by (p : ascii -> bool) (s : string) : string :=
  match s with
  | EmptyString => EmptyString
  | String c s' =>
      match rstrip_by p s' with
      | EmptyString => if p c then EmptyString else String c EmptyString
      | r => String c r
      end
  end.

Definition lstrip (s : string) : string := lstrip_by isspace s.
Definition rstrip (s : string) : string := rstrip_by isspace s.
Definition strip (s : string) : string := rstrip (lstrip s).

(** len(line) - len(line.lstrip()) *)
Definition indent_of (line : string) : nat :=
  String.length line - String.length (lstrip line).

(** s.split(sep) for a one-character separator: never the empty list. *)
Fixpoint split (sep : ascii) (s : string) : list string :=
  match s with
  | EmptyString => [EmptyString]
  | String c s' =>
      if Ascii.eqb c sep then EmptyString :: split sep s'
      else match split sep s' with
           | h :: t => String c h :: t
           | [] => [String c EmptyString]
           end
  end.

(** s.partition(sep): (before, after) around the first separator;
    (s, "") when there is none.  s.split(sep, 1) gives the same two parts
    when the separator occurs. *)
Fixpoint partition (sep : ascii) (s : string) : string * string :=
  match s with
  | EmptyString => (EmptyString, EmptyString)
  | String c s' =>
      if Ascii.eqb c sep then (EmptyString, s')
      else let (a, b) := partition sep s' in (String c a, b)
  end.

Definition startswith (p s : string) : bool := String.prefix p s.

Definition last_char (s : string) : option ascii :=
  match list_ascii_of_string s with
  | [] => None
  | c :: l => Some (List.last l c)
  end.

Definition first_char (s : string) : option ascii :=
  match s with
  | EmptyString => None
  | String c _ => Some c
  end.

(** s.startswith(c) and s.endswith(c) for a one-character c *)
Definition starts_char (c : ascii) (s : string) : bool :=
  match first_char s with Some d => Ascii.eqb d c | None => false end.
Definition ends_char (c : ascii) (s : string) : bool :=
  match last_char s with Some d => Ascii.eqb d c | None => false end.

(** s[1:-1] *)
Definition slice_1_m1 (s : string) : string :=
  match s with
  | EmptyString => EmptyString
  | String _ s' =>
      string_of_list_ascii (List.removelast (list_ascii_of_string s'))
  end.

(** sep.join(parts) *)
Fixpoint join (sep : string) (parts : list string) : string :=
  match parts with
  | [] => EmptyString
  | [p] => p
  | p :: rest => p ++ sep ++ join sep rest
  end.

(** " " * n : the empty string when n is not positive. *)
Definition spaces (n : Z) : string :=
  string_of_list_ascii (List.repeat " "%char (Z.to_nat n)).

(** s.replace(old, new) for a one-character old. *)
Fixpoint replace (old : ascii) (new : string) (s : string) : string :=
  match s with
  | EmptyString => EmptyString
  | String c s' =>
      if Ascii.eqb c old then new ++ replace old new s'
      else String c (replace old new s')
  end.

(** s.replace(old, new) for a two-character old (c1 c2): the matches are
    taken from the left and do not overlap. *)
Fixpoint replace2 (c1 c2 : ascii) (new : string) (s : string) : string :=
  match s with
  | EmptyString => EmptyString
  | String c s' =>
      match s' with
      | String d s'' =>
          if Ascii.eqb c c1 && Ascii.eqb d c2
          then new ++ replace2 c1 c2 new s''
          else String c (replace2 c1 c2 new s')
      | EmptyString => s
      end
  end.

(** s.lower() on U+0000..U+00FF: A-Z and the capital letters
    U+00C0..U+00DE (the multiplication sign apart) move up by 32. *)
Definition lower_char (c : ascii) : ascii :=
  let n := nat_of_ascii c in
  if (((65 <=? n) && (n <=? 90))
      || ((192 <=? n) && (n <=? 222) && negb (n =? 215)))%nat
  then ascii_of_nat (n + 32) else c.

Fixpoint lower (s : string) : string :=
  match s with
  | EmptyString => EmptyString
  | String c s' => String (lower_char c) (lower s')
  end.

(** str(n) for an int. *)
Definition str_int (z : Z) : string := NilZero.string_of_int (Z.to_int z).
Definition str_nat (n : nat) : string := str_int (Z.of_nat n).

(** [d in s] for a string d: d occurs in s (the empty d always does). *)
Fixpoint is_substring (d s : string) : bool :=
  String.prefix d s
  || match s with
     | EmptyString => false
     | String _ s' => is_substring d s'
     end.

(** *** int(s) and float(s) *)

(** An underscore in a numeric literal stands between two digits. *)
Fixpoint underscores_ok_from (prev : ascii) (s : string) : bool :=
  match s with
  | EmptyString => negb (Ascii.eqb prev "_")
  | String c s' =>
      (if Ascii.eqb c "_" then isdecimal prev
       else if Ascii.eqb prev "_" then isdecimal c else true)
      && underscores_ok_from c s'
  end.

Definition underscores_ok (s : string) : bool :=
  underscores_ok_from "000"%char s.

Fixpoint remove_underscores (s : string) : string :=
  match s with
  | EmptyString => EmptyString
  | String c s' =>
      if Ascii.eqb c "_" then remove_underscores s'
      else String c (remove_underscores s')
  end.

Definition digit_value (c : ascii) : Z := Z.of_nat (nat_of_ascii c - 48).

(** The value of a run of decimal digits read from the left, from acc. *)
Fixpoint digits_value (acc : Z) (s : string) : Z :=
  match s with
  | EmptyString => acc
  | String c s' => digits_value (10 * acc + digit_value c)%Z s'
  end.

(** The white space int and float strip from both ends of a literal: that
    of str.isspace less the separators U+001C..U+001F. *)
Definition isspace_number (c : ascii) : bool :=
  let n := nat_of_ascii c in
  (((9 <=? n) && (n <=? 13)) || (n =? 32) || (n =? 133) || (n =? 160))%nat.

Definition strip_number (s : string) : string :=
  rstrip_by isspace_number (lstrip_by isspace_number s).

(** A leading sign: (negative?, rest). *)
Definition split_sign (s : string) : bool * string :=
  match s with
  | String "+" r => (false, r)
  | String "-" r => (true, r)
  | _ => (false, s)
  end.

(** int(s) in base 10: [None] stands for ValueError.  (The limit
    sys.int_max_str_digits of recent interpreters is not modelled.) *)
Definition int (s : string) : option Z :=
  let '(neg, body) := split_sign (strip_number s) in
  if underscores_ok body then
    let ds := remove_underscores body in
    if negb (is_empty ds) && all_chars isdecimal ds
    then Some (if neg then Z.opp (digits_value 0 ds) else digits_value 0 ds)
    else None
  else None.

(** The leading decimal digits of s: (how many, rest). *)
Fixpoint skip_digits (s : string) : nat * string :=
  match s with
  | EmptyString => (0, EmptyString)
  | String c s' =>
      if isdecimal c then let (n, r) := skip_digits s' in (S n, r)
      else (0, s)
  end.

(** The optional exponent and the end of the literal. *)
Definition exponent_ok (s : string) : bool :=
  match s with
  | EmptyString => true
  | String c r =>
      if Ascii.eqb c "e" || Ascii.eqb c "E" then
        let (n, r') := skip_digits (snd (split_sign r)) in
        (0 <? n)%nat && is_empty r'
      else false
  end.

(** float(s) raises no ValueError: s, stripped, is a signed inf, infinity
    or nan in any case, or digits with an optional point and exponent. *)
Definition float_ok (s : string) : bool :=
  let body := strip_number s in
  if underscores_ok body then
    let b := snd (split_sign (remove_underscores body)) in
    let w := lower b in
    if String.eqb w "inf" || String.eqb w "infinity" || String.eqb w "nan"
    then true
    else
      let (n1, r1) := skip_digits b in
      let (n2, r2) := match r1 with
                      | String "." r => skip_digits r
                      | _ => (0, r1)
                      end in
      (0 <? n1 + n2)%nat && exponent_ok r2
  else false.

(** *** Pieces of the regular expressions *)

(** \[(\d+) at the start of s: the digits captured and what follows. *)
Definition bracket_digits (s : string) : option (string * string) :=
  match s with
  | String "[" r =>
      let (n, r') := skip_digits r in
      if (0 <? n)%nat then Some (substring 0 n r, r') else None
  | _ => None
  end.

(** int(match.group(1)) on a run of decimal digits.  (The limit
    sys.int_max_str_digits of recent interpreters, above which int raises
    ValueError, is not modelled: what is stated of a validator that returns
    is stated for the texts within the limit.) *)
Definition int_of_digits (ds : string) : Z := digits_value 0 ds.

End Py.

(* ------------------------------------------------------------------ *)
(** ** The value model of toon_parser.py *)

(** The values a JSON document holds.  A dict is the list of its items in
    insertion order.  A float is carried as a decimal text that denotes it:
    [str] prints that text and [float] keeps the literal it read; the model
    does not round to binary64, so it does not identify two texts of one
    number. *)
Inductive Value : Type :=
  | VNull
  | VBool (b : bool)
  | VInt (z : Z)
  | VFloat (text : string)
  | VStr (s : string)
  | VObj (items : list (string * Value))
  | VArr (elems : list Value).

Definition dict : Type := list (string * Value).

(** d[key] = v : the value of a key already present is replaced where it
    stands, a new key goes to the end. *)
Fixpoint dict_set (key : string) (v : Value) (d : dict) : dict :=
  match d with
  | [] => [(key, v)]
  | (k, w) :: d' =>
      if String.eqb k key then (k, v) :: d'
      else (k, w) :: dict_set key v d'
  end.

Fixpoint dict_get (key : string) (d : dict) : option Value :=
  match d with
  | [] => None
  | (k, w) :: d' => if String.eqb k key then Some w else dict_get key d'
  end.

Definition keys (d : dict) : list string := map fst d.

Definition mem (k : string) (l : list string) : bool :=
  existsb (String.eqb k) l.

(** set(a) == set(b) *)
Definition same_key_set (a b : list string) : bool :=
  forallb (fun k => mem k b) a && forallb (fun k => mem k a) b.

Module PyRepr.
Import Py.

Definition hex_digit (n : nat) : ascii :=
  if (n <? 10)%nat then ascii_of_nat (48 + n) else ascii_of_nat (87 + n).

(** A character is printed as it is by repr when it is printable. *)
Definition isprintable (c : ascii) : bool :=
  let n := nat_of_ascii c in
  (((32 <=? n) && (n <=? 126))
   || ((161 <=? n) && negb (n =? 173)))%nat.

Definition repr_char (quote : ascii) (c : ascii) : string :=
  if Ascii.eqb c quote || Ascii.eqb c backslash
  then String backslash (chr c)
  else if Ascii.eqb c tab then String backslash "t"
  else if Ascii.eqb c newline then String backslash "n"
  else if Ascii.eqb c cr then String backslash "r"
  else if isprintable c then chr c
  else
    let n := nat_of_ascii c in
    String backslash
      (String "x" (String (hex_digit (n / 16)) (chr (hex_digit (n mod 16))))).

Fixpoint repr_chars (quote : ascii) (s : string) : string :=
  match s with
  | EmptyString => EmptyString
  | String c s' => repr_char quote c ++ repr_chars quote s'
  end.

(** repr(s) for a str: single quotes, unless s holds one and no double
    quote. *)
Definition repr_str (s : string) : string :=
  let quote :=
    if contains squote s && negb (contains dquote s) then dquote
    else squote in
  String quote (repr_chars quote s ++ chr quote).

(** repr(v), which is also str(v) for a dict or a list. *)
Fixpoint repr (v : Value) : string :=
  match v with
  | VNull => "None"
  | VBool true => "True"
  | VBool false => "False"
  | VInt z => str_int z
  | VFloat text => text
  | VStr s => repr_str s
  | VObj items =>
      "{" ++ join ", "
               ((fix each (l : list (string * Value)) : list string :=
                   match l with
                   | [] => []
                   | (k, w) :: l' => (repr_str k ++ ": " ++ repr w) :: each l'
                   end) items)
          ++ "}"
  | VArr elems =>
      "[" ++ join ", "
               ((fix each (l : list Value) : list string :=
                   match l with
                   | [] => []
                   | w :: l' => repr w :: each l'
                   end) elems)
          ++ "]"
  end.

End PyRepr.

(* ------------------------------------------------------------------ *)
(** ** toon_parser.py *)

Module ToonEncodeOptions.
Record t : Type :=
  Build { delimiter : string; indent : Z; length_marker : bool }.
Definition default : t := Build "," 2 false.
End ToonEncodeOptions.

Module ToonDecodeOptions.
Record t : Type := Build { indent : Z; strict : bool }.
Definition default : t := Build 2 true.
End ToonDecodeOptions.

Module Parser.
Import Py.

(** _needs_quotes(value) *)
Definition _needs_quotes (value : string) : bool :=
  match value with
  | EmptyString => true
  | String c0 _ =>
      if String.eqb value "true" || String.eqb value "false"
         || String.eqb value "null" then true
      else if (isdigit_char c0 || Ascii.eqb c0 "+" || Ascii.eqb c0 "-")
              && float_ok value then true
      else if isspace c0
              || match last_char value with
                 | Some c => isspace c
                 | None => false
                 end then true
      else contains_any
             (":[],-" ++ String newline (String cr (chr tab))) value
  end.

(** _format_primitive(value) *)
Definition _format_primitive (value : Value) : string :=
  match value with
  | VNull => "null"
  | VBool b => if b then "true" else "false"
  | VInt z => str_int z
  | VFloat text => text
  | VStr s => if _needs_quotes s then String dquote (s ++ chr dquote) else s
  | VObj _ | VArr _ => PyRepr.repr value
  end.

(** The number a literal stands for, when int or float reads one. *)
Definition parse_number (value : string) : option Value :=
  if contains "." value
  then (if float_ok value then Some (VFloat value) else None)
  else option_map VInt (int value).

(** _parse_primitive(value) *)
Definition _parse_primitive (value0 : string) : Value :=
  let value := strip value0 in
  if starts_char dquote value && ends_char dquote value
  then VStr (slice_1_m1 value)
  else if String.eqb value "null" then VNull
  else if String.eqb value "true" then VBool true
  else if String.eqb value "false" then VBool false
  else match parse_number value with
       | Some n => n
       | None => VStr value
       end.

(** _parse_primitive_array(value) *)
Definition _parse_primitive_array (value : string) : list Value :=
  map (fun item => _parse_primitive (strip item))
      (filter (fun item => negb (is_empty (strip item))) (split "," value)).

Definition length_prefix (options : ToonEncodeOptions.t) : string :=
  if ToonEncodeOptions.length_marker options then "#" else "".

(** all(isinstance(item, dict) and
        set(item.keys()) == set(val[0].keys()) for item in val) *)
Definition uniform (first : dict) (val : list Value) : bool :=
  forallb (fun item =>
             match item with
             | VObj d => same_key_set (keys d) (keys first)
             | _ => false
             end) val.

(** One data row of a tabular array: the cells item[k], k in keys. *)
Definition row_cells (ks : list string) (item : Value) : list string :=
  match item with
  | VObj d =>
      map (fun k => match dict_get k d with
                    | Some v => _format_primitive v
                    | None => ""   (* no such k: item has the keys of val[0] *)
                    end) ks
  | _ => []
  end.

(** The lines of the tabular branch, for key: val at the given prefix. *)
Definition tabular_lines (options : ToonEncodeOptions.t)
    (prefix key : string) (first : dict) (val : list Value) : list string :=
  let delimiter := ToonEncodeOptions.delimiter options in
  let pad := prefix ++ spaces (ToonEncodeOptions.indent options) in
  (prefix ++ key ++ " [" ++ length_prefix options ++ str_nat (List.length val)
     ++ delimiter ++ "]")
  :: (pad ++ join delimiter (keys first))
  :: map (fun item => pad ++ join delimiter (row_cells (keys first) item))
       val.

(** format_value(value, level): the lines it appends, in order. *)
Fixpoint format_value (options : ToonEncodeOptions.t) (value : Value)
    (level : Z) {struct value} : list string :=
  let prefix := spaces (ToonEncodeOptions.indent options * level) in
  match value with
  | VObj items =>
      (fix entries (kvs : list (string * Value)) : list string :=
         match kvs with
         | [] => []
         | (key, val) :: kvs' =>
             List.app
             (match val with
              | VObj _ =>
                  (prefix ++ key ++ ":") :: format_value options val (level + 1)
              | VArr ((VObj first :: _) as elems) =>
                  if uniform first elems
                  then tabular_lines options prefix key first elems
                  else
                    (prefix ++ key ++ " [" ++ length_prefix options
                       ++ str_nat (List.length elems) ++ "]")
                    :: (fix each (l : list Value) : list string :=
                          match l with
                          | [] => []
                          | item :: l' =>
                              (prefix
                                 ++ spaces (ToonEncodeOptions.indent options)
                                 ++ "- ")
                              :: List.app
                                   (format_value options item (level + 2))
                                   (each l')
                          end) elems
              | VArr elems =>
                  [prefix ++ key ++ " [" ++ length_prefix options
                     ++ str_nat (List.length elems) ++ "]: "
                     ++ join ", " (map _format_primitive elems)]
              | _ => [prefix ++ key ++ ": " ++ _format_primitive val]
              end)
             (entries kvs')
         end) items
  | VArr elems =>
      (fix each (l : list Value) : list string :=
         match l with
         | [] => []
         | item :: l' => List.app (format_value options item level) (each l')
         end) elems
  | _ => []
  end.

(** encode_to_toon(data, options) *)
Definition encode_to_toon (data : Value) (options : ToonEncodeOptions.t)
  : string :=
  join (chr newline) (format_value options data 0).

(** *** Decoding *)

(** The while loop of _parse_nested_object, at index i with the lines from
    i on in rest: the object and the index where the loop stops. *)
Fixpoint nested_object_loop (rest : list string) (i : nat) (base_indent : Z)
    (obj : dict) : dict * nat :=
  match rest with
  | [] => (obj, i)
  | line :: rest' =>
      if is_empty (strip line)
      then nested_object_loop rest' (S i) base_indent obj
      else if (Z.of_nat (indent_of line) <? base_indent)%Z then (obj, i)
      else
        let stripped := strip line in
        let obj' :=
          if contains ":" stripped
          then let (key, value) := partition ":" stripped in
               dict_set (strip key) (_parse_primitive (strip value)) obj
          else obj in
        nested_object_loop rest' (S i) base_indent obj'
  end.

(** _parse_nested_object(lines, start_idx, base_indent, options); its two
    callers pass start_idx = i + 1, so i - 1 is not negative. *)
Definition _parse_nested_object (lines : list string) (start_idx : nat)
    (base_indent : Z) (options : ToonDecodeOptions.t) : dict * nat :=
  let (obj, i) :=
    nested_object_loop (skipn start_idx lines) start_idx base_indent [] in
  (obj, i - 1).

(** {columns[j]: _parse_primitive(values[j]) for j in range(len(columns))} *)
Fixpoint row_item (columns values : list string) (item : dict) : dict :=
  match columns, values with
  | c :: columns', v :: values' =>
      row_item columns' values' (dict_set c (_parse_primitive v) item)
  | _, _ => item
  end.

(** The while loop of _parse_tabular_array. *)
Fixpoint tabular_loop (rest : list string) (i : nat) (base_indent : Z)
    (columns : list string) (items : list Value) : list Value * nat :=
  match rest with
  | [] => (items, i)
  | line :: rest' =>
      if is_empty (strip line)
      then tabular_loop rest' (S i) base_indent columns items
      else if (Z.of_nat (indent_of line) <? base_indent)%Z then (items, i)
      else
        let values := map strip (split "," (strip line)) in
        let items' :=
          if (List.length values =? List.length columns)%nat
          then List.app items [VObj (row_item columns values [])]
          else items in
        tabular_loop rest' (S i) base_indent columns items'
  end.

(** _parse_tabular_array(lines, start_idx, base_indent, options) *)
Definition _parse_tabular_array (lines : list string) (start_idx : nat)
    (base_indent : Z) (options : ToonDecodeOptions.t) : list Value * nat :=
  match skipn start_idx lines with
  | [] => ([], start_idx)
  | header_line :: rest =>
      let columns := map strip (split "," (strip header_line)) in
      let (items, i) :=
        tabular_loop rest (start_idx + 1) base_indent columns [] in
      (items, i - 1)
  end.

(** The while loop of _parse_list_array.  An item moves i to where its
    object ends, so the loop is not structural in the lines: it runs on
    fuel, and [None] says that the fuel ran out. *)
Fixpoint list_array_loop (options : ToonDecodeOptions.t) (fuel : nat)
    (lines : list string) (i : nat) (base_indent : Z) (items : list Value)
  : option (list Value * nat) :=
  match fuel with
  | O => None
  | S fuel' =>
      match nth_error lines i with
      | None => Some (items, i)
      | Some line =>
          if is_empty (strip line)
          then list_array_loop options fuel' lines (i + 1) base_indent items
          else
            let indent := Z.of_nat (indent_of line) in
            if (indent <? base_indent)%Z then Some (items, i)
            else if startswith "-" (strip line)
            then
              let (item, j) :=
                _parse_nested_object lines (i + 1)
                  (indent + ToonDecodeOptions.indent options) options in
              list_array_loop options fuel' lines (j + 1) base_indent
                (List.app items [VObj item])
            else list_array_loop options fuel' lines (i + 1) base_indent items
      end
  end.

(** _parse_list_array(lines, start_idx, base_indent, options): every turn
    of the loop moves i forward, so one unit of fuel per line and one for
    the exit are enough (see [list_array_loop_total]). *)
Definition _parse_list_array (lines : list string) (start_idx : nat)
    (base_indent : Z) (options : ToonDecodeOptions.t)
  : option (list Value * nat) :=
  match list_array_loop options (S (List.length lines)) lines start_idx
          base_indent [] with
  | Some (items, i) => Some (items, i - 1)
  | None => None
  end.

(** One turn of the while loop of decode_from_toon. *)
Inductive step : Type :=
  | Done (result : dict)              (* i >= len(lines): return result *)
  | Next (i : nat) (result : dict).   (* back to the loop test *)

Definition decode_step (options : ToonDecodeOptions.t) (lines : list string)
    (i : nat) (result : dict) : option step :=
  match nth_error lines i with
  | None => Some (Done result)
  | Some line =>
      if is_empty (strip line) then Some (Next (i + 1) result)
      else
        let indent_level := indent_of line in
        let stripped := strip line in
        if contains ":" stripped && negb (startswith "-" stripped)
        then
          let (key0, value0) := partition ":" stripped in
          let key := strip key0 in
          let value := strip value0 in
          let nested :=
            match nth_error lines (i + 1) with
            | Some next => (indent_level <? indent_of next)%nat
            | None => false
            end in
          if nested
          then
            let (obj, j) :=
              _parse_nested_object lines (i + 1)
                (Z.of_nat indent_level + ToonDecodeOptions.indent options)
                options in
            Some (Next j (dict_set key (VObj obj) result))
          else if contains "[" key
          then
            let (array_key0, array_info0) := partition "[" key in
            let array_key := strip array_key0 in
            let array_info :=
              rstrip_by (fun c => Ascii.eqb c "]") array_info0 in
            let base_indent :=
              (Z.of_nat indent_level + ToonDecodeOptions.indent options)%Z in
            if contains "," array_info
            then
              let (items, j) :=
                _parse_tabular_array lines (i + 1) base_indent options in
              Some (Next (j + 1) (dict_set array_key (VArr items) result))
            else if contains ":" value
            then
              Some (Next (i + 1)
                      (dict_set array_key
                         (VArr (_parse_primitive_array value)) result))
            else
              match _parse_list_array lines (i + 1) base_indent options with
              | Some (items, j) =>
                  Some (Next (j + 1)
                          (dict_set array_key (VArr items) result))
              | None => None
              end
          else Some (Next (i + 1) (dict_set key (_parse_primitive value) result))
        else Some (Next (i + 1) result)
  end.

(** The while loop of decode_from_toon, for at most fuel turns: [None]
    when the loop has not ended by then. *)
Fixpoint decode_loop (options : ToonDecodeOptions.t) (fuel : nat)
    (lines : list string) (i : nat) (result : dict) : option dict :=
  match fuel with
  | O => None
  | S fuel' =>
      match decode_step options lines i result with
      | Some (Done r) => Some r
      | Some (Next i' r) => decode_loop options fuel' lines i' r
      | None => None
      end
  end.

(** decode_from_toon(toon_string, options), run for at most fuel turns of
    its loop. *)
Definition decode_from_toon (fuel : nat) (toon_string : string)
    (options : ToonDecodeOptions.t) : option Value :=
  let lines := split newline (strip toon_string) in
  option_map VObj (decode_loop options fuel lines 0 []).


End Parser.

(* ------------------------------------------------------------------ *)
(** ** toon_parser-old.py: class ToonParser *)

Module OldParser.
Import Py.

Inductive ArrayType : Type := PRIMITIVE | TABULAR | LIST.

(** The Python values the encoder is given.  The objects of the host
    library are given by what the code reads of them: a date or datetime by
    value.isoformat(), a Decimal by float(value), a set or frozenset by the
    outcome of sorted(list(value)), which is [None] when two elements do not
    compare (TypeError).  A float is its binary64 value and the text str()
    prints for it.  The keys of a dict are str. *)
Inductive PyVal : Type :=
  | PNone
  | PBool (b : bool)
  | PInt (z : Z)
  | PFloat (f : spec_float) (text : string)
  | PStr (s : string)
  | PDate (isoformat : string)
  | PDecimal (f : spec_float) (text : string)
  | PTuple (elems : list PyVal)
  | PSet (sorted : option (list PyVal))
  | PCallable
  | PDict (items : list (string * PyVal))
  | PList (elems : list PyVal)
  | PObject.

(** The messages of ToonParseError: each constructor stands for one
    f-string of the source, with the values it interpolates. *)
Inductive ParseMessage : Type :=
  | InvalidIndentation (indent : nat) (unit : Z)
  | ArrayLengthMismatch (declared : nat) (found : nat)
  | InvalidArrayHeader (line : string)
  | FewerRows (declared : nat)
  | RowShape (row : nat) (values expected : nat)
  | ListLengthMismatch (declared : nat) (found : nat).

Inductive exn : Type :=
  | ValueError
  | IndexError
  | KeyError
  | TypeError
  | ZeroDivisionError
  | ToonParseError (message : ParseMessage) (line_number : nat).

Inductive result (A : Type) : Type :=
  | Ok (a : A)
  | Raise (e : exn).
Arguments Ok {A} a.
Arguments Raise {A} e.

Definition bind {A B : Type} (r : result A) (k : A -> result B) : result B :=
  match r with
  | Ok a => k a
  | Raise e => Raise e
  end.

Notation "'do' x <- r ; k" := (bind r (fun x => k))
  (at level 10, x name, r at level 100, k at level 200).

(** The parser object: ToonParser(strict, indent, delimiter). *)
Record ToonParser : Type :=
  { strict : bool; indent : Z; delimiter : string }.

Definition default : ToonParser :=
  {| strict := true; indent := 2; delimiter := "," |}.

Definition reserved_keywords : list string := ["true"; "false"; "null"].

(** *** _normalize_types *)

Definition pos_inf : spec_float := S754_infinity false.
Definition neg_inf : spec_float := S754_infinity true.
Definition neg_zero : spec_float := S754_zero true.

Fixpoint _normalize_types (value : PyVal) : result PyVal :=
  match value with
  | PDate isoformat => Ok (PStr isoformat)
  | PDecimal f text => Ok (PFloat f text)
  | PTuple elems => Ok (PList elems)
  | PSet (Some sorted) => Ok (PList sorted)
  | PSet None => Raise TypeError
  | PCallable => Ok PNone
  | PFloat f text =>
      if negb (SFeqb f f) then Ok PNone
      else if SFeqb f pos_inf || SFeqb f neg_inf then Ok PNone
      else if SFeqb f neg_zero then Ok (PInt 0)
      else Ok value
  | PDict items =>
      do items' <-
        (fix each (l : list (string * PyVal))
           : result (list (string * PyVal)) :=
           match l with
           | [] => Ok []
           | (k, v) :: l' =>
               do v' <- _normalize_types v;
               do r <- each l';
               Ok ((k, v') :: r)
           end) items;
      Ok (PDict items')
  | PList elems =>
      do elems' <-
        (fix each (l : list PyVal) : result (list PyVal) :=
           match l with
           | [] => Ok []
           | v :: l' =>
               do v' <- _normalize_types v;
               do r <- each l';
               Ok (v' :: r)
           end) elems;
      Ok (PList elems')
  | _ => Ok value
  end.

(** *** _detect_array_type *)

(** isinstance(item, (str, int, float, bool, type(None))) *)
Definition is_primitive (v : PyVal) : bool :=
  match v with
  | PNone | PBool _ | PInt _ | PFloat _ _ | PStr _ => true
  | _ => false
  end.

Definition is_dict (v : PyVal) : bool :=
  match v with PDict _ => true | _ => false end.

Definition dict_keys (v : PyVal) : list string :=
  match v with PDict items => map fst items | _ => [] end.

Definition dict_values (v : PyVal) : list PyVal :=
  match v with PDict items => map snd items | _ => [] end.

Definition _detect_array_type (arr : list PyVal) : ArrayType :=
  match arr with
  | [] => LIST
  | first :: _ =>
      if forallb is_primitive arr then PRIMITIVE
      else if forallb is_dict arr
              && forallb (fun item =>
                            same_key_set (dict_keys item) (dict_keys first))
                   arr
              && forallb (fun item => forallb is_primitive (dict_values item))
                   arr
      then TABULAR
      else LIST
  end.

Section Encode.
Variable self : ToonParser.

(** *** _encode_string *)

Definition needs_quoting (s : string) : bool :=
  is_empty s
  || mem (lower s) reserved_keywords
  || isdigit (replace "-" "" (replace "." "" s))
  || negb (String.eqb s (strip s))
  || contains ":" s || contains "[" s || contains "]" s || contains "-" s
  || is_substring (delimiter self) s
  || contains newline s || contains tab s.

Definition escape (s : string) : string :=
  replace tab (String backslash "t")
    (replace newline (String backslash "n")
       (replace dquote (String backslash (chr dquote))
          (replace backslash (String backslash (chr backslash)) s))).

Definition _encode_string (s : string) : string :=
  if needs_quoting s then String dquote (escape s ++ chr dquote) else s.

(** _encode_value on a value that is no dict and no list. *)
Definition encode_scalar (value : PyVal) : result string :=
  match value with
  | PNone => Ok "null"
  | PBool b => Ok (if b then "true" else "false")
  | PInt z => Ok (str_int z)
  | PFloat _ text => Ok text
  | PStr s => Ok (_encode_string s)
  | _ => Raise ValueError
  end.

Definition indent_str (level : Z) : string := spaces (indent self * level).

(** _encode_primitive_array(arr) *)
Definition _encode_primitive_array (arr : list PyVal) : result string :=
  do values <-
    (fix each (l : list PyVal) : result (list string) :=
       match l with
       | [] => Ok []
       | item :: l' =>
           do v <- encode_scalar item; do r <- each l'; Ok (v :: r)
       end) arr;
  Ok ("[" ++ str_nat (List.length arr) ++ "]: " ++ join ", " values).

Definition lookup (key : string) (item : PyVal) : option PyVal :=
  match item with
  | PDict items =>
      option_map snd (find (fun kv => String.eqb (fst kv) key) items)
  | _ => None
  end.

(** One data row of _encode_tabular_array: the array is TABULAR, so the
    cells item[key] are primitive. *)
Definition tabular_row (ks : list string) (item : PyVal) : result string :=
  do values <-
    (fix each (l : list string) : result (list string) :=
       match l with
       | [] => Ok []
       | key :: l' =>
           do v <- match lookup key item with
                   | Some w => encode_scalar w
                   | None => Raise KeyError
                   end;
           do r <- each l';
           Ok (v :: r)
       end) ks;
  Ok (join (delimiter self) values).

(** The lines of _encode_tabular_array(arr, level), before the join. *)
Definition tabular_array_lines (arr : list PyVal) (level : Z)
  : result (list string) :=
  match arr with
  | [] => Ok ["[0,]"]
  | first :: _ =>
      let ks := dict_keys first in
      let pad := indent_str (level + 1) in
      do rows <-
        (fix each (l : list PyVal) : result (list string) :=
           match l with
           | [] => Ok []
           | item :: l' =>
               do row <- tabular_row ks item;
               do r <- each l';
               Ok ((pad ++ row) :: r)
           end) arr;
      Ok (("[" ++ str_nat (List.length arr) ++ delimiter self ++ "]")
          :: (pad ++ join (delimiter self) ks)
          :: rows)
  end.

(** _encode_tabular_array(arr, level) *)
Definition _encode_tabular_array (arr : list PyVal) (level : Z)
  : result string :=
  do lines <- tabular_array_lines arr level;
  Ok (join (chr newline) lines).

(** _encode_value(value, level), with _encode_object, _encode_array and
    _encode_list_array, which it calls and which call it. *)
Fixpoint _encode_value (value : PyVal) (level : Z) {struct value}
  : result string :=
  match value with
  | PDict obj =>
      (* _encode_object(obj, level) *)
      do lines <-
        (fix entries (kvs : list (string * PyVal)) : result (list string) :=
           match kvs with
           | [] => Ok []
           | (key, v) :: kvs' =>
               do here <-
                 match v with
                 | PDict _ =>
                     do nested <- _encode_value v (level + 1);
                     Ok [indent_str level ++ key ++ ":"; nested]
                 | PList _ =>
                     do array_str <- _encode_value v level;
                     Ok [indent_str level ++ key ++ " " ++ array_str]
                 | _ =>
                     do value_str <- _encode_value v level;
                     Ok [indent_str level ++ key ++ ": " ++ value_str]
                 end;
               do r <- entries kvs';
               Ok (List.app here r)
           end) obj;
      Ok (join (chr newline) lines)
  | PList arr =>
      (* _encode_array(arr, level) *)
      match arr with
      | [] => Ok "[0]"
      | _ =>
          match _detect_array_type arr with
          | PRIMITIVE => _encode_primitive_array arr
          | TABULAR => _encode_tabular_array arr level
          | LIST =>
              (* _encode_list_array(arr, level) *)
              let pad := indent_str (level + 1) in
              do lines <-
                (fix each (l : list PyVal) : result (list string) :=
                   match l with
                   | [] => Ok []
                   | item :: l' =>
                       do here <-
                         match item with
                         | PDict [] => Raise IndexError
                         | PDict ((k0, v0) :: others) =>
                             do first <- _encode_value v0 (level + 1);
                             do more <-
                               (fix rest (kvs : list (string * PyVal))
                                  : result (list string) :=
                                  match kvs with
                                  | [] => Ok []
                                  | (key, v) :: kvs' =>
                                      do here <-
                                        match v with
                                        | PDict _ =>
                                            do nested <-
                                              _encode_value v (level + 2);
                                            Ok [pad ++ "  " ++ key ++ ":";
                                                nested]
                                        | _ =>
                                            do value_str <-
                                              _encode_value v (level + 1);
                                            Ok [pad ++ "  " ++ key ++ ": "
                                                  ++ value_str]
                                        end;
                                      do r <- rest kvs';
                                      Ok (List.app here r)
                                  end) others;
                             Ok ((pad ++ "- " ++ k0 ++ ": " ++ first) :: more)
                         | _ =>
                             do v <- _encode_value item (level + 1);
                             Ok [pad ++ "- " ++ v]
                         end;
                       do r <- each l';
                       Ok (List.app here r)
                   end) arr;
              Ok (join (chr newline)
                    (("[" ++ str_nat (List.length arr) ++ "]") :: lines))
          end
      end
  | _ => encode_scalar value
  end.

Definition _encode_object (obj : list (string * PyVal)) (level : Z)
  : result string := _encode_value (PDict obj) level.

Definition _encode_array (arr : list PyVal) (level : Z) : result string :=
  _encode_value (PList arr) level.

(** encode(data) *)
Definition encode (data : PyVal) : result string :=
  do normalized_data <- _normalize_types data;
  _encode_value normalized_data 0.

End Encode.

(** *** Decoding *)

(** The decoder returns JSON values: they are held in [Value]. *)

(** The unescape step of _parse_value. *)
Definition unescape (s : string) : string :=
  replace2 backslash "t" (chr tab)
    (replace2 backslash "n" (chr newline)
       (replace2 backslash backslash (chr backslash)
          (replace2 backslash dquote (chr dquote) s))).

(** _parse_value(value_str) *)
Definition _parse_value (value_str0 : string) : Value :=
  let value_str := strip value_str0 in
  if String.eqb value_str "null" then VNull
  else if String.eqb value_str "true" then VBool true
  else if String.eqb value_str "false" then VBool false
  else if starts_char dquote value_str && ends_char dquote value_str
  then VStr (unescape (slice_1_m1 value_str))
  else
    match (if contains "." value_str
           then (if float_ok value_str then Some (VFloat value_str) else None)
           else option_map VInt (int value_str)) with
    | Some n => n
    | None => VStr value_str
    end.

(** \[(\d+)([\,\t\|])?\] at the start of s: the count, the delimiter and
    what follows. *)
Definition array_header (s : string)
  : option (string * option ascii * string) :=
  match bracket_digits s with
  | Some (ds, String "]" r) => Some (ds, None, r)
  | Some (ds, String d (String "]" r)) =>
      if Ascii.eqb d "," || Ascii.eqb d tab || Ascii.eqb d "|"
      then Some (ds, Some d, r) else None
  | _ => None
  end.

(** \s*:\s*(.+) at the start of r, to the end of a line: the group.  The
    white space before the group is as long as it can be and leaves the
    group one character at least. *)
Definition inline_values (r : string) : option string :=
  match lstrip r with
  | String ":" r2 =>
      match lstrip r2 with
      | EmptyString =>
          match last_char r2 with
          | Some c => Some (chr c)
          | None => None
          end
      | g => Some g
      end
  | _ => None
  end.

Section Decode.
Variable self : ToonParser.

(** line.split(delimiter), for the delimiter the header declares. *)
Definition split_cells (delimiter : ascii) (line : string) : list string :=
  map strip
    (if Ascii.eqb delimiter tab then split tab line
     else if Ascii.eqb delimiter "|" then split "|" line
     else split "," line).

Fixpoint row_dict (headers values : list string) (row : dict) : dict :=
  match headers, values with
  | h :: headers', v :: values' =>
      row_dict headers' values' (dict_set h (_parse_value v) row)
  | _, _ => row
  end.

(** The rows i, i + 1, ... of _parse_tabular_array, as long as todo says. *)
Fixpoint tabular_rows (lines : list string) (header_idx : nat)
    (count : nat) (delimiter : ascii) (headers : list string)
    (todo : nat) (i : nat) (rows : list Value) : result (list Value) :=
  match todo with
  | O => Ok rows
  | S todo' =>
      let row_idx := header_idx + 1 + i in
      match nth_error lines row_idx with
      | None => Raise (ToonParseError (FewerRows count) row_idx)
      | Some line =>
          let values := split_cells delimiter (strip line) in
          if negb (List.length values =? List.length headers)%nat
          then Raise (ToonParseError
                        (RowShape (i + 1) (List.length values)
                           (List.length headers))
                        (row_idx + 1))
          else tabular_rows lines header_idx count delimiter headers todo'
                 (i + 1)
                 (List.app rows [VObj (row_dict headers values [])])
      end
  end.

(** _parse_tabular_array(lines, header_idx, base_indent, count, delimiter) *)
Definition _parse_tabular_array (lines : list string) (header_idx : nat)
    (base_indent : nat) (count : nat) (delimiter : ascii)
  : result (list Value * nat) :=
  match nth_error lines header_idx with
  | None => Raise IndexError
  | Some header_line =>
      let headers := split_cells delimiter (strip header_line) in
      do rows <- tabular_rows lines header_idx count delimiter headers
                   count 0 [];
      Ok (rows, header_idx + count + 1)
  end.

(** The while loop of _parse_object_item, on the lines from idx on. *)
Fixpoint object_item_loop (rest : list string) (idx : nat) (indent : nat)
    (item : dict) : dict * nat :=
  match rest with
  | [] => (item, idx)
  | line :: rest' =>
      if (indent_of line <=? indent)%nat then (item, idx)
      else
        let stripped := strip line in
        let item' :=
          if contains ":" stripped && negb (startswith "-" stripped)
          then let (key, value) := partition ":" stripped in
               dict_set (strip key) (_parse_value (strip value)) item
          else item in
        object_item_loop rest' (S idx) indent item'
  end.

(** line.strip()[1:].strip() *)
Definition after_dash (line : string) : string :=
  strip (match strip line with
         | String _ r => r
         | EmptyString => EmptyString
         end).

(** _parse_object_item(lines, start_idx, base_indent) *)
Definition _parse_object_item (lines : list string) (start_idx : nat)
    (base_indent : nat) : result (dict * nat) :=
  match nth_error lines start_idx with
  | None => Raise IndexError
  | Some line =>
      let stripped := after_dash line in
      let item :=
        if contains ":" stripped
        then let (key, value) := partition ":" stripped in
             dict_set (strip key) (_parse_value (strip value)) []
        else [] in
      Ok (object_item_loop (skipn (start_idx + 1) lines) (start_idx + 1)
            (indent_of line) item)
  end.

(** The while loop of _parse_list_array, on fuel ([None]: it ran out). *)
Fixpoint list_array_loop (fuel : nat) (lines : list string) (idx : nat)
    (base_indent : nat) (count : nat) (items : list Value)
    (items_found : nat) : option (result (list Value * nat * nat)) :=
  match fuel with
  | O => None
  | S fuel' =>
      match nth_error lines idx with
      | Some line =>
          if (items_found <? count)%nat
          then
            if startswith "-" (strip line)
            then
              let item_content := after_dash line in
              if contains ":" item_content
              then
                match _parse_object_item lines idx base_indent with
                | Ok (item_dict, idx') =>
                    list_array_loop fuel' lines idx' base_indent count
                      (List.app items [VObj item_dict]) (items_found + 1)
                | Raise e => Some (Raise e)
                end
              else
                list_array_loop fuel' lines (idx + 1) base_indent count
                  (List.app items [_parse_value item_content])
                  (items_found + 1)
            else
              list_array_loop fuel' lines (idx + 1) base_indent count items
                items_found
          else Some (Ok (items, idx, items_found))
      | None => Some (Ok (items, idx, items_found))
      end
  end.

(** _parse_list_array(lines, start_idx, base_indent, count) *)
Definition _parse_list_array (lines : list string) (start_idx : nat)
    (base_indent : nat) (count : nat) : option (result (list Value * nat)) :=
  match list_array_loop (S (List.length lines)) lines start_idx base_indent
          count [] 0 with
  | None => None
  | Some (Raise e) => Some (Raise e)
  | Some (Ok (items, idx, items_found)) =>
      if strict self && negb (items_found =? count)%nat
      then Some (Raise (ToonParseError
                          (ListLengthMismatch count items_found) start_idx))
      else Some (Ok (items, idx))
  end.

(** _parse_array(lines, start_idx, base_indent) *)
Definition _parse_array (lines : list string) (start_idx : nat)
    (base_indent : nat) : option (result (list Value * nat)) :=
  match nth_error lines start_idx with
  | None => Some (Raise IndexError)
  | Some line0 =>
      let line := strip line0 in
      match array_header line with
      | None =>
          Some (Raise (ToonParseError (InvalidArrayHeader line)
                         (start_idx + 1)))
      | Some (ds, delimiter, r) =>
          let count := Z.to_nat (int_of_digits ds) in
          match inline_values r with
          | Some values_str =>
              let values :=
                map (fun v => _parse_value (strip v))
                  (split "," values_str) in
              if strict self && negb (List.length values =? count)%nat
              then Some (Raise (ToonParseError
                                  (ArrayLengthMismatch count
                                     (List.length values))
                                  (start_idx + 1)))
              else Some (Ok (values, start_idx + 1))
          | None =>
              match delimiter with
              | Some d =>
                  Some (_parse_tabular_array lines (start_idx + 1)
                          base_indent count d)
              | None =>
                  _parse_list_array lines (start_idx + 1) base_indent count
              end
          end
      end
  end.

(** _parse_lines(lines, start_idx, current_indent): the while loop at idx
    with the result so far, on fuel; a nested object is a call of
    _parse_lines on the lines that follow. *)
Fixpoint parse_lines_loop (fuel : nat) (lines : list string) (idx : nat)
    (current_indent : Z) (acc : dict) : option (result (dict * nat)) :=
  match fuel with
  | O => None
  | S fuel' =>
      match nth_error lines idx with
      | None => Some (Ok (acc, idx))
      | Some line =>
          if is_empty (strip line)
          then parse_lines_loop fuel' lines (idx + 1) current_indent acc
          else
            let ind := indent_of line in
            if (Z.of_nat ind <? current_indent)%Z then Some (Ok (acc, idx))
            else if strict self && (current_indent <? Z.of_nat ind)%Z
                    && (indent self =? 0)%Z
            then Some (Raise ZeroDivisionError)
            else if strict self && (current_indent <? Z.of_nat ind)%Z
                    && negb (Z.of_nat ind mod indent self =? 0)%Z
            then Some (Raise (ToonParseError
                                (InvalidIndentation ind (indent self))
                                (idx + 1)))
            else
              let stripped := strip line in
              if contains ":" stripped && negb (startswith "-" stripped)
              then
                let (key0, value_part0) := partition ":" stripped in
                let key := strip key0 in
                let value_part := strip value_part0 in
                if is_empty value_part
                then
                  match parse_lines_loop fuel' lines (idx + 1)
                          (Z.of_nat ind + indent self) [] with
                  | Some (Ok (nested_result, idx')) =>
                      parse_lines_loop fuel' lines idx' current_indent
                        (dict_set key (VObj nested_result) acc)
                  | other => other
                  end
                else if starts_char "[" value_part
                then
                  match _parse_array lines idx ind with
                  | Some (Ok (array_result, idx')) =>
                      parse_lines_loop fuel' lines idx' current_indent
                        (dict_set key (VArr array_result) acc)
                  | Some (Raise e) => Some (Raise e)
                  | None => None
                  end
                else
                  parse_lines_loop fuel' lines (idx + 1) current_indent
                    (dict_set key (_parse_value value_part) acc)
              else parse_lines_loop fuel' lines (idx + 1) current_indent acc
      end
  end.

Definition _parse_lines (fuel : nat) (lines : list string) (start_idx : nat)
    (current_indent : Z) : option (result (dict * nat)) :=
  parse_lines_loop fuel lines start_idx current_indent [].

(** decode(toon_str), on fuel: every call of _parse_lines and every turn
    of its loop moves forward in the lines, so fuel above the number of
    lines is enough. *)
Definition decode (fuel : nat) (toon_str : string) : option (result Value) :=
  let lines := split newline toon_str in
  match _parse_lines fuel lines 0 0 with
  | Some (Ok (r, _)) => Some (Ok (VObj r))
  | Some (Raise e) => Some (Raise e)
  | None => None
  end.

End Decode.

End OldParser.

(* ------------------------------------------------------------------ *)
(** ** toon_validator.py: class ToonValidator *)

Module Validator.
Import Py.

Inductive ValidationLevel : Type := STRICT | LENIENT | BASIC.

Definition is_strict (l : ValidationLevel) : bool :=
  match l with STRICT => true | _ => false end.

(** The messages of the validator: each constructor stands for one
    f-string of the source, with the values it interpolates. *)
Inductive Message : Type :=
  | TabsInIndentation               (* Tabs found in indentation (use spaces) *)
  | IndentationNotMultiple (unit : Z) (found : nat)
  | InvalidArrayHeader              (* Invalid array header format *)
  | EmptyKey                        (* Empty key *)
  | InvalidKeyFormat (key : string)
  | PotentiallyInvalidValue (value : string)
  | UnnecessaryQuotes (value : string)
  | ValueMayNeedQuotes (value : string)
  | BooleanShouldBeLowercase (value lowered : string)
  | NullShouldBeLowercase (value : string).

Inductive Severity : Type := ERROR | WARNING | INFO.

Record ValidationError : Type :=
  { line_num : nat;
    severity : Severity;
    message : Message;
    context : option string }.

Record ValidationResult : Type :=
  { errors : list ValidationError;
    warnings : list ValidationError;
    info : list ValidationError;
    is_valid : bool }.

Definition empty_result : ValidationResult :=
  {| errors := []; warnings := []; info := []; is_valid := true |}.

Definition add_error (r : ValidationResult) (n : nat) (m : Message)
    (ctx : option string) : ValidationResult :=
  {| errors := List.app (errors r) [Build_ValidationError n ERROR m ctx];
     warnings := warnings r;
     info := info r;
     is_valid := false |}.

Definition add_warning (r : ValidationResult) (n : nat) (m : Message)
    (ctx : option string) : ValidationResult :=
  {| errors := errors r;
     warnings := List.app (warnings r) [Build_ValidationError n WARNING m ctx];
     info := info r;
     is_valid := is_valid r |}.

(** has_errors() and has_warnings() *)
Definition has_errors (r : ValidationResult) : bool :=
  (0 <? List.length (errors r))%nat.

Definition has_warnings (r : ValidationResult) : bool :=
  (0 <? List.length (warnings r))%nat.

(** The dict _validate_array_header returns as info. *)
Record ArrayInfo : Type :=
  { type : string; count : Z; delimiter : option ascii; line : nat }.

(** *** re.match on the patterns of _validate_array_header *)

(** re.match(".*" + p, s) where m decides p at the start of a string: the
    greedy .* takes the last start it can, and does not cross a newline. *)
Fixpoint last_match {X : Type} (m : string -> option X) (s : string)
  : option X :=
  match s with
  | EmptyString => m s
  | String c s' =>
      match (if Ascii.eqb c newline then None else last_match m s') with
      | Some x => Some x
      | None => m s
      end
  end.

(** \[(\d+)\]\s*: *)
Definition primitive_header (s : string) : option string :=
  match bracket_digits s with
  | Some (ds, String "]" r) =>
      if starts_char ":" (lstrip r) then Some ds else None
  | _ => None
  end.

(** \[(\d+)([\,\t\|])\] *)
Definition tabular_header (s : string) : option (string * ascii) :=
  match bracket_digits s with
  | Some (ds, String d (String "]" _)) =>
      if Ascii.eqb d "," || Ascii.eqb d tab || Ascii.eqb d "|"
      then Some (ds, d) else None
  | _ => None
  end.

(** \[(\d+)\] *)
Definition list_header (s : string) : option string :=
  match bracket_digits s with
  | Some (ds, String "]" _) => Some ds
  | _ => None
  end.

(** [a-zA-Z_] and [a-zA-Z0-9_] *)
Definition is_ident_start (c : ascii) : bool :=
  let n := nat_of_ascii c in
  (((65 <=? n) && (n <=? 90)) || ((97 <=? n) && (n <=? 122)) || (n =? 95))%nat.

Definition is_ident_char (c : ascii) : bool :=
  is_ident_start c || isdecimal c.

(** value.count(c) *)
Fixpoint count_char (c : ascii) (s : string) : nat :=
  match s with
  | EmptyString => 0
  | String d s' => (if Ascii.eqb d c then 1 else 0) + count_char c s'
  end.

Section Validate.
(** ToonValidator(level, indent) *)
Variable level : ValidationLevel.
Variable indent : Z.

Definition reserved_keywords : list string := ["true"; "false"; "null"].

(** _validate_indentation(line, line_num, expected): [None] stands for the
    ZeroDivisionError of indent % self.indent when self.indent is 0. *)
Definition _validate_indentation (line : string) (line_num : nat)
    (expected : Z) : option (list Message) :=
  let ind := indent_of line in
  let errors1 :=
    if contains tab (substring 0 ind line) then [TabsInIndentation] else [] in
  if is_strict level then
    if (indent =? 0)%Z then None
    else if negb (Z.of_nat ind mod indent =? 0)%Z
    then Some (List.app errors1 [IndentationNotMultiple indent ind])
    else Some errors1
  else Some errors1.

(** _validate_array_header(line, line_num) *)
Definition _validate_array_header (line_text : string) (line_num : nat)
  : list Message * option ArrayInfo :=
  match last_match primitive_header line_text with
  | Some ds =>
      ([], Some {| type := "primitive"; count := int_of_digits ds;
                   delimiter := None; line := line_num |})
  | None =>
      match last_match tabular_header line_text with
      | Some (ds, d) =>
          ([], Some {| type := "tabular"; count := int_of_digits ds;
                       delimiter := Some d; line := line_num |})
      | None =>
          match last_match list_header line_text with
          | Some ds =>
              ([], Some {| type := "list"; count := int_of_digits ds;
                           delimiter := None; line := line_num |})
          | None =>
              if contains "[" line_text && contains "]" line_text
              then ([InvalidArrayHeader], None)
              else ([], None)
          end
      end
  end.

(** _is_valid_key(key); the key is stripped, so the $ of the pattern
    stands at its end. *)
Definition _is_valid_key (key : string) : bool :=
  match key with
  | EmptyString => false
  | String c rest =>
      if starts_char dquote key && ends_char dquote key then true
      else is_ident_start c && all_chars is_ident_char rest
  end.

(** _is_valid_value(value) *)
Definition _is_valid_value (value : string) : bool :=
  if is_empty value then true
  else if starts_char "[" value && negb (ends_char "]" value) then false
  else if negb (Nat.even (count_char dquote value)) then false
  else true.

(** _validate_key_value(line, line_num) *)
Definition _validate_key_value (line_text : string) (line_num : nat)
  : list Message :=
  if negb (contains ":" line_text) then []
  else
    let (key0, value0) := partition ":" line_text in
    let key := strip key0 in
    let value := strip value0 in
    let errors1 :=
      if is_empty key then [EmptyKey]
      else if negb (_is_valid_key key) then [InvalidKeyFormat key]
      else [] in
    if negb (is_empty value) && negb (_is_valid_value value)
       && is_strict level
    then List.app errors1 [PotentiallyInvalidValue value]
    else errors1.

(** _needs_quotes(s) *)
Definition _needs_quotes (s : string) : bool :=
  if is_empty s then true
  else if mem (lower s) reserved_keywords then true
  else if isdigit (replace "-" "" (replace "." "" s)) then false
  else if negb (String.eqb s (strip s)) then true
  else contains ":" s || contains "[" s || contains "]" s || contains "-" s
       || contains newline s || contains tab s.

(** _check_quoting(line, line_num) *)
Definition _check_quoting (line_text : string) (line_num : nat)
  : list Message :=
  if negb (contains ":" line_text) || startswith "-" line_text then []
  else
    let value := strip (snd (partition ":" line_text)) in
    if starts_char dquote value && ends_char dquote value
    then
      if negb (_needs_quotes (slice_1_m1 value))
      then [UnnecessaryQuotes value] else []
    else if _needs_quotes value
            && (contains "," value || contains ":" value
                || contains "[" value)
    then [ValueMayNeedQuotes value]
    else [].

(** _check_types(line, line_num) *)
Definition _check_types (line_text : string) (line_num : nat)
  : list Message :=
  if negb (contains ":" line_text) || startswith "-" line_text then []
  else
    let value := strip (snd (partition ":" line_text)) in
    List.app
      (if mem value ["True"; "False"]
       then [BooleanShouldBeLowercase value (lower value)] else [])
      (if mem value ["None"; "NULL"; "Null"]
       then [NullShouldBeLowercase value] else []).

(** The state of the loop of validate. *)
Record state : Type :=
  { result : ValidationResult;
    in_array : bool;
    array_info : option ArrayInfo }.

Definition add_all (add : ValidationResult -> nat -> Message ->
                          option string -> ValidationResult)
    (i : nat) (line : string) (msgs : list Message) (r : ValidationResult)
  : ValidationResult :=
  fold_left (fun acc m => add acc i m (Some line)) msgs r.

(** The body of the loop of validate for line number i. *)
Definition validate_line (st : state) (i : nat) (line : string)
  : option state :=
  if is_empty (strip line) then Some st
  else
    match _validate_indentation line i 0 with
    | None => None
    | Some indent_errors =>
        let r1 :=
          add_all (if is_strict level then add_error else add_warning)
            i line indent_errors (result st) in
        let stripped := strip line in
        let '(r2, in_array2, array_info2) :=
          if contains "[" stripped && contains "]" stripped
             && negb (in_array st)
          then
            let (array_errors, inf) := _validate_array_header stripped i in
            let r := add_all add_error i line array_errors r1 in
            match inf with
            | Some _ => (r, true, inf)
            | None => (r, in_array st, array_info st)
            end
          else (r1, in_array st, array_info st) in
        let r3 :=
          if contains ":" stripped && negb (startswith "-" stripped)
          then
            add_all (if is_strict level then add_error else add_warning)
              i line (_validate_key_value stripped i) r2
          else r2 in
        let r4 := add_all add_warning i line (_check_quoting stripped i) r3 in
        let r5 := add_all add_warning i line (_check_types stripped i) r4 in
        Some {| result := r5; in_array := in_array2;
                array_info := array_info2 |}
    end.

(** for i, line in enumerate(lines, start=...) *)
Fixpoint validate_lines (st : state) (i : nat) (lines : list string)
  : option state :=
  match lines with
  | [] => Some st
  | line :: lines' =>
      match validate_line st i line with
      | Some st' => validate_lines st' (S i) lines'
      | None => None
      end
  end.

(** validate(toon_str): [None] when it raises ZeroDivisionError. *)
Definition validate (toon_str : string) : option ValidationResult :=
  let lines := split newline toon_str in
  option_map result
    (validate_lines
       {| result := empty_result; in_array := false; array_info := None |}
       1 lines).

(** quick_validate(toon_str) *)
Definition quick_validate (toon_str : string) : option bool :=
  option_map is_valid (validate toon_str).

End Validate.

(** validate_toon(toon_str, strict) and is_valid_toon(toon_str, strict):
    the validator they build has the default indent unit 2. *)
Definition validate_toon (toon_str : string) (strict : bool)
  : option ValidationResult :=
  validate (if strict then STRICT else LENIENT) 2 toon_str.

Definition is_valid_toon (toon_str : string) (strict : bool) : option bool :=
  option_map is_valid (validate_toon toon_str strict).

End Validator.

(* ------------------------------------------------------------------ *)
(** * Documents, values and predicates of the statements *)

Import Py.

Definition nl : string := chr newline.

Definition quoted (body : string) : string :=
  String dquote (body ++ chr dquote).

Definition no_newline (s : string) : bool := negb (contains newline s).

(** ** Inputs *)

(** A nested object whose first line is indented by one space, less than
    the indent unit 2. *)
Definition shallow_nested : string := "a:" ++ nl ++ " b: 1".

Definition scores : Value := VObj [("scores", VArr [VInt 100; VInt 95])].

Definition alice : Value := VObj [("id", VInt 1); ("name", VStr "Alice")].
Definition bob : Value := VObj [("id", VInt 2); ("name", VStr "Bob")].
Definition carol : Value := VObj [("id", VInt 3); ("name", VStr "Carol")].

(** A table whose header declares 3 rows and that has 2, as the encoder
    lays it out. *)
Definition short_table : string :=
  "users [3,]" ++ nl ++ "  id, name" ++ nl ++ "  1, Alice" ++ nl ++ "  2, Bob".

(** The same table in the layout that takes the loop of decode_from_toon to
    _parse_tabular_array: a ':' ends the header, and the line of column
    names is not indented deeper than the header. *)
Definition short_table_colon : string :=
  "users [3,]:" ++ nl ++ "id, name" ++ nl ++ "  1, Alice" ++ nl ++ "  2, Bob".

(** A table whose second data row has one cell for two columns. *)
Definition ragged_table : string :=
  "users [3,]:" ++ nl ++ "id, name" ++ nl ++ "  1, Alice" ++ nl ++ "  2"
  ++ nl ++ "  3, Carol".

Definition strict_options : ToonDecodeOptions.t :=
  ToonDecodeOptions.Build 2 true.

(** A table of one row whose cell is a string of two lines. *)
Definition two_line_cell : Value :=
  VObj [("t", VArr [VObj [("a", VStr ("x" ++ nl ++ "y"))]])].

Definition tuple_of_date : OldParser.PyVal :=
  OldParser.PTuple [OldParser.PDate "2025-01-15"].

(** Decimal("NaN"): float(value) is the float nan. *)
Definition decimal_nan : OldParser.PyVal :=
  OldParser.PDecimal S754_nan "nan".

(** ** Lines that open no block *)






(** ** The quoting rules *)

(** The quoting rule in the words of the specification, for an active
    delimiter.  A string parses fully as a number when the decoder reads a
    number from it. *)
Definition parses_as_number (s : string) : bool :=
  match Parser.parse_number s with Some _ => true | None => false end.




(** ** Tables written line by line *)

(** A cell of a table that is written on one line: a scalar whose text, if
    it is a string, holds no newline. *)
Definition cell_ok (v : Value) : bool :=
  match v with
  | VNull | VBool _ | VInt _ => true
  | VFloat text => no_newline text
  | VStr s => no_newline s
  | VObj _ | VArr _ => false
  end.

Definition row_ok (item : Value) : bool :=
  match item with
  | VObj d => forallb (fun kv => no_newline (fst kv) && cell_ok (snd kv)) d
  | _ => false
  end.

(** ** Warnings of the validator *)

Definition warning_at (i : nat) (line : string) (m : Validator.Message)
  : Validator.ValidationError :=
  {| Validator.line_num := i;
     Validator.severity := Validator.WARNING;
     Validator.message := m;
     Validator.context := Some line |}.

(* ------------------------------------------------------------------ *)
(** * Definitions of the further properties *)

(** ** Decimal numerals *)

(** The number a numeral of the Standard Library stands for, read from the
    left from acc: what str prints for an int is such a numeral. *)
Fixpoint uint_value (acc : Z) (d : Decimal.uint) : Z :=
  match d with
  | Decimal.Nil => acc
  | Decimal.D0 d => uint_value (10 * acc) d
  | Decimal.D1 d => uint_value (10 * acc + 1) d
  | Decimal.D2 d => uint_value (10 * acc + 2) d
  | Decimal.D3 d => uint_value (10 * acc + 3) d
  | Decimal.D4 d => uint_value (10 * acc + 4) d
  | Decimal.D5 d => uint_value (10 * acc + 5) d
  | Decimal.D6 d => uint_value (10 * acc + 6) d
  | Decimal.D7 d => uint_value (10 * acc + 7) d
  | Decimal.D8 d => uint_value (10 * acc + 8) d
  | Decimal.D9 d => uint_value (10 * acc + 9) d
  end%Z.

(** ** Objects written one entry to a line *)

(** A string that is not empty and has no white space at either end. *)
Definition trimmed (s : string) : Prop :=
  exists c0 r cl,
    s = String c0 r /\ isspace c0 = false
    /\ last_char s = Some cl /\ isspace cl = false.

(** A key that one line of an object holds and gives back. *)
Definition line_key (k : string) : bool :=
  String.eqb (strip k) k
  && negb (contains ":" k) && negb (contains "[" k)
  && no_newline k && negb (startswith "-" k).

(** A scalar that one line of an object holds and gives back. *)
Definition line_scalar (v : Value) : bool :=
  match v with
  | VNull | VBool _ | VInt _ => true
  | VFloat text =>
      float_ok text && String.eqb (strip text) text && contains "." text
      && no_newline text
  | VStr s =>
      no_newline s
      && (Parser._needs_quotes s
          || (negb (starts_char dquote s && ends_char dquote s)
              && negb (contains "." s && float_ok s)))
  | VObj _ | VArr _ => false
  end.

(** The line of the entry key: val of an object at level 0. *)
Definition entry_line (kv : string * Value) : string :=
  fst kv ++ ": " ++ Parser._format_primitive (snd kv).

(** An object of line keys and line scalars. *)
Definition flat_entries (items : dict) : bool :=
  forallb (fun kv => line_key (fst kv) && line_scalar (snd kv)) items.

(** ** Indentation *)


(** ** The shape of what decode_from_toon returns *)

(** A value that is no dict and no list. *)
Definition is_scalar (v : Value) : bool :=
  match v with VObj _ | VArr _ => false | _ => true end.

(** An object whose values are scalars. *)
Definition scalar_object (v : Value) : bool :=
  match v with
  | VObj d => forallb (fun kv => is_scalar (snd kv)) d
  | _ => false
  end.

(** What decode_from_toon stores under a key: a scalar, an object of
    scalars, an array of scalars or an array of objects of scalars. *)
Definition decoded_entry (v : Value) : bool :=
  match v with
  | VObj _ => scalar_object v
  | VArr elems => forallb is_scalar elems || forallb scalar_object elems
  | _ => true
  end.

(** ** toon_parser-old.py: what the normaliser settles *)

Section NormalForms.
Import OldParser.

(** The floats _normalize_types returns as they are: not NaN, not
    infinite, not zero. *)
Definition kept (f : spec_float) : bool :=
  SFeqb f f && negb (SFeqb f pos_inf || SFeqb f neg_inf)
  && negb (SFeqb f neg_zero).

(** The values a pass of _normalize_types leaves as they are. *)
Fixpoint settled (v : PyVal) : bool :=
  match v with
  | PNone | PBool _ | PInt _ | PStr _ | PObject => true
  | PFloat f _ => kept f
  | PDict items => forallb (fun kv => settled (snd kv)) items
  | PList elems => forallb settled elems
  | PDate _ | PDecimal _ _ | PTuple _ | PSet _ | PCallable => false
  end.

(** The values one pass of _normalize_types settles. *)
Fixpoint one_pass (v : PyVal) : bool :=
  match v with
  | PDecimal f _ => kept f
  | PTuple elems => forallb settled elems
  | PSet (Some sorted) => forallb settled sorted
  | PSet None => false
  | PDict items => forallb (fun kv => one_pass (snd kv)) items
  | PList elems => forallb one_pass elems
  | _ => true
  end.

(** The comprehensions of _normalize_types. *)
Fixpoint normalize_list (l : list PyVal) : result (list PyVal) :=
  match l with
  | [] => Ok []
  | v :: l' =>
      do v' <- _normalize_types v;
      do r <- normalize_list l';
      Ok (v' :: r)
  end.

Fixpoint normalize_items (l : list (string * PyVal))
  : result (list (string * PyVal)) :=
  match l with
  | [] => Ok []
  | (k, v) :: l' =>
      do v' <- _normalize_types v;
      do r <- normalize_items l';
      Ok ((k, v') :: r)
  end.

Section PyVal_induction.
Variable P : PyVal -> Prop.
Hypothesis HNone : P PNone.
Hypothesis HBool : forall b, P (PBool b).
Hypothesis HInt : forall z, P (PInt z).
Hypothesis HFloat : forall f text, P (PFloat f text).
Hypothesis HStr : forall s, P (PStr s).
Hypothesis HDate : forall iso, P (PDate iso).
Hypothesis HDecimal : forall f text, P (PDecimal f text).
Hypothesis HTuple : forall elems, P (PTuple elems).
Hypothesis HSet : forall sorted, P (PSet sorted).
Hypothesis HCallable : P PCallable.
Hypothesis HDict :
  forall items, Forall (fun kv => P (snd kv)) items -> P (PDict items).
Hypothesis HList : forall elems, Forall P elems -> P (PList elems).
Hypothesis HObject : P PObject.

(** Induction on a value through the values of a dict and the elements of
    a list (a tuple and a set are not gone through: _normalize_types does
    not go through them either). *)
Fixpoint PyVal_children_ind (v : PyVal) : P v :=
  match v with
  | PNone => HNone
  | PBool b => HBool b
  | PInt z => HInt z
  | PFloat f text => HFloat f text
  | PStr s => HStr s
  | PDate iso => HDate iso
  | PDecimal f text => HDecimal f text
  | PTuple elems => HTuple elems
  | PSet sorted => HSet sorted
  | PCallable => HCallable
  | PDict items =>
      HDict items
        ((fix each (l : list (string * PyVal))
            : Forall (fun kv => P (snd kv)) l :=
            match l with
            | [] => Forall_nil _
            | kv :: l' =>
                Forall_cons kv (PyVal_children_ind (snd kv)) (each l')
            end) items)
  | PList elems =>
      HList elems
        ((fix each (l : list PyVal) : Forall P l :=
            match l with
            | [] => Forall_nil _
            | w :: l' => Forall_cons w (PyVal_children_ind w) (each l')
            end) elems)
  | PObject => HObject
  end.
End PyVal_induction.

End NormalForms.

(** ** toon_parser-old.py: tables *)

Section Tables.
Import OldParser.

(** The text str prints for a float holds no newline. *)
Definition float_text_ok (v : PyVal) : bool :=
  match v with PFloat _ text => no_newline text | _ => true end.

(** A table whose delimiter, column names and float texts hold no
    newline. *)
Definition one_line_table (self : ToonParser) (arr : list PyVal) : bool :=
  no_newline (delimiter self)
  && forallb (fun item =>
                forallb no_newline (dict_keys item)
                && forallb float_text_ok (dict_values item)) arr.

(** The comprehension of the cells of a data row. *)
Definition row_values (self : ToonParser) (item : PyVal)
  : list string -> result (list string) :=
  fix each (l : list string) : result (list string) :=
    match l with
    | [] => Ok []
    | key :: l' =>
        do v <- match lookup key item with
                | Some w => encode_scalar self w
                | None => Raise KeyError
                end;
        do r <- each l';
        Ok (v :: r)
    end.

(** The loop over the data rows. *)
Definition table_rows (self : ToonParser) (ks : list string) (pad : string)
  : list PyVal -> result (list string) :=
  fix each (l : list PyVal) : result (list string) :=
    match l with
    | [] => Ok []
    | item :: l' =>
        do row <- tabular_row self ks item;
        do r <- each l';
        Ok ((pad ++ row) :: r)
    end.

(** A row of a table: a dict that has the keys of the first row and holds
    primitive values. *)
Definition table_row (first : PyVal) (item : PyVal) : bool :=
  is_dict item
  && same_key_set (dict_keys item) (dict_keys first)
  && forallb is_primitive (dict_values item).

End Tables.

(** ** toon_parser-old.py: the keys of decoded arrays *)

(** The arrays of a dict stand under keys that start with a bracket. *)
Definition arrays_under_brackets (d : dict) : Prop :=
  forall k elems, In (k, VArr elems) d -> starts_char "[" k = true.

(** ** Results of the validator *)

Section ValidatorResults.
Import Validator.

(** A result as validate builds it. *)
Definition well_formed (r : ValidationResult) : Prop :=
  is_valid r = negb (has_errors r)
  /\ Forall (fun e => severity e = ERROR) (errors r)
  /\ Forall (fun w => severity w = WARNING) (warnings r)
  /\ info r = [].

(** Every diagnostic carries the number of a line of the text and that
    line as its context. *)
Definition located (lines : list string) (d : ValidationError) : Prop :=
  exists k, line_num d = S k /\ context d = nth_error lines k
            /\ k < List.length lines.

(** An error of an array header: it carries the line, in which both
    brackets occur. *)
Definition header_error (e : ValidationError) : Prop :=
  message e = InvalidArrayHeader
  /\ exists line, context e = Some line
                  /\ contains "[" (strip line) = true
                  /\ contains "]" (strip line) = true.

End ValidatorResults.

(** ** The digits int converts *)

(** sys.int_max_str_digits as the interpreter sets it by default: int
    raises ValueError on a text of more decimal digits. *)
Definition int_max_str_digits : N := 4300.

(** len([c for c in s if c in "0123456789"]) *)
Fixpoint count_decimal (s : string) : N :=
  match s with
  | EmptyString => 0
  | String c s' => (if isdecimal c then 1 else 0) + count_decimal s'
  end.

(** No line of the text holds more decimal digits than int converts: the
    count of an array header, which _validate_array_header passes to int,
    is then within the limit. *)
Definition within_digit_limit (toon_str : string) : bool :=
  forallb (fun line => (count_decimal line <=? int_max_str_digits)%N)
    (split newline toon_str).

(** ** Values without a dict *)

(** A value in which no dict occurs. *)
Fixpoint object_free (v : Value) : bool :=
  match v with
  | VObj _ => false
  | VArr elems => forallb object_free elems
  | _ => true
  end.

Section Value_induction.
Variable P : Value -> Prop.
Hypothesis HNull : P VNull.
Hypothesis HBool : forall b, P (VBool b).
Hypothesis HInt : forall z, P (VInt z).
Hypothesis HFloat : forall text, P (VFloat text).
Hypothesis HStr : forall s, P (VStr s).
Hypothesis HObj :
  forall items, Forall (fun kv => P (snd kv)) items -> P (VObj items).
Hypothesis HArr : forall elems, Forall P elems -> P (VArr elems).

(** Induction on a value through the values of a dict and the elements of
    a list. *)
Fixpoint Value_children_ind (v : Value) : P v :=
  match v with
  | VNull => HNull
  | VBool b => HBool b
  | VInt z => HInt z
  | VFloat text => HFloat text
  | VStr s => HStr s
  | VObj items =>
      HObj items
        ((fix each (l : list (string * Value))
            : Forall (fun kv => P (snd kv)) l :=
            match l with
            | [] => Forall_nil _
            | kv :: l' =>
                Forall_cons kv (Value_children_ind (snd kv)) (each l')
            end) items)
  | VArr elems =>
      HArr elems
        ((fix each (l : list Value) : Forall P l :=
            match l with
            | [] => Forall_nil _
            | w :: l' => Forall_cons w (Value_children_ind w) (each l')
            end) elems)
  end.
End Value_induction.

(** ** Tables without a colon *)

(** No colon occurs in s. *)
Definition colon_free (s : string) : bool := negb (contains ":" s).

(** A cell of a table in whose text no colon occurs. *)
Definition cell_colon_free (v : Value) : bool :=
  match v with
  | VNull | VBool _ | VInt _ => true
  | VFloat text => colon_free text
  | VStr s => colon_free s
  | VObj _ | VArr _ => false
  end.

(** A row of a table in whose column names and cells no colon occurs. *)
Definition row_colon_free (item : Value) : bool :=
  match item with
  | VObj d =>
      forallb (fun kv => colon_free (fst kv) && cell_colon_free (snd kv)) d
  | _ => false
  end.

(** ** Strings that look like numbers *)

(** A character of a string that _encode_string takes for a number. *)
Definition is_number_char (c : ascii) : bool :=
  isdigit_char c || Ascii.eqb c "-" || Ascii.eqb c ".".

(** ** A dict under a key *)

(** The line of an entry of a dict that stands under a key at level 0. *)
Definition nested_line (options : ToonEncodeOptions.t)
    (kv : string * Value) : string :=
  spaces (ToonEncodeOptions.indent options * (0 + 1)) ++ entry_line kv.

(** ** Scalars of an array *)

(** A line scalar in whose text no comma occurs. *)
Definition array_scalar (v : Value) : bool :=
  line_scalar v && negb (contains "," (Parser._format_primitive v)).

(** ** toon_parser-old.py: what the encoder writes *)

Section Encodable.
Import OldParser.

Definition is_empty_dict (v : PyVal) : bool :=
  match v with PDict [] => true | _ => false end.

(** The values _encode_value writes: None, bool, int, float, str, and the
    dicts and lists of such values in which no empty dict is an element of
    a list that is written item by item. *)
Fixpoint encodable (v : PyVal) : bool :=
  match v with
  | PNone | PBool _ | PInt _ | PFloat _ _ | PStr _ => true
  | PDict items => forallb (fun kv => encodable (snd kv)) items
  | PList elems =>
      forallb encodable elems
      && match _detect_array_type elems with
         | LIST => forallb (fun e => negb (is_empty_dict e)) elems
         | _ => true
         end
  | _ => false
  end.

(** The loop of _encode_object. *)
Definition encode_entries (self : ToonParser) (level : Z)
  : list (string * PyVal) -> result (list string) :=
  fix entries (kvs : list (string * PyVal)) : result (list string) :=
    match kvs with
    | [] => Ok []
    | (key, v) :: kvs' =>
        do here <-
          match v with
          | PDict _ =>
              do nested <- _encode_value self v (level + 1);
              Ok [indent_str self level ++ key ++ ":"; nested]
          | PList _ =>
              do array_str <- _encode_value self v level;
              Ok [indent_str self level ++ key ++ " " ++ array_str]
          | _ =>
              do value_str <- _encode_value self v level;
              Ok [indent_str self level ++ key ++ ": " ++ value_str]
          end;
        do r <- entries kvs';
        Ok (List.app here r)
    end.

(** The loop of _encode_list_array over the keys of an item after the
    first. *)
Definition encode_rest (self : ToonParser) (level : Z)
  : list (string * PyVal) -> result (list string) :=
  fix rest (kvs : list (string * PyVal)) : result (list string) :=
    match kvs with
    | [] => Ok []
    | (key, v) :: kvs' =>
        do here <-
          match v with
          | PDict _ =>
              do nested <- _encode_value self v (level + 2);
              Ok [indent_str self (level + 1) ++ "  " ++ key ++ ":"; nested]
          | _ =>
              do value_str <- _encode_value self v (level + 1);
              Ok [indent_str self (level + 1) ++ "  " ++ key ++ ": "
                    ++ value_str]
          end;
        do r <- rest kvs';
        Ok (List.app here r)
    end.

(** The loop of _encode_list_array over the items. *)
Definition encode_items (self : ToonParser) (level : Z)
  : list PyVal -> result (list string) :=
  fix each (l : list PyVal) : result (list string) :=
    match l with
    | [] => Ok []
    | item :: l' =>
        do here <-
          match item with
          | PDict [] => Raise IndexError
          | PDict ((k0, v0) :: others) =>
              do first <- _encode_value self v0 (level + 1);
              do more <- encode_rest self level others;
              Ok ((indent_str self (level + 1) ++ "- " ++ k0 ++ ": " ++ first)
                  :: more)
          | _ =>
              do v <- _encode_value self item (level + 1);
              Ok [indent_str self (level + 1) ++ "- " ++ v]
          end;
        do r <- each l';
        Ok (List.app here r)
    end.

Section Encodes.
Variable self : ToonParser.

(** _encode_value returns a text for v at every level. *)
Definition encodes (v : PyVal) : Prop :=
  forall level, exists text, _encode_value self v level = Ok text.

(** What the induction carries: v is written, and so is each value of v
    when v is a dict. *)
Definition encodes_deep (v : PyVal) : Prop :=
  encodable v = true ->
  encodes v
  /\ match v with
     | PDict items => Forall (fun kv => encodes (snd kv)) items
     | _ => True
     end.

End Encodes.

End Encodable.

(** ** toon_parser-old.py: dicts written one entry to a line *)

Section OldLines.
Import OldParser.

(** The JSON value a scalar of the encoder stands for. *)
Definition to_value (v : PyVal) : Value :=
  match v with
  | PBool b => VBool b
  | PInt z => VInt z
  | PFloat _ text => VFloat text
  | PStr s => VStr s
  | _ => VNull
  end.

(** A scalar that one line of toon_parser-old.py holds and gives back. *)
Definition old_line_scalar (self : ToonParser) (v : PyVal) : bool :=
  match v with
  | PNone | PBool _ | PInt _ => true
  | PFloat f text =>
      kept f && float_ok text && String.eqb (strip text) text
      && contains "." text && no_newline text
  | PStr s =>
      negb (contains backslash s)
      && (needs_quoting self s
          || (negb (starts_char dquote s && ends_char dquote s)
              && negb (parses_as_number s)))
  | _ => false
  end.

(** A dict of line keys and line scalars. *)
Definition old_flat_entries (self : ToonParser)
    (items : list (string * PyVal)) : bool :=
  forallb (fun kv => line_key (fst kv) && old_line_scalar self (snd kv))
    items.

(** The line of the entry key: value of a dict at level 0. *)
Definition old_entry_line (self : ToonParser) (kv : string * PyVal)
  : string :=
  fst kv ++ ": "
  ++ match encode_scalar self (snd kv) with
     | Ok text => text
     | Raise _ => ""
     end.

End OldLines.

(** ** toon_parser-old.py: dicts in dicts *)

Section DictTrees.
Import OldParser.

(** The keys of a list are distinct. *)
Fixpoint distinct (l : list string) : bool :=
  match l with
  | [] => true
  | k :: l' => negb (mem k l') && distinct l'
  end.

(** A dict whose keys are distinct line keys and whose values are line
    scalars or such dicts. *)
Fixpoint dict_tree (self : ToonParser) (v : PyVal) : bool :=
  match v with
  | PDict items =>
      distinct (map fst items)
      && forallb (fun kv =>
                    line_key (fst kv)
                    && (old_line_scalar self (snd kv)
                        || dict_tree self (snd kv))) items
  | _ => false
  end.

(** The JSON value a value of the encoder stands for. *)
Fixpoint to_json (v : PyVal) : Value :=
  match v with
  | PDict items => VObj (map (fun kv => (fst kv, to_json (snd kv))) items)
  | PList elems => VArr (map to_json elems)
  | _ => to_value v
  end.

(** The lines of _encode_object(v, level) for a dict tree v: the line of a
    scalar entry, and for a dict entry the line of its key and the lines of
    the dict one level deeper, an empty dict giving one empty line. *)
Fixpoint tree_lines (self : ToonParser) (level : Z) (v : PyVal)
  : list string :=
  match v with
  | PDict [] => [""]
  | PDict items =>
      flat_map
        (fun kv =>
           match snd kv with
           | PDict _ =>
               (indent_str self level ++ fst kv ++ ":")
               :: tree_lines self (level + 1) (snd kv)
           | _ => [indent_str self level ++ old_entry_line self kv]
           end) items
  | _ => []
  end.

(** The lines of one entry of a dict tree at a level. *)
Definition entry_lines (self : ToonParser) (level : Z)
    (kv : string * PyVal) : list string :=
  match snd kv with
  | PDict _ =>
      (indent_str self level ++ fst kv ++ ":")
      :: tree_lines self (level + 1) (snd kv)
  | _ => [indent_str self level ++ old_entry_line self kv]
  end.

(** The entries of the JSON object a dict stands for. *)
Definition json_entries (items : list (string * PyVal)) : dict :=
  map (fun kv => (fst kv, to_json (snd kv))) items.

(** The loop of _parse_lines stops before the lines: there is none, or
    the first is not blank and is indented by less than the bound. *)
Definition stops (bound : Z) (post : list string) : Prop :=
  match post with
  | [] => True
  | l :: _ =>
      is_empty (strip l) = false /\ (Z.of_nat (indent_of l) < bound)%Z
  end.

(** _parse_lines reads the lines of a dict tree as the dict, wherever they
    stand among the lines. *)
Definition decodes (self : ToonParser) (v : PyVal) : Prop :=
  forall items, v = PDict items ->
  dict_tree self v = true ->
  forall level pre post fuel,
    (0 <= level)%Z ->
    stops (indent self * level) post ->
    List.length (tree_lines self level v) < fuel ->
    parse_lines_loop self fuel
      (List.app pre (List.app (tree_lines self level v) post))
      (List.length pre) (indent self * level) []
    = Some (Ok (json_entries items,
                List.length pre + List.length (tree_lines self level v))).

End DictTrees.

(** ** Entries the validator takes *)

(** An entry that the validator takes without an error: the key is a line
    key in the validator's format, the value a line scalar in whose text
    no '[' occurs and the double quotes are even in number. *)
Definition valid_entry (kv : string * Value) : bool :=
  line_key (fst kv) && Validator._is_valid_key (fst kv)
  && line_scalar (snd kv)
  && negb (contains "[" (Parser._format_primitive (snd kv)))
  && Nat.even (Validator.count_char dquote
                 (Parser._format_primitive (snd kv))).

(* ------------------------------------------------------------------ *)
(** * Properties *)

(** ** Strings *)



(** ** decode_from_toon: the loop *)

(** A turn of the loop that comes back to the index and the result it
    started from comes back to them for ever. *)
Lemma decode_loop_stuck options lines i r :
  Parser.decode_step options lines i r = Some (Parser.Next i r) ->
  forall fuel, Parser.decode_loop options fuel lines i r = None.
Proof.
  intros Hstep fuel. induction fuel as [|fuel IH]; simpl; [reflexivity|].
  now rewrite Hstep.
Qed.





(** ** C10: what decode_from_toon returns *)







(** ** C2: termination of decode_from_toon *)

(** C2.  decode_from_toon does not terminate on [shallow_nested] with the
    indent unit 2, in strict or in lenient mode: _parse_nested_object stops
    at once on the line " b: 1" (indent 1 < base_indent 2) and returns
    start_idx - 1, the index of the line "a:", where the loop of
    decode_from_toon starts over; whatever the number of turns allowed, the
    loop has not ended. *)
Theorem decode_diverges_on_shallow_nested :
  forall strict fuel,
    Parser.decode_from_toon fuel shallow_nested
      (ToonDecodeOptions.Build 2 strict)
    = None.
Proof.
  intros strict fuel. unfold Parser.decode_from_toon.
  replace (split newline (strip shallow_nested)) with ["a:"; " b: 1"]
    by reflexivity.
  destruct fuel as [|fuel]; [reflexivity|].
  change (option_map VObj
            (Parser.decode_loop (ToonDecodeOptions.Build 2 strict) fuel
               ["a:"; " b: 1"] 0 [("a", VObj [])]) = None).
  rewrite decode_loop_stuck; reflexivity.
Qed.

(** ** C1: round trip *)

(** C1.  The round trip fails on {"scores": [100, 95]}: the encoder writes
    the line scores [2]: 100, 95, and the decoder, which takes a header for
    a primitive array only when a ':' occurs after the first ':' of the
    line, reads it as a list array without items. *)
Theorem roundtrip_fails_on_primitive_array :
  Parser.encode_to_toon scores ToonEncodeOptions.default
  = "scores [2]: 100, 95"
  /\ Parser.decode_from_toon 2 "scores [2]: 100, 95"
       ToonDecodeOptions.default
     = Some (VObj [("scores", VArr [])])
  /\ forall fuel,
       Parser.decode_from_toon fuel
         (Parser.encode_to_toon scores ToonEncodeOptions.default)
         ToonDecodeOptions.default
       <> Some scores.
Proof.
  split; [reflexivity|]. split; [reflexivity|].
  intros fuel. destruct fuel as [|[|fuel]]; discriminate.
Qed.

(** ** C3, C6: strict mode and the tabular parser *)

(** decode_from_toon reads nothing of its options but the indent unit:
    options.strict is never consulted. *)
Section IndentOnly.
Variables o1 o2 : ToonDecodeOptions.t.
Hypothesis same_indent :
  ToonDecodeOptions.indent o1 = ToonDecodeOptions.indent o2.

Lemma list_array_loop_indent_only fuel lines base :
  forall i items,
    Parser.list_array_loop o1 fuel lines i base items
    = Parser.list_array_loop o2 fuel lines i base items.
Proof.
  induction fuel as [|fuel IH]; intros i items; simpl; [reflexivity|].
  destruct (nth_error lines i) as [line|]; [|reflexivity].
  unfold Parser._parse_nested_object. rewrite same_indent.
  destruct (is_empty (strip line)); [apply IH|].
  destruct (Z.of_nat (indent_of line) <? base)%Z; [reflexivity|].
  destruct (startswith "-" (strip line)); [|apply IH].
  destruct (Parser.nested_object_loop _ _ _ _) as [obj j]. apply IH.
Qed.

Lemma decode_step_indent_only lines i result :
  Parser.decode_step o1 lines i result = Parser.decode_step o2 lines i result.
Proof.
  unfold Parser.decode_step, Parser._parse_list_array,
    Parser._parse_tabular_array, Parser._parse_nested_object.
  rewrite same_indent.
  destruct (nth_error lines i) as [line|]; [|reflexivity].
  now rewrite list_array_loop_indent_only.
Qed.

Lemma decode_loop_indent_only fuel lines :
  forall i result,
    Parser.decode_loop o1 fuel lines i result
    = Parser.decode_loop o2 fuel lines i result.
Proof.
  induction fuel as [|fuel IH]; intros i result; simpl; [reflexivity|].
  rewrite decode_step_indent_only.
  destruct (Parser.decode_step o2 lines i result) as [[r|i' r]|];
    auto.
Qed.

End IndentOnly.

Lemma decode_ignores_strict fuel toon_string indent :
  Parser.decode_from_toon fuel toon_string
    (ToonDecodeOptions.Build indent true)
  = Parser.decode_from_toon fuel toon_string
      (ToonDecodeOptions.Build indent false).
Proof.
  unfold Parser.decode_from_toon.
  now rewrite (decode_loop_indent_only (ToonDecodeOptions.Build indent true)
                 (ToonDecodeOptions.Build indent false) eq_refl).
Qed.

(** C3.  Strict decoding raises nothing on a table that declares 3 rows
    and has 2.  In the layout of the encoder the header line holds no ':'
    and the whole table is passed over: the result is the empty dict.  In
    the layout that reaches _parse_tabular_array (a ':' ends the header)
    the 2 rows are returned: the declared count is not among the arguments
    of _parse_tabular_array and is compared with nothing.  options.strict
    is never read: on every text strict and lenient decoding give the same
    outcome.  The tabular parser of toon_parser-old.py does count the rows
    against the header, and raises on the same lines. *)
Theorem strict_decode_accepts_short_table :
  (forall fuel,
      Parser.decode_from_toon (5 + fuel) short_table strict_options
      = Some (VObj []))
  /\ (forall fuel,
         Parser.decode_from_toon (2 + fuel) short_table_colon strict_options
         = Some (VObj [("users", VArr [alice; bob])]))
  /\ Parser._parse_tabular_array
       ["users [3,]"; "  id, name"; "  1, Alice"; "  2, Bob"] 1 2
       strict_options
     = ([alice; bob], 3)
  /\ (forall fuel toon_string indent,
         Parser.decode_from_toon fuel toon_string
           (ToonDecodeOptions.Build indent true)
         = Parser.decode_from_toon fuel toon_string
             (ToonDecodeOptions.Build indent false))
  /\ OldParser._parse_tabular_array
       ["users [3,]"; "  id, name"; "  1, Alice"; "  2, Bob"] 1 0 3 ","
     = OldParser.Raise (OldParser.ToonParseError (OldParser.FewerRows 3) 4).
Proof.
  split; [|split; [|split; [|split]]]; try reflexivity.
  intros. apply decode_ignores_strict.
Qed.

(** C6.  Under strict decoding the row with one cell for two columns is
    dropped and decoding goes on to the end: no error is raised, in strict
    or in lenient mode, and the array holds the rows before and after it.
    The tabular parser of toon_parser-old.py compares the shape of each
    row with the columns, and raises on the same lines with the 1-based
    number of the line of the row. *)
Theorem strict_decode_skips_ragged_row :
  (forall strict fuel,
      Parser.decode_from_toon (2 + fuel) ragged_table
        (ToonDecodeOptions.Build 2 strict)
      = Some (VObj [("users", VArr [alice; carol])]))
  /\ Parser._parse_tabular_array
       ["users [3,]:"; "id, name"; "  1, Alice"; "  2"; "  3, Carol"] 1 2
       strict_options
     = ([alice; carol], 4)
  /\ OldParser._parse_tabular_array
       ["users [3,]"; "  id, name"; "  1, Alice"; "  2"; "  3, Carol"]
       1 0 3 ","
     = OldParser.Raise
         (OldParser.ToonParseError (OldParser.RowShape 2 1 2) 4).
Proof.
  split; [|split]; reflexivity.
Qed.

(** ** C4: the empty array *)

(** C4, as stated, fails: the classifier gives an empty array the kind
    LIST, not PRIMITIVE. *)
Lemma empty_array_is_not_primitive :
  OldParser._detect_array_type [] <> OldParser.PRIMITIVE.
Proof. discriminate. Qed.

(** C4, amended.  _detect_array_type maps the empty array to LIST, and
    encode, which tests for the empty array before it classifies, writes
    {"items": []} as the one line items [0]. *)
Theorem empty_array_is_list :
  OldParser._detect_array_type [] = OldParser.LIST
  /\ (forall self level, OldParser._encode_array self [] level
                         = OldParser.Ok "[0]")
  /\ forall self,
       OldParser.encode self (OldParser.PDict [("items", OldParser.PList [])])
       = OldParser.Ok "items [0]".
Proof.
  split; [reflexivity|]. split; [reflexivity|].
  intros self. unfold OldParser.encode. simpl.
  unfold OldParser.indent_str. rewrite Z.mul_0_r. reflexivity.
Qed.

(** ** C8: normalisation twice *)

(** C8.  _normalize_types is not idempotent on a tuple that holds a date:
    the tuple becomes a list of its elements as they are, so the date is
    turned into its ISO text only by the second pass, which goes through
    lists.  Nor is it on Decimal("NaN"): the first pass gives the float nan
    as it is, the second pass gives None. *)
Theorem normalize_twice_differs_on_tuple_of_date :
  OldParser._normalize_types tuple_of_date
  = OldParser.Ok (OldParser.PList [OldParser.PDate "2025-01-15"])
  /\ OldParser.bind (OldParser._normalize_types tuple_of_date)
       OldParser._normalize_types
     = OldParser.Ok (OldParser.PList [OldParser.PStr "2025-01-15"])
  /\ OldParser.bind (OldParser._normalize_types tuple_of_date)
       OldParser._normalize_types
     <> OldParser._normalize_types tuple_of_date
  /\ OldParser._normalize_types decimal_nan
     = OldParser.Ok (OldParser.PFloat S754_nan "nan")
  /\ OldParser.bind (OldParser._normalize_types decimal_nan)
       OldParser._normalize_types
     = OldParser.Ok OldParser.PNone.
Proof. repeat split; try reflexivity. discriminate. Qed.

(** ** C5: which strings the encoders put in quotes *)

Lemma string_length_app (a b : string) :
  String.length (a ++ b) = String.length a + String.length b.
Proof. induction a as [|c a IH]; simpl; [reflexivity|now rewrite IH]. Qed.




Lemma mem_In (k : string) (l : list string) : mem k l = true <-> In k l.
Proof.
  unfold mem. rewrite existsb_exists. split.
  - intros [x [Hin Heq]]. apply String.eqb_eq in Heq. now subst.
  - intros Hin. exists k. split; [assumption|apply String.eqb_refl].
Qed.







(** ** C7: the lines of a tabular array *)

Lemma contains_app (c : ascii) (a b : string) :
  contains c (a ++ b) = contains c a || contains c b.
Proof.
  induction a as [|d a IH]; simpl; [reflexivity|].
  now rewrite IH, orb_assoc.
Qed.

Lemma no_newline_app (a b : string) :
  no_newline (a ++ b) = no_newline a && no_newline b.
Proof. unfold no_newline. now rewrite contains_app, negb_orb. Qed.

Lemma split_without_sep (sep : ascii) (s : string) :
  contains sep s = false -> split sep s = [s].
Proof.
  induction s as [|c s IH]; simpl; [reflexivity|].
  destruct (Ascii.eqb c sep); simpl; [discriminate|].
  intros H. now rewrite (IH H).
Qed.

Lemma split_app_sep (sep : ascii) (a b : string) :
  contains sep a = false ->
  split sep (a ++ String sep b) = a :: split sep b.
Proof.
  induction a as [|c a IH]; simpl.
  - now rewrite Ascii.eqb_refl.
  - destruct (Ascii.eqb c sep) eqn:Hc; simpl; [discriminate|].
    intros H. now rewrite (IH H).
Qed.

(** Joining lines that hold no newline and splitting the text again gives
    the lines back. *)
Lemma split_join_lines (ls : list string) :
  ls <> [] ->
  forallb no_newline ls = true ->
  split newline (join (chr newline) ls) = ls.
Proof.
  induction ls as [|l ls IH]; [congruence|]. intros _ Hall.
  simpl in Hall. apply andb_true_iff in Hall as [Hl Hls].
  unfold no_newline in Hl. apply negb_true_iff in Hl.
  destruct ls as [|l' ls].
  - simpl. now apply split_without_sep.
  - change (join (chr newline) (l :: l' :: ls))
      with (l ++ String newline (join (chr newline) (l' :: ls))).
    rewrite split_app_sep by assumption.
    now rewrite IH.
Qed.

Lemma no_newline_join (sep : string) (parts : list string) :
  no_newline sep = true ->
  forallb no_newline parts = true ->
  no_newline (join sep parts) = true.
Proof.
  intros Hsep. induction parts as [|p parts IH]; [reflexivity|].
  intros Hall. simpl in Hall. apply andb_true_iff in Hall as [Hp Hparts].
  destruct parts as [|q parts]; [exact Hp|].
  change (join sep (p :: q :: parts)) with (p ++ sep ++ join sep (q :: parts)).
  rewrite !no_newline_app, Hp, Hsep. now apply IH.
Qed.

Lemma no_newline_spaces (n : Z) : no_newline (spaces n) = true.
Proof.
  unfold spaces. induction (Z.to_nat n) as [|k IH]; [reflexivity|exact IH].
Qed.

Lemma no_newline_uint (d : Decimal.uint) :
  no_newline (NilEmpty.string_of_uint d) = true.
Proof. induction d; simpl; auto. Qed.

Lemma no_newline_str_int (z : Z) : no_newline (str_int z) = true.
Proof.
  unfold str_int, NilZero.string_of_int, NilZero.string_of_uint.
  destruct (Z.to_int z) as [d|d]; destruct d; try reflexivity;
    match goal with
    | |- no_newline (String "-" (NilEmpty.string_of_uint ?u)) = true =>
        exact (no_newline_uint u)
    | |- no_newline (NilEmpty.string_of_uint ?u) = true =>
        exact (no_newline_uint u)
    end.
Qed.

Lemma no_newline_format_primitive (v : Value) :
  cell_ok v = true -> no_newline (Parser._format_primitive v) = true.
Proof.
  destruct v as [|b|z|text|s|items|elems]; simpl; try discriminate; auto.
  - now destruct b.
  - intros _. apply no_newline_str_int.
  - intros Hs. destruct (Parser._needs_quotes s); [|assumption].
    change (String dquote (s ++ chr dquote))
      with (chr dquote ++ s ++ chr dquote).
    now rewrite !no_newline_app, Hs.
Qed.

Lemma dict_get_In (k : string) (d : dict) (v : Value) :
  dict_get k d = Some v -> exists k', In (k', v) d.
Proof.
  induction d as [|[k' w] d IH]; simpl; [discriminate|].
  destruct (String.eqb k' k).
  - intros [= <-]. exists k'. now left.
  - intros H. destruct (IH H) as [k'' Hin]. exists k''. now right.
Qed.

Lemma no_newline_row_cells (ks : list string) (item : Value) :
  row_ok item = true ->
  forallb no_newline (Parser.row_cells ks item) = true.
Proof.
  destruct item as [| | | | |d|]; try discriminate. simpl. intros Hrow.
  rewrite forallb_forall in Hrow. apply forallb_forall.
  intros cell Hcell. apply in_map_iff in Hcell as [k [<- _]].
  destruct (dict_get k d) as [v|] eqn:Hget; [|reflexivity].
  apply dict_get_In in Hget as [k' Hin].
  apply Hrow in Hin. apply andb_true_iff in Hin as [_ Hv].
  now apply no_newline_format_primitive.
Qed.

(** C7, as stated, fails: a table of one row whose cell is a string of two
    lines is written on 4 lines, not on 2 + 1; toon_parser.py quotes such a
    string and leaves its newline as it is. *)
Lemma tabular_array_of_one_row_on_four_lines :
  split newline (Parser.encode_to_toon two_line_cell ToonEncodeOptions.default)
  = ["t [1,]"; "  a"; String " " (String " " (String dquote "x"));
     String "y" (chr dquote)]
  /\ List.length
       (split newline
          (Parser.encode_to_toon two_line_cell ToonEncodeOptions.default))
     <> 2 + 1.
Proof. split; [reflexivity|discriminate]. Qed.

(** C7, amended.  Let an array of N >= 1 dicts with the key set of the
    first one stand under a key, where the key, the delimiter and the
    column names hold no newline and every cell is a scalar whose text
    holds none.  Then encode_to_toon writes it on exactly 2 + N lines,
    whatever the number of keys: the header key [N<delimiter>] (with # before
    N under length_marker), the line of column names, and one line for each
    element. *)
Theorem tabular_array_line_count :
  forall options key first rest,
    let arr := VObj first :: rest in
    let text :=
      Parser.encode_to_toon (VObj [(key, VArr arr)]) options in
    Parser.uniform first arr = true ->
    no_newline key = true ->
    no_newline (ToonEncodeOptions.delimiter options) = true ->
    forallb row_ok arr = true ->
    List.length (split newline text) = 2 + List.length arr
    /\ exists rows,
         split newline text
         = (key ++ " [" ++ Parser.length_prefix options
              ++ str_nat (List.length arr)
              ++ ToonEncodeOptions.delimiter options ++ "]")
           :: (spaces (ToonEncodeOptions.indent options)
                 ++ join (ToonEncodeOptions.delimiter options) (keys first))
           :: rows
         /\ List.length rows = List.length arr.
Proof.
  intros options key first rest arr text Huniform Hkey Hdelim Hrows.
  assert (Hlines :
            Parser.format_value options (VObj [(key, VArr arr)]) 0
            = Parser.tabular_lines options "" key first arr).
  { subst arr. cbn [Parser.format_value].
    rewrite Huniform, Z.mul_0_r, app_nil_r. reflexivity. }
  assert (Hsplit :
            split newline text = Parser.tabular_lines options "" key first arr).
  { subst text. unfold Parser.encode_to_toon. rewrite Hlines.
    apply split_join_lines; [discriminate|].
    unfold Parser.tabular_lines.
    assert (Hfirst : row_ok (VObj first) = true).
    { subst arr. simpl in Hrows. now apply andb_true_iff in Hrows as [H _]. }
    cbn [forallb]. rewrite !andb_true_iff. repeat split.
    - rewrite !no_newline_app, Hkey, Hdelim.
      unfold str_nat. rewrite no_newline_str_int.
      unfold Parser.length_prefix.
      now destruct (ToonEncodeOptions.length_marker options).
    - rewrite !no_newline_app. cbn [append].
      rewrite no_newline_spaces. apply no_newline_join; [assumption|].
      simpl in Hfirst. unfold keys. rewrite forallb_forall in Hfirst.
      apply forallb_forall. intros k Hk.
      apply in_map_iff in Hk as [kv [<- Hin]].
      apply Hfirst in Hin. now apply andb_true_iff in Hin as [H _].
    - apply forallb_forall. intros l Hl.
      apply in_map_iff in Hl as [item [<- Hin]].
      rewrite forallb_forall in Hrows.
      rewrite !no_newline_app. cbn [append].
      rewrite no_newline_spaces. apply no_newline_join; [assumption|].
      apply no_newline_row_cells. now apply Hrows. }
  rewrite Hsplit. unfold Parser.tabular_lines. split.
  - simpl. now rewrite length_map.
  - eexists. split; [reflexivity|]. now rewrite length_map.
Qed.

Lemma tabular_array_line_count_witness :
  List.length
    (split newline
       (Parser.encode_to_toon (VObj [("users", VArr [alice; bob; carol])])
          ToonEncodeOptions.default))
  = 2 + 3.
Proof.
  apply (tabular_array_line_count ToonEncodeOptions.default "users"
           [("id", VInt 1); ("name", VStr "Alice")] [bob; carol]);
    reflexivity.
Defined.

(** ** C9: capitalised literals in the validator *)

Section ValidatorFacts.
Import Validator.
Variable level : ValidationLevel.
Variable indent : Z.







End ValidatorFacts.



(** ** toon_parser-old.py on the same inputs *)

(** The tabular parser of toon_parser-old.py counts the rows against the
    header and compares the shape of each row, and does not read
    self.strict: it raises on the table of 2 rows that declares 3, and on
    the row of one cell (with the 1-based number of its line), in lenient
    mode as in strict mode. *)
Lemma old_tabular_parser_raises :
  OldParser._parse_tabular_array
    ["users [3,]"; "  id, name"; "  1, Alice"; "  2, Bob"] 1 0 3 ","
  = OldParser.Raise (OldParser.ToonParseError (OldParser.FewerRows 3) 4)
  /\ OldParser._parse_tabular_array
       ["users [3,]"; "  id, name"; "  1, Alice"; "  2"; "  3, Carol"]
       1 0 3 ","
     = OldParser.Raise
         (OldParser.ToonParseError (OldParser.RowShape 2 1 2) 4).
Proof. split; reflexivity. Qed.

(** Its decoder takes a line for an entry only when a ':' occurs in it: the
    header of an array as its encoder writes it (items [0], users [3,]) is
    passed over with the lines of the array, in either mode. *)
Lemma old_decoder_passes_over_array_headers (self : OldParser.ToonParser) :
  OldParser.indent self = 2%Z ->
  OldParser.decode self 2 "items [0]" = Some (OldParser.Ok (VObj []))
  /\ OldParser.decode self 5 short_table = Some (OldParser.Ok (VObj [])).
Proof.
  intros Hindent. unfold OldParser.decode, OldParser._parse_lines.
  destruct self as [strict indent delimiter]. simpl in Hindent. subst indent.
  destruct strict; split; reflexivity.
Qed.

(* ------------------------------------------------------------------ *)
(** * Further properties of the code *)

(** ** Numbers and their texts *)

Lemma digits_value_uint (d : Decimal.uint) :
  forall acc, digits_value acc (NilEmpty.string_of_uint d) = uint_value acc d.
Proof.
  induction d; intros acc;
    cbn [NilEmpty.string_of_uint digits_value uint_value]; try reflexivity;
    rewrite IHd; f_equal;
    match goal with |- context [digit_value ?c] =>
      let v := eval vm_compute in (digit_value c) in
      change (digit_value c) with v
    end; lia.
Qed.

Lemma of_uint_acc_value (d : Decimal.uint) :
  forall acc, Z.pos (Pos.of_uint_acc d acc) = uint_value (Z.pos acc) d.
Proof.
  induction d; intros acc; cbn [Pos.of_uint_acc uint_value];
    try reflexivity; rewrite IHd; f_equal; lia.
Qed.

Lemma of_uint_value (d : Decimal.uint) :
  Z.of_N (Pos.of_uint d) = uint_value 0 d.
Proof.
  induction d; cbn [Pos.of_uint uint_value Z.of_N]; try reflexivity;
    try assumption; apply of_uint_acc_value.
Qed.

Lemma all_decimal_uint (d : Decimal.uint) :
  all_chars isdecimal (NilEmpty.string_of_uint d) = true.
Proof. induction d; simpl; auto. Qed.

Lemma uint_text_not_empty (d : Decimal.uint) :
  d <> Decimal.Nil -> is_empty (NilEmpty.string_of_uint d) = false.
Proof. destruct d; simpl; congruence. Qed.

(** str(z) is an optional '-' and the decimal digits of |z|. *)
Lemma str_int_shape (z : Z) :
  exists ds,
    all_chars isdecimal ds = true /\ is_empty ds = false
    /\ digits_value 0 ds = Z.abs z
    /\ str_int z = if (z <? 0)%Z then String "-" ds else ds.
Proof.
  unfold str_int, NilZero.string_of_int, NilZero.string_of_uint.
  destruct z as [|p|p]; simpl.
  - exists "0". repeat split.
  - exists (NilEmpty.string_of_uint (Pos.to_uint p)).
    pose proof (DecimalPos.Unsigned.to_uint_nonnil p) as Hnil.
    split; [apply all_decimal_uint|]. split; [now apply uint_text_not_empty|].
    split.
    + rewrite digits_value_uint, <- of_uint_value, DecimalPos.Unsigned.of_to.
      reflexivity.
    + destruct (Pos.to_uint p); congruence.
  - exists (NilEmpty.string_of_uint (Pos.to_uint p)).
    pose proof (DecimalPos.Unsigned.to_uint_nonnil p) as Hnil.
    split; [apply all_decimal_uint|]. split; [now apply uint_text_not_empty|].
    split.
    + rewrite digits_value_uint, <- of_uint_value, DecimalPos.Unsigned.of_to.
      reflexivity.
    + destruct (Pos.to_uint p); congruence.
Qed.

(** ** Stripping *)

Lemma all_chars_impl (p q : ascii -> bool) (s : string) :
  (forall c, p c = true -> q c = true) ->
  all_chars p s = true -> all_chars q s = true.
Proof.
  intros Hpq. induction s as [|c s IH]; simpl; [reflexivity|].
  intros H. apply andb_true_iff in H as [Hc Hs].
  now rewrite (Hpq c Hc), IH.
Qed.

Lemma last_default (l : list ascii) (x d d' : ascii) :
  List.last (x :: l) d = List.last (x :: l) d'.
Proof.
  revert x. induction l as [|y l IH]; intros x; [reflexivity|].
  change (List.last (y :: l) d = List.last (y :: l) d'). apply IH.
Qed.

Lemma last_char_cons (a b : ascii) (s : string) :
  last_char (String a (String b s)) = last_char (String b s).
Proof.
  unfold last_char. simpl list_ascii_of_string. cbv iota beta.
  f_equal. destruct (list_ascii_of_string s) as [|y l]; [reflexivity|].
  change (List.last (y :: l) a = List.last (y :: l) b). apply last_default.
Qed.

Lemma rstrip_by_last (p : ascii -> bool) (s : string) (c : ascii) :
  last_char s = Some c -> p c = false -> rstrip_by p s = s.
Proof.
  induction s as [|a s IH]; [discriminate|].
  destruct s as [|b s].
  - intros [= <-] Hp. simpl. now rewrite Hp.
  - rewrite last_char_cons. intros Hl Hp.
    change (rstrip_by p (String a (String b s)))
      with (match rstrip_by p (String b s) with
            | EmptyString => if p a then EmptyString else String a EmptyString
            | r => String a r
            end).
    now rewrite (IH Hl Hp).
Qed.

(** A string that neither starts nor ends with a character of the class is
    left as it is. *)
Lemma strip_by_id (p : ascii -> bool) (c0 : ascii) (r : string) (cl : ascii) :
  p c0 = false -> last_char (String c0 r) = Some cl -> p cl = false ->
  rstrip_by p (lstrip_by p (String c0 r)) = String c0 r.
Proof.
  intros H0 Hl Hcl. simpl lstrip_by. rewrite H0.
  now apply (rstrip_by_last p _ cl).
Qed.

Lemma isspace_number_isspace (c : ascii) :
  isspace c = false -> isspace_number c = false.
Proof.
  destruct c as [[] [] [] [] [] [] [] []]; vm_compute; congruence.
Qed.

Lemma list_ascii_app (a b : string) :
  list_ascii_of_string (a ++ b)
  = List.app (list_ascii_of_string a) (list_ascii_of_string b).
Proof. induction a as [|c a IH]; simpl; [reflexivity|now rewrite IH]. Qed.

Lemma last_char_app_chr (s : string) (c : ascii) :
  last_char (s ++ chr c) = Some c.
Proof.
  unfold last_char. rewrite list_ascii_app. simpl.
  destruct (list_ascii_of_string s) as [|a l]; [reflexivity|].
  simpl List.app. cbv iota beta. f_equal. apply List.last_last.
Qed.

Lemma last_char_quoted (s : string) : last_char (quoted s) = Some dquote.
Proof.
  unfold quoted.
  change (String dquote (s ++ chr dquote))
    with ((String dquote s) ++ chr dquote).
  apply last_char_app_chr.
Qed.

Lemma slice_quoted (s : string) : slice_1_m1 (quoted s) = s.
Proof.
  unfold quoted, slice_1_m1. rewrite list_ascii_app. simpl.
  rewrite List.removelast_last. apply string_of_list_ascii_of_string.
Qed.

Lemma strip_quoted (s : string) : strip (quoted s) = quoted s.
Proof.
  unfold strip, rstrip, lstrip, quoted.
  apply (strip_by_id isspace _ _ dquote); [reflexivity| |reflexivity].
  apply last_char_quoted.
Qed.

(** ** Decimal digits *)

Lemma isdecimal_cases (c : ascii) :
  isdecimal c = true ->
  In c ["0"; "1"; "2"; "3"; "4"; "5"; "6"; "7"; "8"; "9"]%char.
Proof.
  destruct c as [[] [] [] [] [] [] [] []]; vm_compute; intros H;
    try discriminate; tauto.
Qed.

Ltac decimal_cases c H :=
  apply isdecimal_cases in H; simpl in H;
  repeat (destruct H as [H|H]; [subst c|]); [..|contradiction].

Lemma split_sign_other (c : ascii) (r : string) :
  c <> "+"%char -> c <> "-"%char ->
  split_sign (String c r) = (false, String c r).
Proof.
  destruct c as [[] [] [] [] [] [] [] []]; intros H1 H2;
    try reflexivity; congruence.
Qed.

Lemma underscores_ok_from_prev (p1 p2 : ascii) (s : string) :
  Ascii.eqb p1 "_" = false -> Ascii.eqb p2 "_" = false ->
  isdecimal p1 = false -> isdecimal p2 = false ->
  underscores_ok_from p1 s = underscores_ok_from p2 s.
Proof.
  intros H1 H2 D1 D2. destruct s as [|c s]; simpl.
  - now rewrite H1, H2.
  - now rewrite H1, H2, D1, D2.
Qed.

Lemma underscores_ok_decimal (s : string) :
  all_chars isdecimal s = true ->
  forall prev, Ascii.eqb prev "_" = false ->
               underscores_ok_from prev s = true.
Proof.
  induction s as [|c s IH]; simpl; intros Hall prev Hprev.
  - now rewrite Hprev.
  - apply andb_true_iff in Hall as [Hc Hs].
    assert (Hu : Ascii.eqb c "_" = false)
      by (decimal_cases c Hc; reflexivity).
    rewrite Hu, Hprev. simpl. now apply IH.
Qed.

Lemma remove_underscores_decimal (s : string) :
  all_chars isdecimal s = true -> remove_underscores s = s.
Proof.
  induction s as [|c s IH]; simpl; [reflexivity|]. intros Hall.
  apply andb_true_iff in Hall as [Hc Hs].
  assert (Hu : Ascii.eqb c "_" = false)
    by (decimal_cases c Hc; reflexivity).
  now rewrite Hu, IH.
Qed.

Lemma skip_digits_decimal (s : string) :
  all_chars isdecimal s = true -> skip_digits s = (String.length s, "").
Proof.
  induction s as [|c s IH]; simpl; [reflexivity|]. intros Hall.
  apply andb_true_iff in Hall as [Hc Hs]. now rewrite Hc, IH.
Qed.

(** A run of decimal digits is a literal of float. *)
Lemma float_digits (c : ascii) (ds : string) :
  all_chars isdecimal (String c ds) = true ->
  (let b := String c ds in
   let w := lower b in
   if String.eqb w "inf" || String.eqb w "infinity" || String.eqb w "nan"
   then true
   else
     let (n1, r1) := skip_digits b in
     let (n2, r2) := match r1 with
                     | String "." r => skip_digits r
                     | _ => (0, r1)
                     end in
     (0 <? n1 + n2)%nat && exponent_ok r2) = true.
Proof.
  intros Hall. cbv zeta. rewrite (skip_digits_decimal _ Hall).
  simpl in Hall. apply andb_true_iff in Hall as [Hc _].
  assert (Hw : String.eqb (lower (String c ds)) "inf"
               || String.eqb (lower (String c ds)) "infinity"
               || String.eqb (lower (String c ds)) "nan" = false)
    by (decimal_cases c Hc; reflexivity).
  rewrite Hw. reflexivity.
Qed.

(** What int accepts: a literal of float that, stripped, starts with a
    decimal digit or a sign. *)
Lemma int_some_shape (s : string) (z : Z) :
  int s = Some z ->
  float_ok s = true
  /\ exists c r, strip_number s = String c r
                 /\ (isdecimal c = true \/ c = "+"%char \/ c = "-"%char).
Proof.
  unfold int, float_ok.
  destruct (strip_number s) as [|c r] eqn:Hb; [discriminate|].
  assert (Hsign : forall sg : ascii,
             Ascii.eqb sg "_" = false -> isdecimal sg = false ->
             underscores_ok r = true ->
             negb (is_empty (remove_underscores r))
             && all_chars isdecimal (remove_underscores r) = true ->
             split_sign (String sg (remove_underscores r))
             = (false, remove_underscores r)
               \/ split_sign (String sg (remove_underscores r))
                  = (true, remove_underscores r) ->
             (if underscores_ok (String sg r)
              then
                let b := snd (split_sign (remove_underscores (String sg r))) in
                let w := lower b in
                if String.eqb w "inf" || String.eqb w "infinity"
                   || String.eqb w "nan"
                then true
                else
                  let (n1, r1) := skip_digits b in
                  let (n2, r2) := match r1 with
                                  | String "." r => skip_digits r
                                  | _ => (0, r1)
                                  end in
                  (0 <? n1 + n2)%nat && exponent_ok r2
              else false) = true).
  { intros sg Hsg Hdec Hu Hds Hsplit.
    assert (Hu' : underscores_ok (String sg r) = true).
    { unfold underscores_ok in *. simpl. rewrite Hsg. simpl.
      rewrite (underscores_ok_from_prev sg "000" r); auto. }
    rewrite Hu'. simpl remove_underscores. rewrite Hsg.
    assert (Hsnd : snd (split_sign (String sg (remove_underscores r)))
                   = remove_underscores r)
      by (destruct Hsplit as [-> | ->]; reflexivity).
    rewrite Hsnd.
    apply andb_true_iff in Hds as [Hne Hall].
    destruct (remove_underscores r) as [|d ds]; [discriminate|].
    now apply float_digits. }
  destruct (Ascii.eqb_spec c "+") as [->|Hplus];
    [|destruct (Ascii.eqb_spec c "-") as [->|Hminus]].
  - simpl split_sign. cbv iota beta.
    destruct (underscores_ok r) eqn:Hu; [|discriminate].
    destruct (negb (is_empty (remove_underscores r))
              && all_chars isdecimal (remove_underscores r)) eqn:Hds;
      [|discriminate].
    intros _. split; [|exists "+"%char, r; auto].
    apply Hsign; auto.
  - simpl split_sign. cbv iota beta.
    destruct (underscores_ok r) eqn:Hu; [|discriminate].
    destruct (negb (is_empty (remove_underscores r))
              && all_chars isdecimal (remove_underscores r)) eqn:Hds;
      [|discriminate].
    intros _. split; [|exists "-"%char, r; auto].
    apply Hsign; auto.
  - rewrite (split_sign_other c r Hplus Hminus).
    destruct (underscores_ok (String c r)) eqn:Hu; [|discriminate].
    destruct (negb (is_empty (remove_underscores (String c r)))
              && all_chars isdecimal (remove_underscores (String c r)))
      eqn:Hds; [|discriminate].
    intros _.
    assert (Hc : Ascii.eqb c "_" = false).
    { unfold underscores_ok in Hu. simpl in Hu.
      destruct (Ascii.eqb c "_"); [discriminate|reflexivity]. }
    simpl remove_underscores in *. rewrite Hc in *.
    apply andb_true_iff in Hds as [_ Hall].
    split.
    + assert (Hcd : isdecimal c = true)
        by (simpl in Hall; now apply andb_true_iff in Hall as [? _]).
      assert (Hss : split_sign (String c (remove_underscores r))
                    = (false, String c (remove_underscores r)))
        by (apply split_sign_other; assumption).
      rewrite Hss. simpl snd. now apply float_digits.
    + exists c, r. split; [reflexivity|]. left.
      simpl in Hall. now apply andb_true_iff in Hall as [? _].
Qed.

(** ** Scalars of toon_parser.py, there and back *)

Lemma contains_decimal (c : ascii) (s : string) :
  isdecimal c = false -> all_chars isdecimal s = true -> contains c s = false.
Proof.
  intros Hc. induction s as [|d s IH]; simpl; [reflexivity|]. intros Hall.
  apply andb_true_iff in Hall as [Hd Hs].
  destruct (Ascii.eqb_spec d c) as [->|_]; [congruence|]. now apply IH.
Qed.

Lemma last_char_decimal (s : string) :
  all_chars isdecimal s = true -> is_empty s = false ->
  exists c, last_char s = Some c /\ isdecimal c = true.
Proof.
  induction s as [|a s IH]; [discriminate|]. intros Hall _.
  simpl in Hall. apply andb_true_iff in Hall as [Ha Hs].
  destruct s as [|b s].
  - exists a. now split.
  - rewrite last_char_cons. now apply IH.
Qed.

Lemma isdecimal_not_space (c : ascii) :
  isdecimal c = true -> isspace c = false.
Proof. intros H. decimal_cases c H; reflexivity. Qed.

(** int reads str(z) as z. *)
Lemma int_str_int (z : Z) : int (str_int z) = Some z.
Proof.
  destruct (str_int_shape z) as [ds [Hall [Hne [Hval Hstr]]]].
  rewrite Hstr. destruct ds as [|d ds]; [discriminate|].
  destruct (last_char_decimal _ Hall eq_refl) as [cl [Hl Hcl]].
  assert (Hd : isdecimal d = true)
    by (simpl in Hall; now apply andb_true_iff in Hall as [? _]).
  assert (Htail : underscores_ok (String d ds) = true)
    by (apply underscores_ok_decimal; [assumption|reflexivity]).
  unfold int.
  destruct (z <? 0)%Z eqn:Hz.
  - assert (Hs : strip_number (String "-" (String d ds))
                 = String "-" (String d ds)).
    { unfold strip_number.
      apply (strip_by_id isspace_number _ _ cl); [reflexivity| |].
      - now rewrite last_char_cons.
      - apply isspace_number_isspace. now apply isdecimal_not_space. }
    rewrite Hs. simpl split_sign. cbv iota beta.
    rewrite Htail, (remove_underscores_decimal _ Hall), Hall, Hval.
    cbn [is_empty negb andb]. f_equal. apply Z.ltb_lt in Hz. lia.
  - assert (Hs : strip_number (String d ds) = String d ds).
    { unfold strip_number.
      apply (strip_by_id isspace_number _ _ cl); [|assumption|].
      - apply isspace_number_isspace. now apply isdecimal_not_space.
      - apply isspace_number_isspace. now apply isdecimal_not_space. }
    rewrite Hs.
    assert (Hss : split_sign (String d ds) = (false, String d ds))
      by (apply split_sign_other; intros ->; discriminate).
    rewrite Hss, Htail, (remove_underscores_decimal _ Hall), Hall, Hval.
    cbn [is_empty negb andb]. f_equal. apply Z.ltb_ge in Hz. lia.
Qed.

Lemma _parse_primitive_str_int (z : Z) :
  Parser._parse_primitive (str_int z) = VInt z.
Proof.
  pose proof (int_str_int z) as Hint.
  destruct (str_int_shape z) as [ds [Hall [Hne [_ Hstr]]]].
  destruct ds as [|d ds]; [discriminate|].
  destruct (last_char_decimal _ Hall eq_refl) as [cl [Hl Hcl]].
  assert (Hd : isdecimal d = true)
    by (simpl in Hall; now apply andb_true_iff in Hall as [? _]).
  assert (Hdot : contains "." (String d ds) = false)
    by (now apply contains_decimal).
  unfold Parser._parse_primitive, Parser.parse_number.
  destruct (z <? 0)%Z.
  - assert (Hs : strip (str_int z) = str_int z).
    { rewrite Hstr. unfold strip, rstrip, lstrip.
      apply (strip_by_id isspace _ _ cl); [reflexivity| |].
      - now rewrite last_char_cons.
      - now apply isdecimal_not_space. }
    rewrite Hs, Hint. rewrite Hstr.
    change (contains "." (String "-" (String d ds)))
      with (contains "." (String d ds)).
    rewrite Hdot. reflexivity.
  - assert (Hs : strip (str_int z) = str_int z).
    { rewrite Hstr. unfold strip, rstrip, lstrip.
      apply (strip_by_id isspace _ _ cl); [|assumption|].
      - now apply isdecimal_not_space.
      - now apply isdecimal_not_space. }
    rewrite Hs, Hint. rewrite Hstr. rewrite Hdot.
    decimal_cases d Hd; reflexivity.
Qed.

Lemma _parse_primitive_quoted (s : string) :
  Parser._parse_primitive (quoted s) = VStr s.
Proof.
  unfold Parser._parse_primitive. rewrite strip_quoted.
  unfold ends_char. rewrite last_char_quoted, slice_quoted. reflexivity.
Qed.

(** What a string that is written bare looks like. *)
Lemma _needs_quotes_false (s : string) :
  Parser._needs_quotes s = false ->
  exists c0 r cl,
    s = String c0 r
    /\ String.eqb s "true" = false /\ String.eqb s "false" = false
    /\ String.eqb s "null" = false
    /\ (isdigit_char c0 || Ascii.eqb c0 "+" || Ascii.eqb c0 "-")
       && float_ok s = false
    /\ isspace c0 = false
    /\ last_char s = Some cl /\ isspace cl = false
    /\ no_newline s = true.
Proof.
  destruct s as [|c0 r]; [discriminate|].
  cbv beta iota delta [Parser._needs_quotes].
  remember (String c0 r) as v eqn:Hv.
  destruct (String.eqb v "true") eqn:H1; [discriminate|].
  destruct (String.eqb v "false") eqn:H2; [discriminate|].
  destruct (String.eqb v "null") eqn:H3; [discriminate|].
  simpl orb. cbv iota.
  destruct ((isdigit_char c0 || Ascii.eqb c0 "+" || Ascii.eqb c0 "-")
            && float_ok v) eqn:H4; [discriminate|].
  destruct (isspace c0) eqn:H5; [discriminate|]. simpl orb.
  destruct (last_char v) as [cl|] eqn:H6;
    [|subst v; unfold last_char in H6; simpl in H6; discriminate].
  destruct (isspace cl) eqn:H7; [discriminate|].
  intros Hany. exists c0, r, cl. repeat split; auto.
  unfold no_newline. apply negb_true_iff.
  unfold contains_any in Hany. simpl in Hany.
  repeat (apply orb_false_iff in Hany as [? Hany]). assumption.
Qed.

(** A bare string is read back as a number only when it holds a point. *)
Lemma bare_string_no_int (s : string) :
  Parser._needs_quotes s = false -> int s = None.
Proof.
  intros Hq. destruct (int s) as [z|] eqn:Hint; [|reflexivity].
  exfalso.
  destruct (_needs_quotes_false s Hq)
    as [c0 [r [cl [Hs [_ [_ [_ [Hnum [Hc0 [Hl [Hcl _]]]]]]]]]]].
  destruct (int_some_shape s z Hint) as [Hf [c [r' [Hstrip Hc]]]].
  assert (Hid : strip_number s = s).
  { rewrite Hs. unfold strip_number.
    apply (strip_by_id isspace_number _ _ cl).
    - now apply isspace_number_isspace.
    - now rewrite <- Hs.
    - now apply isspace_number_isspace. }
  rewrite Hid, Hs in Hstrip. injection Hstrip as <- <-.
  rewrite Hf, andb_true_r in Hnum.
  destruct Hc as [Hc|[->| ->]]; try discriminate.
  unfold isdigit_char in Hnum. now rewrite Hc in Hnum.
Qed.

Lemma strip_bare (s : string) :
  Parser._needs_quotes s = false -> strip s = s.
Proof.
  intros Hq.
  destruct (_needs_quotes_false s Hq)
    as [c0 [r [cl [Hs [_ [_ [_ [_ [Hc0 [Hl [Hcl _]]]]]]]]]]].
  rewrite Hs in *. unfold strip, rstrip, lstrip.
  now apply (strip_by_id isspace _ _ cl).
Qed.

Lemma length_string_of_list (l : list ascii) :
  String.length (string_of_list_ascii l) = List.length l.
Proof. induction l as [|c l IH]; simpl; [reflexivity|now rewrite IH]. Qed.

Lemma length_list_of_string (s : string) :
  List.length (list_ascii_of_string s) = String.length s.
Proof. induction s as [|c s IH]; simpl; [reflexivity|now rewrite IH]. Qed.

Lemma removelast_length (l : list ascii) :
  List.length (List.removelast l) <= List.length l.
Proof.
  induction l as [|c l IH]; simpl; [lia|].
  destruct l; simpl in *; lia.
Qed.

Lemma slice_shorter (c : ascii) (r : string) :
  slice_1_m1 (String c r) <> String c r.
Proof.
  intros H. apply (f_equal String.length) in H.
  unfold slice_1_m1 in H. rewrite length_string_of_list in H. simpl in H.
  pose proof (removelast_length (list_ascii_of_string r)) as Hle.
  rewrite length_list_of_string in Hle. lia.
Qed.

(** X1.  null, the booleans and the integers are read back as they were
    written.  (str and int are modelled without the limit that recent
    interpreters set on the number of digits of an int.) *)
Theorem plain_scalars_round_trip :
  Parser._parse_primitive (Parser._format_primitive VNull) = VNull
  /\ (forall b, Parser._parse_primitive (Parser._format_primitive (VBool b))
                = VBool b)
  /\ (forall z, Parser._parse_primitive (Parser._format_primitive (VInt z))
                = VInt z).
Proof.
  split; [reflexivity|]. split.
  - intros [|]; reflexivity.
  - intros z. apply _parse_primitive_str_int.
Qed.

(** X2.  A string is read back as it was written exactly when it is written
    in quotes, or is written bare and is neither wrapped in double quotes
    of its own nor a literal of float that holds a point. *)
Theorem string_round_trip_iff (s : string) :
  Parser._parse_primitive (Parser._format_primitive (VStr s)) = VStr s
  <-> Parser._needs_quotes s = true
      \/ (starts_char dquote s && ends_char dquote s = false
          /\ contains "." s && float_ok s = false).
Proof.
  cbn [Parser._format_primitive].
  destruct (Parser._needs_quotes s) eqn:Hq.
  - change (String dquote (s ++ chr dquote)) with (quoted s).
    rewrite _parse_primitive_quoted. split; auto.
  - pose proof (strip_bare s Hq) as Hstrip.
    pose proof (bare_string_no_int s Hq) as Hint.
    destruct (_needs_quotes_false s Hq)
      as [c0 [r [cl [Hs [Ht [Hf [Hn _]]]]]]].
    unfold Parser._parse_primitive, Parser.parse_number.
    rewrite Hstrip, Ht, Hf, Hn, Hint.
    destruct (starts_char dquote s && ends_char dquote s).
    + split.
      * intros [= H]. exfalso. rewrite Hs in H. now apply slice_shorter in H.
      * intros [H|[H _]]; discriminate.
    + destruct (contains "." s); [destruct (float_ok s)|]; simpl; split;
        auto; try discriminate.
      intros [H|[_ H]]; discriminate.
Qed.

Lemma string_round_trip_iff_witness :
  Parser._parse_primitive (Parser._format_primitive (VStr "a b")) = VStr "a b".
Proof.
  apply (proj2 (string_round_trip_iff "a b")). right. split; reflexivity.
Defined.

Lemma rstrip_by_head (p : ascii -> bool) (c : ascii) (r : string) :
  p c = false -> exists r', rstrip_by p (String c r) = String c r'.
Proof.
  intros Hc. simpl. destruct (rstrip_by p r) as [|d r'] eqn:Hr.
  - rewrite Hc. now exists "".
  - now exists (String d r').
Qed.

(** float reads no literal that starts with a double quote. *)
Lemma float_ok_not_quoted (s : string) :
  starts_char dquote s = true -> float_ok s = false.
Proof.
  destruct s as [|c r]; [discriminate|]. unfold starts_char. simpl.
  intros Hc. apply Ascii.eqb_eq in Hc. subst c.
  unfold float_ok, strip_number.
  change (lstrip_by isspace_number (String dquote r)) with (String dquote r).
  destruct (rstrip_by_head isspace_number dquote r eq_refl) as [r' ->].
  destruct (underscores_ok (String dquote r')); [|reflexivity].
  change (remove_underscores (String dquote r'))
    with (String dquote (remove_underscores r')).
  reflexivity.
Qed.

(** X3.  A float whose text is a stripped literal of float is read back as
    a float exactly when a point occurs in the text: the texts 1e+22, inf
    and nan that str prints are read back as strings. *)
Theorem float_round_trip_iff (text : string) :
  float_ok text = true -> strip text = text ->
  (Parser._parse_primitive (Parser._format_primitive (VFloat text))
   = VFloat text
   <-> contains "." text = true).
Proof.
  intros Hf Hstrip. cbn [Parser._format_primitive].
  unfold Parser._parse_primitive, Parser.parse_number. rewrite Hstrip, Hf.
  destruct (starts_char dquote text) eqn:Hq.
  - apply float_ok_not_quoted in Hq. congruence.
  - simpl andb. cbv iota.
    destruct (String.eqb_spec text "null") as [->|_]; [discriminate|].
    destruct (String.eqb_spec text "true") as [->|_]; [discriminate|].
    destruct (String.eqb_spec text "false") as [->|_]; [discriminate|].
    destruct (contains "." text); [split; reflexivity|].
    destruct (int text); simpl; split; discriminate.
Qed.

Lemma float_round_trip_iff_witness :
  (Parser._parse_primitive (Parser._format_primitive (VFloat "1.5"))
   = VFloat "1.5"
   <-> contains "." "1.5" = true)
  /\ (Parser._parse_primitive (Parser._format_primitive (VFloat "1e+22"))
      = VFloat "1e+22"
      <-> contains "." "1e+22" = true).
Proof.
  split.
  - apply (float_round_trip_iff "1.5"); reflexivity.
  - apply (float_round_trip_iff "1e+22"); reflexivity.
Defined.

(** ** Trimmed strings *)

Lemma strip_trimmed (s : string) : trimmed s -> strip s = s.
Proof.
  intros [c0 [r [cl [-> [H0 [Hl Hcl]]]]]]. unfold strip, rstrip, lstrip.
  now apply (strip_by_id isspace _ _ cl).
Qed.

Lemma lstrip_trimmed (s : string) : trimmed s -> lstrip s = s.
Proof.
  intros [c0 [r [cl [-> [H0 _]]]]]. unfold lstrip. simpl. now rewrite H0.
Qed.

Lemma last_char_app (a b : string) :
  b <> "" -> last_char (a ++ b) = last_char b.
Proof.
  intros Hb. induction a as [|c a IH]; [reflexivity|].
  simpl append. destruct (a ++ b) as [|d x] eqn:Hab.
  - destruct a; [simpl in Hab; congruence|discriminate].
  - rewrite last_char_cons. exact IH.
Qed.

Lemma trimmed_app (a sep b : string) :
  trimmed a -> trimmed b -> trimmed (a ++ sep ++ b).
Proof.
  intros [c0 [r [cl [-> [H0 _]]]]] [d0 [q [dl [-> [_ [Hl Hdl]]]]]].
  exists c0, (r ++ sep ++ String d0 q), dl. repeat split; auto.
  change (String c0 (r ++ sep ++ String d0 q))
    with (String c0 r ++ sep ++ String d0 q).
  rewrite !last_char_app; [assumption|discriminate|].
  destruct sep; discriminate.
Qed.

Lemma trimmed_join (sep : string) (ls : list string) :
  ls <> [] -> Forall trimmed ls -> trimmed (join sep ls).
Proof.
  induction ls as [|l ls IH]; [congruence|]. intros _ Hall.
  inversion Hall as [|? ? Hl Hls]; subst.
  destruct ls as [|l' ls]; [exact Hl|].
  change (join sep (l :: l' :: ls)) with (l ++ sep ++ join sep (l' :: ls)).
  apply trimmed_app; [assumption|]. apply IH; [discriminate|assumption].
Qed.

Lemma lstrip_by_length (p : ascii -> bool) (s : string) :
  String.length (lstrip_by p s) <= String.length s.
Proof.
  induction s as [|c s IH]; simpl; [lia|]. destruct (p c); simpl; lia.
Qed.

Lemma rstrip_by_length (p : ascii -> bool) (s : string) :
  String.length (rstrip_by p s) <= String.length s.
Proof.
  induction s as [|c s IH]; simpl; [lia|].
  destruct (rstrip_by p s); [destruct (p c)|]; simpl in *; lia.
Qed.

Lemma rstrip_by_fixed (p : ascii -> bool) (s : string) :
  rstrip_by p s = s -> s <> "" ->
  exists cl, last_char s = Some cl /\ p cl = false.
Proof.
  induction s as [|a s IH]; [congruence|]. intros H _.
  simpl in H. destruct (rstrip_by p s) as [|b x] eqn:Hr.
  - destruct (p a) eqn:Ha; [discriminate|].
    injection H as <-. exists a. now split.
  - injection H as <-. destruct (IH eq_refl) as [cl [Hl Hcl]]; [discriminate|].
    exists cl. split; [|assumption]. now rewrite last_char_cons.
Qed.

(** A string that strip leaves as it is, is empty or trimmed. *)
Lemma strip_fixed (s : string) : strip s = s -> s = "" \/ trimmed s.
Proof.
  intros H. destruct s as [|c0 r]; [now left|]. right.
  unfold strip, rstrip, lstrip in H.
  destruct (isspace c0) eqn:H0.
  - exfalso. apply (f_equal String.length) in H.
    pose proof (rstrip_by_length isspace (lstrip_by isspace (String c0 r))).
    pose proof (lstrip_by_length isspace r).
    simpl in *. rewrite H0 in *. lia.
  - simpl lstrip_by in H. rewrite H0 in H.
    destruct (rstrip_by_fixed isspace _ H) as [cl [Hl Hcl]]; [discriminate|].
    now exists c0, r, cl.
Qed.

(** ** The text of a scalar *)

Lemma trimmed_quoted (s : string) : trimmed (quoted s).
Proof.
  exists dquote, (s ++ chr dquote), dquote. repeat split.
  apply last_char_quoted.
Qed.

Lemma trimmed_str_int (z : Z) : trimmed (str_int z).
Proof.
  destruct (str_int_shape z) as [ds [Hall [Hne [_ Hstr]]]].
  destruct ds as [|d ds]; [discriminate|].
  destruct (last_char_decimal _ Hall eq_refl) as [cl [Hl Hcl]].
  assert (Hd : isdecimal d = true)
    by (simpl in Hall; now apply andb_true_iff in Hall as [? _]).
  rewrite Hstr. destruct (z <? 0)%Z.
  - exists "-"%char, (String d ds), cl. repeat split.
    + now rewrite last_char_cons.
    + now apply isdecimal_not_space.
  - exists d, ds, cl. repeat split; auto using isdecimal_not_space.
Qed.

Lemma trimmed_bare (s : string) :
  Parser._needs_quotes s = false -> trimmed s.
Proof.
  intros Hq.
  destruct (_needs_quotes_false s Hq)
    as [c0 [r [cl [Hs [_ [_ [_ [_ [Hc0 [Hl [Hcl _]]]]]]]]]]].
  now exists c0, r, cl.
Qed.

Lemma _parse_primitive_bare (s : string) :
  Parser._needs_quotes s = false ->
  starts_char dquote s && ends_char dquote s = false ->
  contains "." s && float_ok s = false ->
  Parser._parse_primitive s = VStr s.
Proof.
  intros Hq Hw Hf.
  pose proof (strip_bare s Hq) as Hstrip.
  pose proof (bare_string_no_int s Hq) as Hint.
  destruct (_needs_quotes_false s Hq) as [c0 [r [cl [Hs [Ht [Hfa [Hn _]]]]]]].
  unfold Parser._parse_primitive, Parser.parse_number.
  rewrite Hstrip, Hw, Ht, Hfa, Hn, Hint.
  destruct (contains "." s); [|reflexivity].
  simpl in Hf. now rewrite Hf.
Qed.

Lemma _parse_primitive_float (text : string) :
  float_ok text = true -> strip text = text -> contains "." text = true ->
  Parser._parse_primitive text = VFloat text.
Proof.
  intros Hf Hstrip Hdot.
  unfold Parser._parse_primitive, Parser.parse_number.
  rewrite Hstrip, Hf, Hdot.
  destruct (starts_char dquote text) eqn:Hq.
  - apply float_ok_not_quoted in Hq. congruence.
  - simpl andb. cbv iota.
    destruct (String.eqb_spec text "null") as [->|_]; [discriminate|].
    destruct (String.eqb_spec text "true") as [->|_]; [discriminate|].
    destruct (String.eqb_spec text "false") as [->|_]; [discriminate|].
    reflexivity.
Qed.

(** The text of a line scalar: trimmed, on one line, and read back as the
    scalar. *)
Lemma line_scalar_text (v : Value) :
  line_scalar v = true ->
  trimmed (Parser._format_primitive v)
  /\ no_newline (Parser._format_primitive v) = true
  /\ Parser._parse_primitive (Parser._format_primitive v) = v.
Proof.
  destruct v as [|b|z|text|s|items|elems]; simpl line_scalar;
    try discriminate.
  - intros _. repeat split. now exists "n"%char, "ull", "l"%char.
  - intros _. destruct b; repeat split.
    + now exists "t"%char, "rue", "e"%char.
    + now exists "f"%char, "alse", "e"%char.
  - intros _. cbn [Parser._format_primitive]. split; [|split].
    + apply trimmed_str_int.
    + apply no_newline_str_int.
    + apply _parse_primitive_str_int.
  - intros H. cbn [Parser._format_primitive].
    apply andb_true_iff in H as [H Hnl].
    apply andb_true_iff in H as [H Hdot].
    apply andb_true_iff in H as [Hf Hstrip].
    apply String.eqb_eq in Hstrip.
    split; [|split; [assumption|now apply _parse_primitive_float]].
    destruct (strip_fixed text Hstrip) as [->|Ht]; [discriminate|assumption].
  - intros H. cbn [Parser._format_primitive].
    apply andb_true_iff in H as [Hnl H].
    destruct (Parser._needs_quotes s) eqn:Hq.
    + change (String dquote (s ++ chr dquote)) with (quoted s).
      split; [apply trimmed_quoted|]. split; [|apply _parse_primitive_quoted].
      unfold quoted.
      change (String dquote (s ++ chr dquote))
        with (chr dquote ++ s ++ chr dquote).
      now rewrite !no_newline_app, Hnl.
    + simpl in H. apply andb_true_iff in H as [Hw Hf].
      apply negb_true_iff in Hw, Hf.
      split; [now apply trimmed_bare|]. split; [assumption|].
      now apply _parse_primitive_bare.
Qed.

Lemma partition_app_sep (sep : ascii) (a b : string) :
  contains sep a = false -> partition sep (a ++ String sep b) = (a, b).
Proof.
  induction a as [|c a IH]; simpl.
  - now rewrite Ascii.eqb_refl.
  - destruct (Ascii.eqb c sep); simpl; [discriminate|].
    intros H. now rewrite (IH H).
Qed.

Lemma indent_of_trimmed (s : string) : trimmed s -> indent_of s = 0.
Proof.
  intros H. unfold indent_of. rewrite (lstrip_trimmed s H). lia.
Qed.

Lemma dict_set_new (k : string) (v : Value) (d : dict) :
  ~ In k (keys d) -> dict_set k v d = List.app d [(k, v)].
Proof.
  induction d as [|[k' w] d IH]; simpl; [reflexivity|]. intros Hin.
  destruct (String.eqb_spec k' k) as [->|_]; [tauto|].
  rewrite IH; [reflexivity|tauto].
Qed.

(** The line of an entry, as the loop of decode_from_toon sees it. *)
Lemma entry_line_facts (k : string) (v : Value) :
  line_key k = true -> line_scalar v = true ->
  let line := entry_line (k, v) in
  trimmed line /\ no_newline line = true
  /\ contains ":" line = true /\ startswith "-" line = false
  /\ partition ":" line = (k, String " " (Parser._format_primitive v))
  /\ strip k = k /\ contains "[" k = false.
Proof.
  intros Hk Hv. unfold line_key in Hk.
  apply andb_true_iff in Hk as [Hk Hdash].
  apply andb_true_iff in Hk as [Hk Hnl].
  apply andb_true_iff in Hk as [Hk Hbr].
  apply andb_true_iff in Hk as [Hstrip Hcolon].
  apply String.eqb_eq in Hstrip.
  apply negb_true_iff in Hdash, Hbr, Hcolon.
  destruct (line_scalar_text v Hv) as [Ht [Hfnl _]].
  unfold entry_line. cbn [fst snd].
  set (f := Parser._format_primitive v) in *.
  assert (Hcolon' : trimmed ":") by (now exists ":"%char, "", ":"%char).
  split; [|split; [|split; [|split; [|split; [|split]]]]]; auto.
  - destruct (strip_fixed k Hstrip) as [->|Hkt].
    + change ("" ++ ": " ++ f) with (":" ++ " " ++ f).
      now apply trimmed_app.
    + now apply trimmed_app.
  - change (k ++ ": " ++ f) with (k ++ chr ":" ++ chr " " ++ f).
    now rewrite !no_newline_app, Hnl, Hfnl.
  - rewrite contains_app. simpl. apply orb_true_r.
  - destruct k as [|c0 r]; [reflexivity|].
    unfold startswith in *. cbn [String.prefix append] in *.
    destruct (ascii_dec "-" c0); [|reflexivity].
    exfalso. destruct r; discriminate.
  - change (k ++ ": " ++ f) with (k ++ String ":" (String " " f)).
    now apply partition_app_sep.
Qed.

Lemma strip_after_colon (f : string) : trimmed f -> strip (String " " f) = f.
Proof.
  intros Ht. unfold strip, lstrip.
  change (lstrip_by isspace (String " " f)) with (lstrip_by isspace f).
  apply (strip_trimmed f Ht).
Qed.

(** One turn of the loop on the line of an entry, among lines that are not
    indented: the entry is stored and the loop moves to the next line. *)
Lemma decode_step_entry options lines i result k v :
  line_key k = true -> line_scalar v = true ->
  nth_error lines i = Some (entry_line (k, v)) ->
  (forall j next, nth_error lines j = Some next -> indent_of next = 0) ->
  Parser.decode_step options lines i result
  = Some (Parser.Next (i + 1) (dict_set k v result)).
Proof.
  intros Hk Hv Hline Hflat.
  destruct (entry_line_facts k v Hk Hv)
    as [Ht [_ [Hcolon [Hdash [Hpart [Hstrip Hbr]]]]]].
  destruct (line_scalar_text v Hv) as [Hft [_ Hparse]].
  unfold Parser.decode_step. rewrite Hline.
  rewrite (strip_trimmed _ Ht).
  destruct Ht as [c0 [r [cl [Hshape _]]]].
  rewrite Hshape at 1. cbn [is_empty].
  rewrite Hcolon, Hdash. cbn [negb andb]. rewrite Hpart, Hstrip, Hbr.
  assert (Hnext : match nth_error lines (i + 1) with
                  | Some next =>
                      (indent_of (entry_line (k, v)) <? indent_of next)%nat
                  | None => false
                  end = false).
  { destruct (nth_error lines (i + 1)) as [next|] eqn:Hn; [|reflexivity].
    rewrite (Hflat _ _ Hn). apply Nat.ltb_ge. lia. }
  rewrite Hnext, (strip_after_colon _ Hft), Hparse. reflexivity.
Qed.

Lemma decode_loop_more_fuel options lines :
  forall fuel i result r,
    Parser.decode_loop options fuel lines i result = Some r ->
    forall fuel', fuel <= fuel' ->
                  Parser.decode_loop options fuel' lines i result = Some r.
Proof.
  induction fuel as [|fuel IH]; intros i result r H fuel' Hle;
    [discriminate|].
  destruct fuel' as [|fuel']; [lia|]. simpl in *.
  destruct (Parser.decode_step options lines i result) as [[r'|i' r']|];
    try assumption. apply (IH _ _ _ H). lia.
Qed.

Lemma decode_loop_entries options (items : dict) :
  NoDup (keys items) -> flat_entries items = true ->
  forall post pre,
    items = List.app pre post ->
    Parser.decode_loop options (S (List.length post)) (map entry_line items)
      (List.length pre) pre
    = Some items.
Proof.
  intros Hnd Hall.
  assert (Hflat : forall j next,
             nth_error (map entry_line items) j = Some next ->
             indent_of next = 0).
  { intros j next Hj. apply nth_error_In in Hj. apply in_map_iff in Hj.
    destruct Hj as [[k v] [<- Hin]].
    unfold flat_entries in Hall. rewrite forallb_forall in Hall.
    specialize (Hall _ Hin). cbn [fst snd] in Hall.
    apply andb_true_iff in Hall as [Hk Hv].
    apply indent_of_trimmed. apply (entry_line_facts k v Hk Hv). }
  induction post as [|[k v] post IH]; intros pre Hitems.
  - rewrite app_nil_r in Hitems. subst pre.
    cbn [Parser.decode_loop]. unfold Parser.decode_step.
    assert (Hnone : nth_error (map entry_line items) (List.length items)
                    = None)
      by (apply nth_error_None; rewrite length_map; lia).
    now rewrite Hnone.
  - cbn [Parser.decode_loop List.length].
    assert (Hin : In (k, v) items)
      by (rewrite Hitems; apply in_or_app; right; now left).
    unfold flat_entries in Hall. rewrite forallb_forall in Hall.
    pose proof (Hall _ Hin) as Hkv. cbn [fst snd] in Hkv.
    apply andb_true_iff in Hkv as [Hk Hv].
    assert (Hline : nth_error (map entry_line items) (List.length pre)
                    = Some (entry_line (k, v))).
    { rewrite Hitems, map_app, nth_error_app2; rewrite length_map; [|lia].
      now rewrite Nat.sub_diag. }
    rewrite (decode_step_entry options _ _ pre k v Hk Hv Hline Hflat).
    assert (Hnew : ~ In k (keys pre)).
    { unfold keys in *. rewrite Hitems, map_app in Hnd. simpl in Hnd.
      apply NoDup_remove_2 in Hnd. intros Hc. apply Hnd.
      apply in_or_app. now left. }
    rewrite (dict_set_new k v pre Hnew).
    replace (List.length pre + 1) with (List.length (List.app pre [(k, v)]))
      by (rewrite length_app; reflexivity).
    apply IH.
    now rewrite <- app_assoc.
Qed.

(** The lines format_value writes for an object of scalars at level 0. *)
Lemma format_value_entries options (items : dict) :
  flat_entries items = true ->
  Parser.format_value options (VObj items) 0 = map entry_line items.
Proof.
  intros Hall. cbn [Parser.format_value].
  rewrite Z.mul_0_r. change (spaces 0) with "".
  induction items as [|[k v] items IH]; [reflexivity|].
  unfold flat_entries in Hall. simpl in Hall.
  apply andb_true_iff in Hall as [Hkv Hrest].
  apply andb_true_iff in Hkv as [_ Hv].
  cbn [map]. rewrite <- (IH Hrest).
  destruct v as [|b|z|text|s|its|elems]; try discriminate; reflexivity.
Qed.

(** X4.  An object whose keys are distinct line keys and whose values are
    line scalars is decoded from its encoding as it was, under every
    encode and decode option. *)
Theorem flat_object_round_trip encode_options decode_options items fuel :
  NoDup (keys items) -> flat_entries items = true ->
  List.length items + 2 <= fuel ->
  Parser.decode_from_toon fuel
    (Parser.encode_to_toon (VObj items) encode_options) decode_options
  = Some (VObj items).
Proof.
  intros Hnd Hall Hfuel. unfold Parser.decode_from_toon, Parser.encode_to_toon.
  rewrite (format_value_entries _ items Hall).
  destruct items as [|kv items].
  - destruct fuel as [|[|fuel]]; try (simpl in Hfuel; lia). reflexivity.
  - set (its := kv :: items) in *.
    assert (Hlines : Forall (fun l => trimmed l /\ no_newline l = true)
                       (map entry_line its)).
    { apply Forall_forall. intros l Hl. apply in_map_iff in Hl.
      destruct Hl as [[k v] [<- Hin]].
      unfold flat_entries in Hall. rewrite forallb_forall in Hall.
      specialize (Hall _ Hin). cbn [fst snd] in Hall.
      apply andb_true_iff in Hall as [Hk Hv].
      destruct (entry_line_facts k v Hk Hv) as [Ht [Hn _]]. now split. }
    assert (Hne : map entry_line its <> []) by discriminate.
    rewrite strip_trimmed.
    + rewrite split_join_lines; [|assumption|].
      * rewrite (decode_loop_more_fuel decode_options _
                   (S (List.length its)) 0 [] its); [reflexivity| |lia].
        apply (decode_loop_entries decode_options its Hnd Hall its []).
        reflexivity.
      * apply forallb_forall. intros l Hl.
        rewrite Forall_forall in Hlines. now apply Hlines.
    + apply trimmed_join; [assumption|].
      eapply Forall_impl; [|exact Hlines]. now intros l [? _].
Qed.

Lemma flat_object_round_trip_witness :
  Parser.decode_from_toon 4
    (Parser.encode_to_toon
       (VObj [("name", VStr "Ada: Lovelace"); ("age", VInt 36)])
       ToonEncodeOptions.default)
    ToonDecodeOptions.default
  = Some (VObj [("name", VStr "Ada: Lovelace"); ("age", VInt 36)]).
Proof.
  apply flat_object_round_trip.
  - repeat constructor; simpl; intuition discriminate.
  - reflexivity.
  - simpl. lia.
Defined.

(** ** decode_from_toon: when the loop ends *)








(** ** decode_from_toon: the depth of what it returns *)

Lemma forallb_dict_set (p : Value -> bool) (k : string) (v : Value)
    (d : dict) :
  p v = true -> forallb (fun kv => p (snd kv)) d = true ->
  forallb (fun kv => p (snd kv)) (dict_set k v d) = true.
Proof.
  intros Hv. induction d as [|[k' w] d IH]; simpl.
  - now rewrite Hv.
  - intros H. apply andb_true_iff in H as [Hw Hd].
    destruct (String.eqb k' k); simpl.
    + now rewrite Hv, Hd.
    + now rewrite Hw, IH.
Qed.

Lemma _parse_primitive_scalar (s : string) :
  is_scalar (Parser._parse_primitive s) = true.
Proof.
  unfold Parser._parse_primitive, Parser.parse_number.
  repeat match goal with
         | |- context [if ?b then _ else _] => destruct b
         end; try reflexivity.
  destruct (int _); reflexivity.
Qed.

Lemma nested_object_loop_scalars rest :
  forall i base obj,
    forallb (fun kv => is_scalar (snd kv)) obj = true ->
    forallb (fun kv => is_scalar (snd kv))
      (fst (Parser.nested_object_loop rest i base obj)) = true.
Proof.
  induction rest as [|line rest IH]; intros i base obj Hobj; simpl;
    [assumption|].
  destruct (is_empty (strip line)); [now apply IH|].
  destruct (Z.of_nat (indent_of line) <? base)%Z; [assumption|].
  apply IH. destruct (contains ":" (strip line)); [|assumption].
  destruct (partition ":" (strip line)) as [key value].
  apply forallb_dict_set; [apply _parse_primitive_scalar|assumption].
Qed.

Lemma _parse_nested_object_scalars lines start base options :
  scalar_object
    (VObj (fst (Parser._parse_nested_object lines start base options)))
  = true.
Proof.
  unfold Parser._parse_nested_object.
  pose proof (nested_object_loop_scalars (skipn start lines) start base []
                eq_refl) as H.
  destruct (Parser.nested_object_loop _ _ _ _) as [obj i]. exact H.
Qed.

Lemma row_item_scalars columns :
  forall values item,
    forallb (fun kv => is_scalar (snd kv)) item = true ->
    forallb (fun kv => is_scalar (snd kv))
      (Parser.row_item columns values item) = true.
Proof.
  induction columns as [|c columns IH]; intros [|v values] item Hitem; simpl;
    try assumption.
  apply IH. apply forallb_dict_set; [apply _parse_primitive_scalar|assumption].
Qed.

Lemma forallb_snoc (A : Type) (p : A -> bool) (l : list A) (x : A) :
  forallb p l = true -> p x = true -> forallb p (List.app l [x]) = true.
Proof.
  intros Hl Hx. rewrite forallb_app, Hl. simpl. now rewrite Hx.
Qed.

Lemma tabular_loop_objects rest :
  forall i base columns items,
    forallb scalar_object items = true ->
    forallb scalar_object
      (fst (Parser.tabular_loop rest i base columns items)) = true.
Proof.
  induction rest as [|line rest IH]; intros i base columns items Hitems;
    simpl; [assumption|].
  destruct (is_empty (strip line)); [now apply IH|].
  destruct (Z.of_nat (indent_of line) <? base)%Z; [assumption|].
  apply IH. destruct (_ =? _)%nat; [|assumption].
  apply forallb_snoc; [assumption|]. now apply row_item_scalars.
Qed.

Lemma list_array_loop_objects options lines base :
  forall fuel i items r j,
    forallb scalar_object items = true ->
    Parser.list_array_loop options fuel lines i base items = Some (r, j) ->
    forallb scalar_object r = true.
Proof.
  induction fuel as [|fuel IH]; intros i items r j Hitems; [discriminate|].
  simpl. destruct (nth_error lines i) as [line|];
    [|intros [= <- _]; assumption].
  destruct (is_empty (strip line)); [now apply IH|].
  destruct (Z.of_nat (indent_of line) <? base)%Z;
    [intros [= <- _]; assumption|].
  destruct (startswith "-" (strip line)); [|now apply IH].
  pose proof (_parse_nested_object_scalars lines (i + 1)
                (Z.of_nat (indent_of line) + ToonDecodeOptions.indent options)
                options) as Hobj.
  destruct (Parser._parse_nested_object _ _ _ _) as [item j'].
  apply IH. now apply forallb_snoc.
Qed.

Lemma forallb_scalar_values (vs : list Value) :
  (forall v, In v vs -> is_scalar v = true) -> forallb is_scalar vs = true.
Proof. intros H. now apply forallb_forall. Qed.

Lemma decode_step_entries options lines i result :
  forallb (fun kv => decoded_entry (snd kv)) result = true ->
  match Parser.decode_step options lines i result with
  | Some (Parser.Done r) | Some (Parser.Next _ r) =>
      forallb (fun kv => decoded_entry (snd kv)) r = true
  | None => True
  end.
Proof.
  intros Hres. unfold Parser.decode_step.
  destruct (nth_error lines i) as [line|]; [|assumption].
  destruct (is_empty (strip line)); [assumption|].
  destruct (contains ":" (strip line) && negb (startswith "-" (strip line)));
    [|assumption].
  destruct (partition ":" (strip line)) as [key0 value0].
  match goal with
  | |- context [if ?b then _ else _] => destruct b
  end.
  - pose proof (_parse_nested_object_scalars lines (i + 1)
                  (Z.of_nat (indent_of line)
                   + ToonDecodeOptions.indent options) options) as Hobj.
    destruct (Parser._parse_nested_object _ _ _ _) as [obj j].
    now apply (forallb_dict_set decoded_entry).
  - destruct (contains "[" (strip key0)).
    + destruct (partition "[" (strip key0)) as [ak ai].
      destruct (contains "," _).
      * unfold Parser._parse_tabular_array.
        destruct (skipn (i + 1) lines) as [|header rest].
        -- now apply (forallb_dict_set decoded_entry).
        -- match goal with
           | |- context [Parser.tabular_loop ?rs ?k ?b ?c ?it] =>
               pose proof (tabular_loop_objects rs k b c it eq_refl) as Hit;
               destruct (Parser.tabular_loop rs k b c it) as [items j]
           end.
           apply (forallb_dict_set decoded_entry); [|assumption].
           simpl in *. rewrite Hit. apply orb_true_r.
      * destruct (contains ":" (strip value0)).
        -- apply (forallb_dict_set decoded_entry); [|assumption].
           simpl. apply orb_true_iff. left.
           unfold Parser._parse_primitive_array.
           apply forallb_forall. intros v Hin. apply in_map_iff in Hin.
           destruct Hin as [item [<- _]]. apply _parse_primitive_scalar.
        -- unfold Parser._parse_list_array.
           destruct (Parser.list_array_loop _ _ _ _ _ _) as [[items j]|]
             eqn:Hl; [|exact I].
           apply list_array_loop_objects in Hl; [|reflexivity].
           apply (forallb_dict_set decoded_entry); [|assumption].
           simpl. rewrite Hl. apply orb_true_r.
    + apply (forallb_dict_set decoded_entry); [|assumption].
      pose proof (_parse_primitive_scalar (strip value0)) as Hs.
      destruct (Parser._parse_primitive (strip value0)); try reflexivity;
        discriminate.
Qed.

Lemma decode_loop_entries_shape options lines :
  forall fuel i result r,
    forallb (fun kv => decoded_entry (snd kv)) result = true ->
    Parser.decode_loop options fuel lines i result = Some r ->
    forallb (fun kv => decoded_entry (snd kv)) r = true.
Proof.
  induction fuel as [|fuel IH]; intros i result r Hres; [discriminate|].
  simpl. pose proof (decode_step_entries options lines i result Hres) as Hst.
  destruct (Parser.decode_step options lines i result) as [[r'|i' r']|];
    [intros [= <-]; assumption| |discriminate].
  now apply IH.
Qed.

(** X6.  Whatever decode_from_toon returns is an object whose values are
    scalars, objects of scalars, arrays of scalars or arrays of objects of
    scalars: nothing is decoded at a greater depth. *)
Theorem decode_depth_bound fuel toon_string options result :
  Parser.decode_from_toon fuel toon_string options = Some (VObj result) ->
  forall key value,
    In (key, value) result -> decoded_entry value = true.
Proof.
  unfold Parser.decode_from_toon.
  destruct (Parser.decode_loop _ _ _ _ _) as [r|] eqn:Hr; [|discriminate].
  intros [= <-] key value Hin.
  apply decode_loop_entries_shape in Hr; [|reflexivity].
  rewrite forallb_forall in Hr. apply (Hr (key, value) Hin).
Qed.

Lemma decode_depth_bound_witness :
  decoded_entry (VObj [("b", VInt 1)]) = true.
Proof.
  apply (decode_depth_bound 4 ("a:" ++ nl ++ "  b: 1")
           ToonDecodeOptions.default
           [("a", VObj [("b", VInt 1)]); ("b", VInt 1)] eq_refl "a").
  now left.
Defined.

(** ** toon_parser-old.py: strings, there and back *)

Lemma replace2_skip (c1 c2 : ascii) (new : string) (c : ascii) (s : string) :
  Ascii.eqb c c1 = false ->
  replace2 c1 c2 new (String c s) = String c (replace2 c1 c2 new s).
Proof.
  intros Hc. destruct s as [|d s]; simpl; [reflexivity|].
  now rewrite Hc.
Qed.

Lemma replace2_hit (c1 c2 : ascii) (new s : string) :
  replace2 c1 c2 new (String c1 (String c2 s)) = new ++ replace2 c1 c2 new s.
Proof. simpl. now rewrite !Ascii.eqb_refl. Qed.

Lemma replace2_miss (c1 c2 : ascii) (new : string) (d : ascii) (s : string) :
  Ascii.eqb d c2 = false ->
  replace2 c1 c2 new (String c1 (String d s))
  = String c1 (replace2 c1 c2 new (String d s)).
Proof. intros Hd. simpl. now rewrite Hd, andb_false_r. Qed.

Lemma escape_cons (c : ascii) (s : string) :
  Ascii.eqb c backslash = false ->
  OldParser.escape (String c s)
  = (if Ascii.eqb c dquote then String backslash (chr dquote)
     else if Ascii.eqb c newline then String backslash "n"
     else if Ascii.eqb c tab then String backslash "t"
     else chr c) ++ OldParser.escape s.
Proof.
  intros Hc. unfold OldParser.escape. cbn [replace]. rewrite Hc.
  cbn [replace].
  destruct (Ascii.eqb_spec c dquote) as [->|Hq]; [reflexivity|].
  cbn [replace].
  destruct (Ascii.eqb_spec c newline) as [->|Hn]; [reflexivity|].
  cbn [replace].
  destruct (Ascii.eqb_spec c tab) as [->|Ht]; reflexivity.
Qed.

(** Unescaping undoes escaping on a string that holds no backslash. *)
Lemma unescape_escape (s : string) :
  contains backslash s = false ->
  OldParser.unescape (OldParser.escape s) = s.
Proof.
  induction s as [|c s IH]; [reflexivity|]. simpl contains. intros H.
  apply orb_false_iff in H as [Hc Hs]. rewrite (escape_cons c s Hc).
  specialize (IH Hs). unfold OldParser.unescape in *.
  set (t := OldParser.escape s) in *.
  destruct (Ascii.eqb_spec c dquote) as [->|Hq].
  { cbn [append chr]. rewrite replace2_hit. cbn [append chr].
    rewrite !replace2_skip by reflexivity. now rewrite IH. }
  destruct (Ascii.eqb_spec c newline) as [->|Hn].
  { cbn [append chr].
    rewrite (replace2_miss backslash dquote) by reflexivity.
    rewrite (replace2_skip backslash dquote _ "n") by reflexivity.
    rewrite (replace2_miss backslash backslash) by reflexivity.
    rewrite (replace2_skip backslash backslash _ "n") by reflexivity.
    rewrite replace2_hit. cbn [append chr].
    rewrite replace2_skip by reflexivity. now rewrite IH. }
  destruct (Ascii.eqb_spec c tab) as [->|Ht].
  { cbn [append chr].
    rewrite (replace2_miss backslash dquote) by reflexivity.
    rewrite (replace2_skip backslash dquote _ "t") by reflexivity.
    rewrite (replace2_miss backslash backslash) by reflexivity.
    rewrite (replace2_skip backslash backslash _ "t") by reflexivity.
    rewrite (replace2_miss backslash "n") by reflexivity.
    rewrite (replace2_skip backslash "n" _ "t") by reflexivity.
    rewrite replace2_hit. cbn [append chr]. now rewrite IH. }
  cbn [append chr]. rewrite !replace2_skip by assumption. now rewrite IH.
Qed.

Lemma replace2_length_le (c1 c2 : ascii) (new : string) :
  String.length new <= 2 ->
  forall n s, String.length s <= n ->
              String.length (replace2 c1 c2 new s) <= String.length s.
Proof.
  intros Hnew. induction n as [|n IH]; intros s Hn.
  - destruct s; [simpl; lia|simpl in Hn; lia].
  - destruct s as [|c [|d s]]; simpl; try lia.
    destruct (Ascii.eqb c c1 && Ascii.eqb d c2).
    + rewrite string_length_app.
      assert (H := IH s). simpl in Hn. specialize (H ltac:(lia)). lia.
    + assert (H := IH (String d s)). simpl in Hn, H.
      specialize (H ltac:(lia)). simpl. lia.
Qed.

Lemma unescape_length_le (s : string) :
  String.length (OldParser.unescape s) <= String.length s.
Proof.
  unfold OldParser.unescape.
  repeat (etransitivity;
          [eapply replace2_length_le; [simpl; lia|reflexivity]|]).
  reflexivity.
Qed.

Lemma _parse_value_quoted (body : string) :
  OldParser._parse_value (quoted body) = VStr (OldParser.unescape body).
Proof.
  unfold OldParser._parse_value. rewrite strip_quoted.
  unfold ends_char. rewrite last_char_quoted, slice_quoted. reflexivity.
Qed.

Lemma lower_reserved (s : string) :
  mem (lower s) OldParser.reserved_keywords = false ->
  String.eqb s "null" = false /\ String.eqb s "true" = false
  /\ String.eqb s "false" = false.
Proof.
  intros H. repeat split; apply String.eqb_neq; intros ->; discriminate.
Qed.

(** X7.  A string that holds no backslash is read back by _parse_value as
    _encode_string wrote it exactly when it is written in quotes, or is
    written bare and is neither wrapped in double quotes of its own nor
    read as a number.  With a backslash the escaping is not undone: the
    quoted path C:\new is read back with a newline in it. *)
Theorem old_string_round_trip_iff (self : OldParser.ToonParser) (s : string) :
  (contains backslash s = false ->
   (OldParser._parse_value (OldParser._encode_string self s) = VStr s
    <-> OldParser.needs_quoting self s = true
        \/ (starts_char dquote s && ends_char dquote s = false
            /\ parses_as_number s = false)))
  /\ OldParser._parse_value
       (OldParser._encode_string self
          ("C:" ++ String backslash "new"))
     = VStr ("C:" ++ String newline "ew").
Proof.
  split; [|reflexivity].
  intros Hbs. unfold OldParser._encode_string.
  destruct (OldParser.needs_quoting self s) eqn:Hq.
  - change (String dquote (OldParser.escape s ++ chr dquote))
      with (quoted (OldParser.escape s)).
    rewrite _parse_value_quoted, (unescape_escape s Hbs). split; auto.
  - unfold OldParser.needs_quoting in Hq.
    repeat (apply orb_false_iff in Hq as [Hq ?]).
    match goal with
    | H : negb (String.eqb s (strip s)) = false |- _ =>
        apply negb_false_iff, String.eqb_eq in H; rename H into Hstrip
    end.
    match goal with
    | H : mem (lower s) _ = false |- _ =>
        destruct (lower_reserved s H) as [Hn [Ht Hf]]
    end.
    unfold OldParser._parse_value, parses_as_number, Parser.parse_number.
    rewrite <- Hstrip, Hn, Ht, Hf.
    destruct (starts_char dquote s && ends_char dquote s).
    + split.
      * intros [= H']. exfalso. apply (f_equal String.length) in H'.
        pose proof (unescape_length_le (slice_1_m1 s)) as Hle.
        destruct s as [|c r]; [discriminate|].
        unfold slice_1_m1 in *. rewrite length_string_of_list in Hle.
        pose proof (removelast_length (list_ascii_of_string r)) as Hrm.
        rewrite length_list_of_string in Hrm. simpl in H'. lia.
      * intros [H'|[H' _]]; discriminate.
    + destruct (contains "." s).
      * destruct (float_ok s); split; auto; try discriminate.
        intros [H'|[_ H']]; discriminate.
      * destruct (int s); simpl; split; auto; try discriminate.
        intros [H'|[_ H']]; discriminate.
Qed.

Lemma old_string_round_trip_iff_witness :
  OldParser._parse_value
    (OldParser._encode_string OldParser.default
       ("say: " ++ String dquote ("hi" ++ String dquote (chr newline))))
  = VStr ("say: " ++ String dquote ("hi" ++ String dquote (chr newline))).
Proof.
  apply (proj1 (old_string_round_trip_iff OldParser.default _));
    [reflexivity|].
  left. reflexivity.
Defined.

(** ** toon_parser-old.py: the normaliser *)

Section NormalizeFacts.
Import OldParser.

Lemma normalize_dict (items : list (string * PyVal)) :
  _normalize_types (PDict items)
  = do items' <- normalize_items items; Ok (PDict items').
Proof. reflexivity. Qed.

Lemma normalize_plist (elems : list PyVal) :
  _normalize_types (PList elems)
  = do elems' <- normalize_list elems; Ok (PList elems').
Proof. reflexivity. Qed.

Lemma normalize_float (f : spec_float) (text : string) :
  _normalize_types (PFloat f text) = Ok (PFloat f text) <-> kept f = true.
Proof.
  unfold kept. cbn [_normalize_types].
  destruct (SFeqb f f); simpl; [|split; discriminate].
  destruct (SFeqb f pos_inf || SFeqb f neg_inf); simpl;
    [split; discriminate|].
  destruct (SFeqb f neg_zero); simpl; split; auto; discriminate.
Qed.

Lemma normalize_list_fixed (elems : list PyVal) :
  Forall (fun v => _normalize_types v = Ok v <-> settled v = true) elems ->
  (normalize_list elems = Ok elems <-> forallb settled elems = true).
Proof.
  induction 1 as [|v l Hv _ IH]; simpl; [tauto|].
  rewrite andb_true_iff, <- Hv, <- IH. split.
  - destruct (_normalize_types v) as [v'|]; [|discriminate]. simpl.
    destruct (normalize_list l) as [r|]; [|discriminate]. simpl.
    intros [= -> ->]. auto.
  - intros [-> ->]. reflexivity.
Qed.

Lemma normalize_items_fixed (items : list (string * PyVal)) :
  Forall (fun kv => _normalize_types (snd kv) = Ok (snd kv)
                    <-> settled (snd kv) = true) items ->
  (normalize_items items = Ok items
   <-> forallb (fun kv => settled (snd kv)) items = true).
Proof.
  induction 1 as [|[k v] l Hv _ IH]; simpl; [tauto|]. simpl in Hv.
  rewrite andb_true_iff, <- Hv, <- IH. split.
  - destruct (_normalize_types v) as [v'|]; [|discriminate]. simpl.
    destruct (normalize_items l) as [r|]; [|discriminate]. simpl.
    intros [= -> ->]. auto.
  - intros [-> ->]. reflexivity.
Qed.

(** A pass of _normalize_types returns its argument exactly on the settled
    values. *)
Lemma normalize_fixed_iff (v : PyVal) :
  _normalize_types v = Ok v <-> settled v = true.
Proof.
  induction v as [|b|z|f text|s|iso|f text|elems|sorted| |items IH|elems IH|]
    using PyVal_children_ind;
    try (simpl; split; [reflexivity || discriminate|reflexivity || discriminate]).
  - apply normalize_float.
  - destruct sorted; simpl; split; discriminate.
  - rewrite normalize_dict. cbn [settled].
    rewrite <- (normalize_items_fixed items IH).
    destruct (normalize_items items); simpl; split;
      try discriminate; congruence.
  - rewrite normalize_plist. cbn [settled].
    rewrite <- (normalize_list_fixed elems IH).
    destruct (normalize_list elems); simpl; split;
      try discriminate; congruence.
Qed.

Lemma normalize_list_twice (elems : list PyVal) :
  Forall (fun v => (exists w, _normalize_types v = Ok w
                              /\ _normalize_types w = Ok w)
                   <-> one_pass v = true) elems ->
  ((exists r, normalize_list elems = Ok r /\ normalize_list r = Ok r)
   <-> forallb one_pass elems = true).
Proof.
  induction 1 as [|v l Hv _ IH]; simpl.
  - split; [reflexivity|]. intros _. now exists [].
  - rewrite andb_true_iff, <- Hv, <- IH. split.
    + intros [r [H1 H2]].
      destruct (_normalize_types v) as [v'|] eqn:E1; [|discriminate].
      simpl in H1.
      destruct (normalize_list l) as [r'|] eqn:E2; [|discriminate].
      simpl in H1. injection H1 as <-. simpl in H2.
      destruct (_normalize_types v') as [v''|] eqn:E3; [|discriminate].
      simpl in H2.
      destruct (normalize_list r') as [r''|] eqn:E4; [|discriminate].
      simpl in H2. injection H2 as -> ->. split; eauto.
    + intros [[w [Hw1 Hw2]] [r [Hr1 Hr2]]]. exists (w :: r).
      rewrite Hw1, Hr1. simpl. now rewrite Hw2, Hr2.
Qed.

Lemma normalize_items_twice (items : list (string * PyVal)) :
  Forall (fun kv => (exists w, _normalize_types (snd kv) = Ok w
                               /\ _normalize_types w = Ok w)
                    <-> one_pass (snd kv) = true) items ->
  ((exists r, normalize_items items = Ok r /\ normalize_items r = Ok r)
   <-> forallb (fun kv => one_pass (snd kv)) items = true).
Proof.
  induction 1 as [|[k v] l Hv _ IH]; simpl.
  - split; [reflexivity|]. intros _. now exists [].
  - simpl in Hv. rewrite andb_true_iff, <- Hv, <- IH. split.
    + intros [r [H1 H2]].
      destruct (_normalize_types v) as [v'|] eqn:E1; [|discriminate].
      simpl in H1.
      destruct (normalize_items l) as [r'|] eqn:E2; [|discriminate].
      simpl in H1. injection H1 as <-. simpl in H2.
      destruct (_normalize_types v') as [v''|] eqn:E3; [|discriminate].
      simpl in H2.
      destruct (normalize_items r') as [r''|] eqn:E4; [|discriminate].
      simpl in H2. injection H2 as -> ->. split; eauto.
    + intros [[w [Hw1 Hw2]] [r [Hr1 Hr2]]]. exists ((k, w) :: r).
      rewrite Hw1, Hr1. simpl. now rewrite Hw2, Hr2.
Qed.

End NormalizeFacts.

(** X8.  A second pass of _normalize_types returns what the first pass
    returned exactly on the values in which, outside tuples and sets,
    every Decimal is a float the normaliser keeps, every tuple and every
    set that can be sorted holds settled values only, and no set fails to
    sort; and a pass returns its argument exactly on the settled values. *)
Theorem normalize_idempotent_iff (v : OldParser.PyVal) :
  ((exists w, OldParser._normalize_types v = OldParser.Ok w
              /\ OldParser._normalize_types w = OldParser.Ok w)
   <-> one_pass v = true)
  /\ (OldParser._normalize_types v = OldParser.Ok v
      <-> settled v = true).
Proof.
  split; [|apply normalize_fixed_iff].
  induction v as [|b|z|f text|s|iso|f text|elems|sorted| |items IH|elems IH|]
    using PyVal_children_ind;
    try (simpl; split; [reflexivity|intros _; eexists; split; reflexivity]).
  - cbn [one_pass]. split; [reflexivity|]. intros _.
    cbn [OldParser._normalize_types].
    destruct (negb (SFeqb f f)) eqn:H1; [eexists; split; reflexivity|].
    destruct (SFeqb f OldParser.pos_inf || SFeqb f OldParser.neg_inf) eqn:H2;
      [eexists; split; reflexivity|].
    destruct (SFeqb f OldParser.neg_zero) eqn:H3;
      [eexists; split; reflexivity|].
    exists (OldParser.PFloat f text). split; [reflexivity|].
    cbn [OldParser._normalize_types]. now rewrite H1, H2, H3.
  - cbn [one_pass OldParser._normalize_types].
    rewrite <- (normalize_float f text). split.
    + now intros [w [[= <-] Hw]].
    + intros H. eexists. split; [reflexivity|exact H].
  - cbn [one_pass OldParser._normalize_types].
    change (forallb settled elems)
      with (settled (OldParser.PList elems)).
    rewrite <- normalize_fixed_iff. split.
    + now intros [w [[= <-] Hw]].
    + intros H. eexists. split; [reflexivity|exact H].
  - destruct sorted as [l|]; cbn [one_pass
                                    OldParser._normalize_types].
    + change (forallb settled l)
        with (settled (OldParser.PList l)).
      rewrite <- normalize_fixed_iff. split.
      * now intros [w [[= <-] Hw]].
      * intros H. eexists. split; [reflexivity|exact H].
    + split; [intros [w [H _]]|]; discriminate.
  - rewrite normalize_dict. cbn [one_pass].
    rewrite <- (normalize_items_twice items IH). split.
    + intros [w [H1 H2]].
      destruct (normalize_items items) as [r|] eqn:Hr;
        [|discriminate].
      simpl in H1. injection H1 as <-.
      rewrite normalize_dict in H2.
      destruct (normalize_items r) as [r'|] eqn:Hr';
        [|discriminate].
      simpl in H2. injection H2 as ->. now exists r.
    + intros [r [H1 H2]]. exists (OldParser.PDict r).
      rewrite H1. cbn [OldParser.bind].
      rewrite normalize_dict, H2.
      split; reflexivity.
  - rewrite normalize_plist. cbn [one_pass].
    rewrite <- (normalize_list_twice elems IH). split.
    + intros [w [H1 H2]].
      destruct (normalize_list elems) as [r|] eqn:Hr;
        [|discriminate].
      simpl in H1. injection H1 as <-.
      rewrite normalize_plist in H2.
      destruct (normalize_list r) as [r'|] eqn:Hr';
        [|discriminate].
      simpl in H2. injection H2 as ->. now exists r.
    + intros [r [H1 H2]]. exists (OldParser.PList r).
      rewrite H1. cbn [OldParser.bind].
      rewrite normalize_plist, H2.
      split; reflexivity.
Qed.

(** ** toon_parser-old.py: the encoder of tables *)

Section TabularFacts.
Import OldParser.

Lemma tabular_row_values self ks item :
  tabular_row self ks item
  = do values <- row_values self item ks; Ok (join (delimiter self) values).
Proof. reflexivity. Qed.

Lemma tabular_array_lines_rows self first rest level :
  tabular_array_lines self (first :: rest) level
  = do rows <- table_rows self (dict_keys first)
                 (indent_str self (level + 1)) (first :: rest);
    Ok (("[" ++ str_nat (List.length (first :: rest)) ++ delimiter self ++ "]")
        :: (indent_str self (level + 1)
              ++ join (delimiter self) (dict_keys first))
        :: rows).
Proof. reflexivity. Qed.

Lemma contains_replace_gone (old : ascii) (new s : string) :
  contains old new = false -> contains old (replace old new s) = false.
Proof.
  intros Hnew. induction s as [|c s IH]; simpl; [reflexivity|].
  destruct (Ascii.eqb c old) eqn:Hc.
  - now rewrite contains_app, Hnew.
  - simpl. now rewrite Hc.
Qed.

Lemma contains_replace_other (c old : ascii) (new s : string) :
  contains c new = false -> contains c s = false ->
  contains c (replace old new s) = false.
Proof.
  intros Hnew. induction s as [|d s IH]; simpl; [reflexivity|].
  intros H. apply orb_false_iff in H as [Hd Hs].
  destruct (Ascii.eqb d old).
  - rewrite contains_app, Hnew. now apply IH.
  - simpl. rewrite Hd. now apply IH.
Qed.

(** _encode_string writes every string on one line. *)
Lemma no_newline_encode_string self s :
  no_newline (_encode_string self s) = true.
Proof.
  unfold _encode_string. destruct (needs_quoting self s) eqn:Hq.
  - change (String dquote (escape s ++ chr dquote))
      with (chr dquote ++ escape s ++ chr dquote).
    rewrite !no_newline_app. simpl. rewrite andb_true_r.
    unfold no_newline, escape. apply negb_true_iff.
    apply contains_replace_other; [reflexivity|].
    apply contains_replace_gone. reflexivity.
  - unfold needs_quoting in Hq.
    repeat (apply orb_false_iff in Hq as [Hq ?]).
    unfold no_newline. apply negb_true_iff. assumption.
Qed.

Lemma no_newline_encode_scalar self v text :
  float_text_ok v = true -> encode_scalar self v = Ok text ->
  no_newline text = true.
Proof.
  destruct v; simpl; intros Hf [= <-]; try reflexivity.
  - now destruct b.
  - apply no_newline_str_int.
  - assumption.
  - apply no_newline_encode_string.
Qed.

Lemma encode_scalar_primitive self v :
  is_primitive v = true -> exists text, encode_scalar self v = Ok text.
Proof. destruct v; simpl; try discriminate; eauto. Qed.

Lemma lookup_key (key : string) (items : list (string * PyVal)) :
  In key (map fst items) ->
  exists w, lookup key (PDict items) = Some w /\ In w (map snd items).
Proof.
  unfold lookup. induction items as [|[k w] items IH]; simpl; [tauto|].
  intros [->|Hin].
  - rewrite String.eqb_refl. exists w. auto.
  - destruct (String.eqb k key); [exists w; auto|].
    destruct (IH Hin) as [w' [Hw Hin']]. exists w'. auto.
Qed.

Lemma row_values_ok self first item :
  table_row first item = true ->
  forall ks, (forall k, In k ks -> In k (dict_keys first)) ->
    exists cells,
      row_values self item ks = Ok cells
      /\ List.length cells = List.length ks
      /\ (forallb float_text_ok (dict_values item) = true ->
          forallb no_newline cells = true).
Proof.
  intros Hrow. unfold table_row in Hrow.
  apply andb_true_iff in Hrow as [Hrow Hprim].
  apply andb_true_iff in Hrow as [Hdict Hkeys].
  destruct item as [| | | | | | | | | |items| |]; try discriminate.
  unfold same_key_set in Hkeys. apply andb_true_iff in Hkeys as [_ Hkeys].
  rewrite forallb_forall in Hkeys, Hprim.
  induction ks as [|k ks IH]; intros Hks.
  - exists []. repeat split.
  - assert (Hk : In k (map fst items)).
    { apply mem_In. apply Hkeys. apply Hks. now left. }
    destruct (lookup_key k items Hk) as [w [Hw Hin]].
    destruct (encode_scalar_primitive self w (Hprim w Hin)) as [text Ht].
    destruct IH as [cells [Hc [Hlen Hnl]]];
      [intros k' Hk'; apply Hks; now right|].
    exists (text :: cells). unfold row_values in *. rewrite Hw, Ht, Hc.
    split; [reflexivity|]. split; [simpl; now rewrite Hlen|].
    intros Hf. simpl. rewrite (Hnl Hf), andb_true_r.
    rewrite forallb_forall in Hf.
    apply (no_newline_encode_scalar self w text); [now apply Hf|assumption].
Qed.

Lemma table_rows_ok self first pad :
  forall arr,
    forallb (table_row first) arr = true ->
    exists rows,
      table_rows self (dict_keys first) pad arr = Ok rows
      /\ List.length rows = List.length arr
      /\ (no_newline pad = true -> one_line_table self arr = true ->
          forallb no_newline rows = true).
Proof.
  induction arr as [|item arr IH]; intros Hall.
  - exists []. repeat split.
  - simpl in Hall. apply andb_true_iff in Hall as [Hrow Hrest].
    destruct (row_values_ok self first item Hrow (dict_keys first))
      as [cells [Hc [_ Hnl]]]; [auto|].
    destruct (IH Hrest) as [rows [Hr [Hlen Hrnl]]].
    exists ((pad ++ join (delimiter self) cells) :: rows).
    unfold table_rows in *. rewrite tabular_row_values, Hc, Hr.
    split; [reflexivity|]. split; [simpl; now rewrite Hlen|].
    intros Hpad Hone. unfold one_line_table in *.
    apply andb_true_iff in Hone as [Hd Hone]. simpl in Hone.
    apply andb_true_iff in Hone as [Hitem Hone].
    apply andb_true_iff in Hitem as [_ Hf].
    simpl. rewrite no_newline_app, Hpad.
    rewrite (no_newline_join _ _ Hd (Hnl Hf)). simpl.
    apply Hrnl; [assumption|]. now rewrite Hd.
Qed.

(** What the classifier says of an array it takes for a table. *)
Lemma tabular_rows_of_detect arr :
  _detect_array_type arr = TABULAR ->
  exists first rest,
    arr = first :: rest /\ forallb (table_row first) arr = true.
Proof.
  unfold _detect_array_type. destruct arr as [|first rest]; [discriminate|].
  destruct (forallb is_primitive (first :: rest)); [discriminate|].
  destruct (forallb is_dict (first :: rest)) eqn:Hd; [|discriminate].
  destruct (forallb (fun item => same_key_set (dict_keys item)
                                   (dict_keys first)) (first :: rest))
    eqn:Hk; [|discriminate].
  destruct (forallb (fun item => forallb is_primitive (dict_values item))
              (first :: rest)) eqn:Hp; [|discriminate].
  intros _. exists first, rest. split; [reflexivity|].
  rewrite forallb_forall in *. intros item Hin. unfold table_row.
  now rewrite (Hd item Hin), (Hk item Hin), (Hp item Hin).
Qed.

(** X9.  An array the classifier takes for a table is written by
    _encode_tabular_array without an error, as a header, a line of column
    names and one entry for each element; and the text has exactly 2 + N
    lines when the delimiter, the column names and the texts of the floats
    hold no newline: a string cell is escaped, so it stays on its line. *)
Theorem old_tabular_array_encodes self arr level :
  _detect_array_type arr = TABULAR ->
  exists lines,
    tabular_array_lines self arr level = Ok lines
    /\ _encode_tabular_array self arr level = Ok (join (chr newline) lines)
    /\ List.length lines = 2 + List.length arr
    /\ (one_line_table self arr = true ->
        split newline (join (chr newline) lines) = lines).
Proof.
  intros Hdet.
  destruct (tabular_rows_of_detect arr Hdet) as [first [rest [-> Hrows]]].
  destruct (table_rows_ok self first (indent_str self (level + 1))
              (first :: rest) Hrows) as [rows [Hr [Hlen Hnl]]].
  eexists. unfold _encode_tabular_array.
  rewrite tabular_array_lines_rows, Hr. cbn [bind].
  split; [reflexivity|]. split; [reflexivity|].
  split; [simpl; now rewrite Hlen|].
  intros Hone. apply split_join_lines; [discriminate|].
  pose proof Hone as Hone'. unfold one_line_table in Hone'.
  apply andb_true_iff in Hone' as [Hd Hitems].
  assert (Hpad : no_newline (indent_str self (level + 1)) = true)
    by apply no_newline_spaces.
  cbn [forallb]. rewrite !andb_true_iff. repeat split.
  - rewrite !no_newline_app, Hd. unfold str_nat.
    now rewrite no_newline_str_int.
  - rewrite no_newline_app, Hpad. apply no_newline_join; [assumption|].
    simpl in Hitems. apply andb_true_iff in Hitems as [Hfirst _].
    now apply andb_true_iff in Hfirst as [? _].
  - now apply Hnl.
Qed.

Lemma old_tabular_array_encodes_witness :
  exists lines,
    tabular_array_lines OldParser.default
      [PDict [("a", PStr ("x" ++ nl ++ "y"))]] 0 = Ok lines
    /\ _encode_tabular_array OldParser.default
         [PDict [("a", PStr ("x" ++ nl ++ "y"))]] 0
       = Ok (join (chr newline) lines)
    /\ List.length lines = 2 + 1
    /\ (one_line_table OldParser.default
          [PDict [("a", PStr ("x" ++ nl ++ "y"))]] = true ->
        split newline (join (chr newline) lines) = lines).
Proof.
  apply (old_tabular_array_encodes OldParser.default
           [PDict [("a", PStr ("x" ++ nl ++ "y"))]] 0).
  reflexivity.
Defined.

End TabularFacts.

(** ** toon_parser-old.py: the decoder ends *)

Section OldDecoderFacts.
Import OldParser.
Variable self : ToonParser.

Lemma object_item_loop_index rest idx indent item :
  idx <= snd (object_item_loop rest idx indent item).
Proof.
  revert idx item. induction rest as [|line rest IH]; intros idx item; simpl.
  - lia.
  - destruct (indent_of line <=? indent)%nat; simpl; [lia|].
    match goal with
    | |- _ <= snd (object_item_loop _ _ _ ?o) => specialize (IH (S idx) o)
    end. lia.
Qed.

Lemma _parse_object_item_index lines start base d idx' :
  _parse_object_item lines start base = Ok (d, idx') -> start + 1 <= idx'.
Proof.
  unfold _parse_object_item.
  destruct (nth_error lines start) as [line|]; [|discriminate].
  match goal with
  | |- Ok (object_item_loop ?rs ?k ?n ?it) = _ -> _ =>
      pose proof (object_item_loop_index rs k n it) as Hidx;
      destruct (object_item_loop rs k n it) as [d' j]
  end.
  simpl in Hidx. intros [= _ <-]. exact Hidx.
Qed.

(** The loop of _parse_list_array ends, at or after the index it starts
    from. *)
Lemma old_list_array_loop_total lines base count :
  forall fuel idx items found,
    List.length lines - idx < fuel ->
    exists r,
      list_array_loop fuel lines idx base count items found = Some r
      /\ forall its idx' n, r = Ok (its, idx', n) -> idx <= idx'.
Proof.
  induction fuel as [|fuel IH]; intros idx items found Hfuel; [lia|].
  simpl. destruct (nth_error lines idx) as [line|] eqn:Hline.
  - assert (Hi : idx < List.length lines)
      by (apply nth_error_Some; congruence).
    destruct (found <? count)%nat.
    + destruct (startswith "-" (strip line)).
      * destruct (contains ":" (after_dash line)).
        -- destruct (_parse_object_item lines idx base) as [[d idx']|e]
             eqn:Hitem.
           ++ apply _parse_object_item_index in Hitem.
              destruct (IH idx' (List.app items [VObj d]) (found + 1))
                as [r [Hr Hidx]]; [lia|].
              exists r. split; [assumption|].
              intros its j n Hj. specialize (Hidx its j n Hj). lia.
           ++ eexists. split; [reflexivity|discriminate].
        -- destruct (IH (idx + 1)
                       (List.app items [_parse_value (after_dash line)])
                       (found + 1)) as [r [Hr Hidx]]; [lia|].
           exists r. split; [assumption|].
           intros its j n Hj. specialize (Hidx its j n Hj). lia.
      * destruct (IH (idx + 1) items found) as [r [Hr Hidx]]; [lia|].
        exists r. split; [assumption|].
        intros its j n Hj. specialize (Hidx its j n Hj). lia.
    + eexists. split; [reflexivity|]. intros its j n [= _ <- _]. lia.
  - eexists. split; [reflexivity|]. intros its j n [= _ <- _]. lia.
Qed.

Lemma _parse_list_array_returns lines start base count :
  exists r,
    _parse_list_array self lines start base count = Some r
    /\ forall its idx', r = Ok (its, idx') -> start <= idx'.
Proof.
  unfold _parse_list_array.
  destruct (old_list_array_loop_total lines base count
              (S (List.length lines)) start [] 0) as [r [Hr Hidx]]; [lia|].
  rewrite Hr. destruct r as [[[its idx'] n]|e].
  - specialize (Hidx its idx' n eq_refl).
    destruct (strict self && negb (n =? count)%nat).
    + eexists. split; [reflexivity|discriminate].
    + eexists. split; [reflexivity|]. intros ? ? [= _ <-]. exact Hidx.
  - eexists. split; [reflexivity|discriminate].
Qed.

Lemma _parse_tabular_array_index lines header base count d rows idx' :
  _parse_tabular_array lines header base count d = Ok (rows, idx') ->
  header + 1 <= idx'.
Proof.
  unfold _parse_tabular_array.
  destruct (nth_error lines header); [|discriminate].
  destruct (tabular_rows _ _ _ _ _ _ _ _); [|discriminate].
  simpl. intros [= _ <-]. lia.
Qed.

(** _parse_array ends, and what it returns lies after the header line. *)
Lemma _parse_array_returns lines start base :
  exists r,
    _parse_array self lines start base = Some r
    /\ forall its idx', r = Ok (its, idx') -> start + 1 <= idx'.
Proof.
  unfold _parse_array.
  destruct (nth_error lines start) as [line0|];
    [|eexists; split; [reflexivity|discriminate]].
  destruct (array_header (strip line0)) as [[[ds d] r]|];
    [|eexists; split; [reflexivity|discriminate]].
  destruct (inline_values r) as [values_str|].
  - destruct (strict self && _).
    + eexists. split; [reflexivity|discriminate].
    + eexists. split; [reflexivity|]. intros ? ? [= _ <-]. lia.
  - destruct d as [d|].
    + eexists. split; [reflexivity|].
      intros its idx' H. apply _parse_tabular_array_index in H. lia.
    + destruct (_parse_list_array_returns lines (start + 1) base
                  (Z.to_nat (int_of_digits ds))) as [r' [Hr Hidx]].
      exists r'. split; [assumption|].
      intros its idx' H. specialize (Hidx its idx' H). lia.
Qed.

(** The loop of _parse_lines ends, at or after the index it starts from:
    one unit of fuel for each line left and one for the exit are enough. *)
Lemma parse_lines_loop_total lines :
  forall fuel idx current_indent acc,
    List.length lines - idx < fuel ->
    exists r,
      parse_lines_loop self fuel lines idx current_indent acc = Some r
      /\ forall d idx', r = Ok (d, idx') -> idx <= idx'.
Proof.
  induction fuel as [|fuel IH]; intros idx cur acc Hfuel; [lia|].
  cbn [parse_lines_loop].
  destruct (nth_error lines idx) as [line|] eqn:Hline;
    [|eexists; split; [reflexivity|intros ? ? [= _ <-]; lia]].
  assert (Hi : idx < List.length lines)
    by (apply nth_error_Some; congruence).
  assert (Hnext : forall acc',
             exists r,
               parse_lines_loop self fuel lines (idx + 1) cur acc' = Some r
               /\ forall d idx', r = Ok (d, idx') -> idx <= idx').
  { intros acc'. destruct (IH (idx + 1) cur acc') as [r [Hr Hidx]]; [lia|].
    exists r. split; [assumption|].
    intros d j Hj. specialize (Hidx d j Hj). lia. }
  destruct (is_empty (strip line)); [apply Hnext|].
  destruct (Z.of_nat (indent_of line) <? cur)%Z;
    [eexists; split; [reflexivity|intros ? ? [= _ <-]; lia]|].
  destruct (strict self && (cur <? Z.of_nat (indent_of line))%Z
            && (indent self =? 0)%Z);
    [eexists; split; [reflexivity|discriminate]|].
  destruct (strict self && (cur <? Z.of_nat (indent_of line))%Z
            && negb (Z.of_nat (indent_of line) mod indent self =? 0)%Z);
    [eexists; split; [reflexivity|discriminate]|].
  destruct (contains ":" (strip line) && negb (startswith "-" (strip line)));
    [|apply Hnext].
  destruct (partition ":" (strip line)) as [key0 value_part0].
  destruct (is_empty (strip value_part0)).
  - destruct (IH (idx + 1) (Z.of_nat (indent_of line) + indent self)%Z [])
      as [r [Hr Hidx]]; [lia|].
    rewrite Hr. destruct r as [[nested idx']|e].
    + specialize (Hidx nested idx' eq_refl).
      destruct (IH idx' cur (dict_set (strip key0) (VObj nested) acc))
        as [r' [Hr' Hidx']]; [lia|].
      exists r'. split; [assumption|].
      intros d j Hj. specialize (Hidx' d j Hj). lia.
    + eexists. split; [reflexivity|discriminate].
  - destruct (starts_char "[" (strip value_part0)); [|apply Hnext].
    destruct (_parse_array_returns lines idx (indent_of line))
      as [r [Hr Hidx]].
    rewrite Hr. destruct r as [[arr idx']|e].
    + specialize (Hidx arr idx' eq_refl).
      destruct (IH idx' cur (dict_set (strip key0) (VArr arr) acc))
        as [r' [Hr' Hidx']]; [lia|].
      exists r'. split; [assumption|].
      intros d j Hj. specialize (Hidx' d j Hj). lia.
    + eexists. split; [reflexivity|discriminate].
Qed.

End OldDecoderFacts.

(** X10.  decode of toon_parser-old.py ends on every text, with a value or
    with an exception: one turn of the loop of _parse_lines for each line
    of the text and one more are enough, nested calls included. *)
Theorem old_decode_ends (self : OldParser.ToonParser) (toon_str : string) :
  exists r,
    OldParser.decode self (S (List.length (split newline toon_str))) toon_str
    = Some r.
Proof.
  unfold OldParser.decode, OldParser._parse_lines.
  destruct (parse_lines_loop_total self (split newline toon_str)
              (S (List.length (split newline toon_str))) 0 0%Z [])
    as [r [Hr _]]; [lia|].
  rewrite Hr. destruct r as [[d idx]|e]; eauto.
Qed.

(** ** toon_parser-old.py: the arrays the decoder returns *)

Section OldArrayFacts.
Import OldParser.
Variable self : ToonParser.

Lemma tabular_rows_length lines header count d headers :
  forall todo i rows rows',
    tabular_rows lines header count d headers todo i rows = Ok rows' ->
    List.length rows' = List.length rows + todo.
Proof.
  induction todo as [|todo IH]; intros i rows rows'; simpl.
  - intros [= <-]. lia.
  - destruct (nth_error lines (header + 1 + i)); [|discriminate].
    destruct (negb _); [discriminate|].
    intros H. apply IH in H. rewrite length_app in H. simpl in H. lia.
Qed.

Lemma old_list_array_loop_found lines base count :
  forall fuel idx items found its idx' n,
    list_array_loop fuel lines idx base count items found
    = Some (Ok (its, idx', n)) ->
    List.length its + found = List.length items + n.
Proof.
  induction fuel as [|fuel IH]; intros idx items found its idx' n;
    [discriminate|].
  simpl. destruct (nth_error lines idx) as [line|];
    [|intros [= <- _ <-]; lia].
  destruct (found <? count)%nat; [|intros [= <- _ <-]; lia].
  destruct (startswith "-" (strip line)); [|apply IH].
  destruct (contains ":" (after_dash line)).
  - destruct (_parse_object_item lines idx base) as [[d j]|e];
      [|discriminate].
    intros H. apply IH in H. rewrite length_app in H. simpl in H. lia.
  - intros H. apply IH in H. rewrite length_app in H. simpl in H. lia.
Qed.

Lemma array_header_bracket (s ds : string) (d : option ascii) (r : string) :
  array_header s = Some (ds, d, r) -> exists t, s = String "[" t.
Proof.
  unfold array_header, bracket_digits.
  destruct s as [|c t]; [discriminate|].
  destruct (Ascii.eqb_spec c "[") as [->|Hc]; [eauto|].
  destruct c as [[] [] [] [] [] [] [] []]; try discriminate.
  congruence.
Qed.

Lemma starts_char_partition (c sep : ascii) (t : string) :
  Ascii.eqb c sep = false ->
  starts_char c (fst (partition sep (String c t))) = true.
Proof.
  intros Hc. simpl. rewrite Hc.
  destruct (partition sep t). unfold starts_char. simpl.
  apply Ascii.eqb_refl.
Qed.

Lemma starts_char_strip (c : ascii) (s : string) :
  isspace c = false -> starts_char c s = true -> starts_char c (strip s) = true.
Proof.
  intros Hc. destruct s as [|d t]; [discriminate|].
  unfold starts_char. simpl. intros Hd. apply Ascii.eqb_eq in Hd. subst d.
  unfold strip, rstrip, lstrip. simpl lstrip_by. rewrite Hc.
  destruct (rstrip_by_head isspace c t Hc) as [r' ->]. simpl.
  apply Ascii.eqb_refl.
Qed.

Lemma In_dict_set (k : string) (v : Value) (d : dict) (kv : string * Value) :
  In kv (dict_set k v d) -> kv = (k, v) \/ In kv d.
Proof.
  induction d as [|[k' w] d IH]; simpl.
  - intros [<-|[]]. now left.
  - destruct (String.eqb_spec k' k) as [->|_]; simpl.
    + intros [<-|H]; auto.
    + intros [<-|H]; auto. destruct (IH H); auto.
Qed.

Lemma arrays_under_brackets_set k v d :
  (forall elems, v = VArr elems -> starts_char "[" k = true) ->
  arrays_under_brackets d -> arrays_under_brackets (dict_set k v d).
Proof.
  intros Hv Hd k' elems Hin. apply In_dict_set in Hin as [[= -> <-]|Hin].
  - now apply (Hv elems).
  - now apply (Hd k' elems).
Qed.

Lemma _parse_value_no_array s elems : _parse_value s <> VArr elems.
Proof.
  unfold _parse_value.
  repeat match goal with
         | |- context [if ?b then _ else _] => destruct b
         end; try discriminate.
  destruct (int _); discriminate.
Qed.

Lemma parse_lines_loop_arrays lines :
  forall fuel idx current_indent acc d idx',
    arrays_under_brackets acc ->
    parse_lines_loop self fuel lines idx current_indent acc
    = Some (Ok (d, idx')) ->
    arrays_under_brackets d.
Proof.
  induction fuel as [|fuel IH]; intros idx cur acc d idx' Hacc;
    [discriminate|].
  cbn [parse_lines_loop].
  destruct (nth_error lines idx) as [line|] eqn:Hline;
    [|intros [= <- _]; assumption].
  destruct (is_empty (strip line)); [now apply IH|].
  destruct (Z.of_nat (indent_of line) <? cur)%Z;
    [intros [= <- _]; assumption|].
  destruct (strict self && (cur <? Z.of_nat (indent_of line))%Z
            && (indent self =? 0)%Z); [discriminate|].
  destruct (strict self && (cur <? Z.of_nat (indent_of line))%Z
            && negb (Z.of_nat (indent_of line) mod indent self =? 0)%Z);
    [discriminate|].
  destruct (contains ":" (strip line) && negb (startswith "-" (strip line)));
    [|now apply IH].
  destruct (partition ":" (strip line)) as [key0 value_part0] eqn:Hpart.
  destruct (is_empty (strip value_part0)).
  - destruct (parse_lines_loop self fuel lines (idx + 1) _ [])
      as [[[nested j]|e]|]; try discriminate.
    apply IH. apply arrays_under_brackets_set; [discriminate|assumption].
  - destruct (starts_char "[" (strip value_part0)).
    + unfold _parse_array at 1. rewrite Hline.
      destruct (array_header (strip line)) as [[[ds dl] r]|] eqn:Hhead;
        [|discriminate].
      destruct (array_header_bracket _ _ _ _ Hhead) as [t Ht].
      assert (Hkey : starts_char "[" (strip key0) = true).
      { apply starts_char_strip; [reflexivity|].
        rewrite Ht in Hpart.
        pose proof (starts_char_partition "[" ":" t eq_refl) as Hs.
        now rewrite Hpart in Hs. }
      match goal with
      | |- match ?e with _ => _ end = _ -> _ =>
          destruct e as [[[arr j]|e']|]; try discriminate
      end.
      apply IH. apply arrays_under_brackets_set; [|assumption].
      intros _ _. exact Hkey.
    + apply IH. apply arrays_under_brackets_set; [|assumption].
      intros elems H. now apply _parse_value_no_array in H.
Qed.

End OldArrayFacts.

(** X11.  Every dict that _parse_lines of toon_parser-old.py returns, and so
    the dict decode returns and each nested one, holds an array only under
    a key that starts with a bracket: the array of a line key [N]: ... or
    key: [N] ... is not decoded under key. *)
Theorem old_decoder_array_keys (self : OldParser.ToonParser) :
  (forall fuel lines start_idx current_indent d idx key elems,
      OldParser._parse_lines self fuel lines start_idx current_indent
      = Some (OldParser.Ok (d, idx)) ->
      In (key, VArr elems) d -> starts_char "[" key = true)
  /\ (forall fuel toon_str d key elems,
         OldParser.decode self fuel toon_str = Some (OldParser.Ok (VObj d)) ->
         In (key, VArr elems) d -> starts_char "[" key = true).
Proof.
  assert (Hlines : forall fuel lines start_idx current_indent d idx key elems,
             OldParser._parse_lines self fuel lines start_idx current_indent
             = Some (OldParser.Ok (d, idx)) ->
             In (key, VArr elems) d -> starts_char "[" key = true).
  { intros fuel lines start cur d idx key elems Hrun Hin.
    unfold OldParser._parse_lines in Hrun.
    apply parse_lines_loop_arrays in Hrun; [|intros ? ? []].
    now apply (Hrun key elems). }
  split; [exact Hlines|].
  intros fuel toon_str d key elems. unfold OldParser.decode.
  destruct (OldParser._parse_lines self fuel _ 0 0) as [[[r idx]|e]|] eqn:Hrun;
    try discriminate.
  intros [= <-]. now apply (Hlines _ _ _ _ _ _ _ _ Hrun).
Qed.

Lemma old_decoder_array_keys_witness :
  starts_char "[" "[2]" = true.
Proof.
  apply (proj2 (old_decoder_array_keys
                  {| OldParser.strict := false; OldParser.indent := 2;
                     OldParser.delimiter := "," |})
           2 "[2]: [x" [("[2]", VArr [VStr "[x"])] "[2]" [VStr "[x"]).
  - reflexivity.
  - now left.
Defined.

(** X12.  An array that _parse_array of toon_parser-old.py returns stands
    after a header [N...], and it has the N elements the header declares
    when the parser is strict, and in every mode when it is a table. *)
Theorem old_array_length_checked (self : OldParser.ToonParser) lines
    start_idx base_indent values idx :
  OldParser._parse_array self lines start_idx base_indent
  = Some (OldParser.Ok (values, idx)) ->
  exists line ds d r,
    nth_error lines start_idx = Some line
    /\ OldParser.array_header (strip line) = Some (ds, d, r)
    /\ (OldParser.strict self = true
        \/ (OldParser.inline_values r = None /\ d <> None) ->
        List.length values = Z.to_nat (int_of_digits ds)).
Proof.
  unfold OldParser._parse_array.
  destruct (nth_error lines start_idx) as [line|]; [|discriminate].
  destruct (OldParser.array_header (strip line)) as [[[ds d] r]|] eqn:Hhead;
    [|discriminate].
  intros H. exists line, ds, d, r. split; [reflexivity|].
  split; [exact Hhead|].
  destruct (OldParser.inline_values r) as [values_str|].
  - destruct (OldParser.strict self) eqn:Hstrict; simpl in H.
    + destruct (_ =? _)%nat eqn:Hlen; simpl in H; [|discriminate].
      injection H as <- _. intros _. now apply Nat.eqb_eq in Hlen.
    + intros [Hs|[Hn _]]; discriminate.
  - destruct d as [d|].
    + intros _. unfold OldParser._parse_tabular_array in H.
      destruct (nth_error lines (start_idx + 1)); [|discriminate].
      destruct (OldParser.tabular_rows _ _ _ _ _ _ _ _) as [rows|] eqn:Hrows;
        [|discriminate].
      simpl in H. injection H as <- _.
      apply tabular_rows_length in Hrows. simpl in Hrows. lia.
    + unfold OldParser._parse_list_array in H.
      destruct (OldParser.list_array_loop _ _ _ _ _ _ _)
        as [[[[its j] n]|e]|] eqn:Hloop; try discriminate.
      apply old_list_array_loop_found in Hloop. simpl in Hloop.
      intros [Hs|[_ Hd]]; [|congruence].
      rewrite Hs in H. simpl in H.
      destruct (n =? _)%nat eqn:Hn; simpl in H; [|discriminate].
      injection H as <- _. apply Nat.eqb_eq in Hn. lia.
Qed.

Lemma old_array_length_checked_witness :
  exists line ds d r,
    nth_error ["[2]: 1, 2"] 0 = Some line
    /\ OldParser.array_header (strip line) = Some (ds, d, r)
    /\ (OldParser.strict OldParser.default = true
        \/ (OldParser.inline_values r = None /\ d <> None) ->
        List.length [VInt 1; VInt 2] = Z.to_nat (int_of_digits ds)).
Proof.
  apply (old_array_length_checked OldParser.default ["[2]: 1, 2"] 0 0
           [VInt 1; VInt 2] 1).
  reflexivity.
Defined.

(** ** toon_validator.py: what validate returns *)

Section ValidatorInvariants.
Import Validator.
Variable level : ValidationLevel.
Variable indent : Z.

Lemma well_formed_add_error r n m ctx :
  well_formed r -> well_formed (add_error r n m ctx).
Proof.
  intros [Hv [He [Hw Hi]]]. unfold well_formed, has_errors. simpl.
  rewrite length_app. simpl. repeat split; auto.
  - destruct (Nat.ltb_spec 0 (List.length (errors r) + 1)); [reflexivity|lia].
  - apply Forall_app. split; [assumption|]. now constructor.
Qed.

Lemma well_formed_add_warning r n m ctx :
  well_formed r -> well_formed (add_warning r n m ctx).
Proof.
  intros [Hv [He [Hw Hi]]]. unfold well_formed, has_errors. simpl.
  repeat split; auto.
  apply Forall_app. split; [assumption|]. now constructor.
Qed.

Lemma well_formed_add_all add i line msgs r :
  (forall r n m ctx, well_formed r -> well_formed (add r n m ctx)) ->
  well_formed r -> well_formed (add_all add i line msgs r).
Proof.
  intros Hadd. unfold add_all. revert r.
  induction msgs as [|m msgs IH]; intros r Hr; simpl; auto.
Qed.

Lemma well_formed_add_either i line msgs r :
  well_formed r ->
  well_formed
    (add_all (if is_strict level then add_error else add_warning)
       i line msgs r).
Proof.
  intros Hr. apply well_formed_add_all; [|assumption].
  destruct (is_strict level);
    auto using well_formed_add_error, well_formed_add_warning.
Qed.

(** What a turn of the loop of validate does to the result, whatever the
    line: a property kept by add_error and add_warning is kept by the
    turn. *)
Lemma validate_line_keeps (P : ValidationResult -> Prop) st i line st' :
  (forall r m, P r -> P (add_error r i m (Some line))) ->
  (forall r m, P r -> P (add_warning r i m (Some line))) ->
  validate_line level indent st i line = Some st' ->
  P (result st) -> P (result st').
Proof.
  intros Herr Hwarn. unfold validate_line.
  assert (Hall : forall add msgs r,
             (forall r m, P r -> P (add r i m (Some line))) ->
             P r -> P (add_all add i line msgs r)).
  { intros add msgs. unfold add_all.
    induction msgs as [|m msgs IH]; intros r Hadd Hr; simpl; auto. }
  assert (Heither : forall msgs r,
             P r ->
             P (add_all (if is_strict level then add_error else add_warning)
                  i line msgs r)).
  { intros msgs r Hr. apply Hall; [|assumption].
    destruct (is_strict level); auto. }
  destruct (is_empty (strip line)); [now intros [= <-]|].
  destruct (_validate_indentation level indent line i 0) as [ierrs|];
    [|discriminate].
  intros Hst Hr.
  assert (Hend : forall r2 a b,
             P r2 ->
             Some
               {| result :=
                    add_all add_warning i line (_check_types (strip line) i)
                      (add_all add_warning i line
                         (_check_quoting (strip line) i)
                         (if contains ":" (strip line)
                             && negb (startswith "-" (strip line))
                          then add_all
                                 (if is_strict level then add_error
                                  else add_warning)
                                 i line
                                 (_validate_key_value level (strip line) i)
                                 r2
                          else r2));
                  in_array := a;
                  array_info := b |} = Some st' ->
             P (result st')).
  { intros r2 a b H2 [= <-]. simpl.
    apply Hall; [assumption|]. apply Hall; [assumption|].
    destruct (contains ":" (strip line)
              && negb (startswith "-" (strip line))); auto. }
  revert Hst.
  destruct (contains "[" (strip line) && contains "]" (strip line)
            && negb (in_array st)).
  - destruct (_validate_array_header (strip line) i) as [aerrs inf].
    destruct inf; cbv beta iota; apply Hend; apply Hall; auto.
  - cbv beta iota. apply Hend. auto.
Qed.

Lemma validate_lines_keeps (P : ValidationResult -> Prop) lines :
  forall st start st',
    (forall r k m line,
        nth_error lines k = Some line ->
        P r -> P (add_error r (start + k) m (Some line))) ->
    (forall r k m line,
        nth_error lines k = Some line ->
        P r -> P (add_warning r (start + k) m (Some line))) ->
    validate_lines level indent st start lines = Some st' ->
    P (result st) -> P (result st').
Proof.
  induction lines as [|l lines IH]; intros st start st' Herr Hwarn; simpl.
  - now intros [= <-].
  - destruct (validate_line level indent st start l) as [st1|] eqn:H1;
      [|discriminate].
    intros Hrun Hst. apply (IH st1 (S start) st'); try assumption.
    + intros r k m line Hk. replace (S start + k) with (start + S k) by lia.
      now apply Herr.
    + intros r k m line Hk. replace (S start + k) with (start + S k) by lia.
      now apply Hwarn.
    + apply (validate_line_keeps P _ _ _ _
               (fun r m => eq_rect _ (fun n => P r -> P (add_error r n m (Some l)))
                             (Herr r 0 m l eq_refl) _ (Nat.add_0_r start))
               (fun r m => eq_rect _ (fun n => P r -> P (add_warning r n m (Some l)))
                             (Hwarn r 0 m l eq_refl) _ (Nat.add_0_r start))
               H1 Hst).
Qed.

Lemma validate_lines_well_formed lines st' :
  validate_lines level indent
    {| result := empty_result; in_array := false; array_info := None |}
    1 lines = Some st' ->
  well_formed (result st').
Proof.
  intros Hrun.
  apply (validate_lines_keeps well_formed _ _ _ _
           (fun r k m line _ => well_formed_add_error r _ m (Some line))
           (fun r k m line _ => well_formed_add_warning r _ m (Some line))
           Hrun).
  unfold well_formed. simpl. repeat split; constructor.
Qed.

Lemma validate_lines_located lines st' :
  validate_lines level indent
    {| result := empty_result; in_array := false; array_info := None |}
    1 lines = Some st' ->
  forall d, In d (errors (result st')) \/ In d (warnings (result st')) ->
            located lines d.
Proof.
  intros Hrun.
  refine (validate_lines_keeps
            (fun r => forall d, In d (errors r) \/ In d (warnings r) ->
                                located lines d) lines _ _ _ _ _ Hrun _).
  - intros r k m line Hk Hr d. simpl. rewrite in_app_iff. simpl.
    intros [[H|[<-|[]]]|H]; auto.
    exists k. simpl. repeat split; [now rewrite Hk|].
    apply nth_error_Some. congruence.
  - intros r k m line Hk Hr d. simpl. rewrite in_app_iff. simpl.
    intros [H|[H|[<-|[]]]]; auto.
    exists k. simpl. repeat split; [now rewrite Hk|].
    apply nth_error_Some. congruence.
  - simpl. intros d [[]|[]].
Qed.

(** X13.  A result that validate returns is valid exactly when it holds no
    error, its errors have the severity ERROR and its warnings the severity
    WARNING, it holds no info, and quick_validate on the same text returns
    whether it holds no error. *)
Theorem validate_result_well_formed toon_str r :
  validate level indent toon_str = Some r ->
  is_valid r = negb (has_errors r)
  /\ Forall (fun e => severity e = ERROR) (errors r)
  /\ Forall (fun w => severity w = WARNING) (warnings r)
  /\ info r = []
  /\ quick_validate level indent toon_str = Some (negb (has_errors r)).
Proof.
  unfold quick_validate, validate.
  destruct (validate_lines _ _ _ _ _) as [st'|] eqn:Hrun; [|discriminate].
  simpl. intros [= <-].
  destruct (validate_lines_well_formed _ _ Hrun) as [Hv [He [Hw Hi]]].
  rewrite Hv. auto.
Qed.

(** X14.  Every error and every warning of a result that validate returns
    carries the number of a line of the text, counted from 1, and that
    line as its context. *)
Theorem validate_diagnostics_located toon_str r :
  validate level indent toon_str = Some r ->
  forall d, In d (errors r) \/ In d (warnings r) ->
            located (split newline toon_str) d.
Proof.
  unfold validate.
  destruct (validate_lines _ _ _ _ _) as [st'|] eqn:Hrun; [|discriminate].
  simpl. intros [= <-]. now apply validate_lines_located.
Qed.

Lemma errors_add_warnings i line msgs r :
  errors (add_all add_warning i line msgs r) = errors r.
Proof.
  unfold add_all. revert r.
  induction msgs as [|m msgs IH]; intros r; simpl; [reflexivity|].
  now rewrite IH.
Qed.

Lemma errors_add_errors i line msgs r :
  errors (add_all add_error i line msgs r)
  = (errors r
     ++ map (fun m => Build_ValidationError i ERROR m (Some line)) msgs)%list.
Proof.
  unfold add_all. revert r.
  induction msgs as [|m msgs IH]; intros r; simpl.
  - now rewrite app_nil_r.
  - rewrite IH. simpl. now rewrite <- app_assoc.
Qed.

Lemma array_header_errors line_text i :
  forall m, In m (fst (_validate_array_header line_text i)) ->
            m = InvalidArrayHeader
            /\ contains "[" line_text = true /\ contains "]" line_text = true.
Proof.
  unfold _validate_array_header.
  destruct (last_match primitive_header line_text); [intros m []|].
  destruct (last_match tabular_header line_text) as [[ds d]|];
    [intros m []|].
  destruct (last_match list_header line_text); [intros m []|].
  destruct (contains "[" line_text); [|intros m []].
  destruct (contains "]" line_text); [|intros m []].
  simpl. intros m [<-|[]]. auto.
Qed.

(** Below the level STRICT the only errors are those of the array headers:
    indentation and key-value findings are warnings. *)
Lemma validate_line_errors_lenient st i line st' :
  is_strict level = false ->
  validate_line level indent st i line = Some st' ->
  (forall e, In e (errors (result st)) -> header_error e) ->
  forall e, In e (errors (result st')) -> header_error e.
Proof.
  intros Hlevel. unfold validate_line. rewrite Hlevel.
  destruct (is_empty (strip line)); [now intros [= <-]|].
  destruct (_validate_indentation level indent line i 0) as [ierrs|];
    [|discriminate].
  intros Hst Hr. revert Hst.
  destruct (contains "[" (strip line) && contains "]" (strip line)
            && negb (in_array st)).
  - pose proof (array_header_errors (strip line) i) as Hhdr.
    destruct (_validate_array_header (strip line) i) as [aerrs inf].
    simpl in Hhdr.
    destruct inf; cbv beta iota; intros [= <-]; simpl;
      rewrite !errors_add_warnings;
      (destruct (contains ":" (strip line)
                 && negb (startswith "-" (strip line)));
       rewrite ?errors_add_warnings, errors_add_errors, errors_add_warnings);
      intros e He; apply in_app_iff in He as [He|He]; auto;
      apply in_map_iff in He as [m [<- Hm]]; apply Hhdr in Hm;
      (split; [apply Hm|exists line; simpl; tauto]).
  - cbv beta iota. intros [= <-]. simpl. rewrite !errors_add_warnings.
    destruct (contains ":" (strip line)
              && negb (startswith "-" (strip line)));
      rewrite ?errors_add_warnings; auto.
Qed.


Lemma validate_lines_errors_lenient lines :
  is_strict level = false ->
  forall st start st',
    validate_lines level indent st start lines = Some st' ->
    (forall e, In e (errors (result st)) -> header_error e) ->
    forall e, In e (errors (result st')) -> header_error e.
Proof.
  intros Hlevel. induction lines as [|l lines IH]; intros st start st'; simpl.
  - now intros [= <-].
  - destruct (validate_line level indent st start l) as [st1|] eqn:H1;
      [|discriminate].
    intros Hrun Hst. apply (IH _ _ _ Hrun).
    now apply (validate_line_errors_lenient _ _ _ _ Hlevel H1).
Qed.

(** validate raises exactly when a turn of its loop divides by 0. *)
Lemma validate_line_raises st i line :
  validate_line level indent st i line = None
  <-> is_empty (strip line) = false /\ level = STRICT /\ indent = 0%Z.
Proof.
  unfold validate_line, _validate_indentation.
  destruct (is_empty (strip line)).
  { split; [discriminate|intros [H _]; discriminate]. }
  assert (Hlevel : is_strict level = true <-> level = STRICT)
    by (destruct level; simpl; split; congruence).
  destruct (is_strict level).
  - destruct (Z.eqb_spec indent 0) as [H0|H0].
    + split; [intros _|reflexivity]. repeat split; tauto.
    + split; [|tauto]. intros H. exfalso. revert H.
      destruct (negb _);
        (destruct (contains "[" (strip line) && contains "]" (strip line)
                   && negb (in_array st));
         [destruct (_validate_array_header (strip line) i) as [a [inf|]]|]);
        discriminate.
  - split; [|intros [_ [H _]]; apply Hlevel in H; discriminate].
    intros H. exfalso. revert H.
    destruct (contains "[" (strip line) && contains "]" (strip line)
              && negb (in_array st));
      [destruct (_validate_array_header (strip line) i) as [a [inf|]]|];
      discriminate.
Qed.

Lemma validate_lines_raises lines :
  forall st start,
    validate_lines level indent st start lines = None
    <-> (exists line, In line lines /\ is_empty (strip line) = false)
        /\ level = STRICT /\ indent = 0%Z.
Proof.
  induction lines as [|l lines IH]; intros st start; simpl.
  - split; [discriminate|]. now intros [[line [[] _]] _].
  - destruct (validate_line level indent st start l) as [st1|] eqn:H1.
    + rewrite IH. split.
      * intros [[line [Hin Hb]] H]. split; [|assumption]. exists line. auto.
      * intros [[line [[<-|Hin] Hb]] H]; [|split; eauto].
        exfalso. assert (Hnone : validate_line level indent st start l = None)
          by (apply validate_line_raises; tauto).
        congruence.
    + apply validate_line_raises in H1 as [Hb H]. split; [intros _|reflexivity].
      split; [|assumption]. exists l. auto.
Qed.

End ValidatorInvariants.

Lemma validate_result_well_formed_witness :
  Validator.quick_validate Validator.STRICT 2 ("a: 1" ++ nl ++ "b: [x]")
  = Some false.
Proof.
  destruct (validate_result_well_formed Validator.STRICT 2
              ("a: 1" ++ nl ++ "b: [x]") _ eq_refl) as [_ [_ [_ [_ H]]]].
  exact H.
Defined.

Lemma validate_diagnostics_located_witness :
  located ["a: 1"; "b: True"]
    (warning_at 2 "b: True"
       (Validator.BooleanShouldBeLowercase "True" "true")).
Proof.
  apply (validate_diagnostics_located Validator.LENIENT 2
           ("a: 1" ++ nl ++ "b: True") _ eq_refl).
  right. now left.
Defined.

Lemma contains_lstrip_by p c s :
  contains c (lstrip_by p s) = true -> contains c s = true.
Proof.
  induction s as [|d s IH]; simpl; [discriminate|].
  destruct (p d); [|exact (fun H => H)].
  intros H. rewrite (IH H). apply orb_true_r.
Qed.

Lemma contains_rstrip_by p c s :
  contains c (rstrip_by p s) = true -> contains c s = true.
Proof.
  induction s as [|d s IH]; simpl; [discriminate|].
  destruct (rstrip_by p s) as [|e r] eqn:Hr.
  - destruct (p d); simpl; [discriminate|]. rewrite orb_false_r.
    intros ->. reflexivity.
  - simpl. simpl in IH. intros H. apply orb_true_iff in H as [H|H].
    + now rewrite H.
    + rewrite (IH H). apply orb_true_r.
Qed.

Lemma contains_strip c s :
  contains c (strip s) = true -> contains c s = true.
Proof.
  unfold strip, rstrip, lstrip. intros H.
  now apply contains_rstrip_by, contains_lstrip_by in H.
Qed.

Lemma contains_split sep c s :
  forall line, In line (split sep s) -> contains c line = true ->
               contains c s = true.
Proof.
  induction s as [|d s IH]; simpl.
  - intros line [<-|[]]. discriminate.
  - destruct (Ascii.eqb d sep).
    + intros line [<-|Hin]; [discriminate|]. intros H.
      rewrite (IH line Hin H). apply orb_true_r.
    + destruct (split sep s) as [|h t] eqn:Hs.
      * intros line [<-|[]]. simpl. rewrite orb_false_r.
        intros ->. reflexivity.
      * intros line [<-|Hin]; simpl.
        -- intros H. apply orb_true_iff in H as [H|H]; [now rewrite H|].
           rewrite (IH h (or_introl eq_refl) H). apply orb_true_r.
        -- intros H. rewrite (IH line (or_intror Hin) H). apply orb_true_r.
Qed.

(** X15.  Below the level STRICT validate returns on every text within
    the digit limit of int, its only errors are those of the array headers,
    and a text in which no '[' or no ']' occurs is valid. *)
Theorem lenient_errors_are_array_headers level indent toon_str :
  level <> Validator.STRICT ->
  within_digit_limit toon_str = true ->
  exists r,
    Validator.validate level indent toon_str = Some r
    /\ (forall e, In e (Validator.errors r) ->
                  Validator.message e = Validator.InvalidArrayHeader)
    /\ (contains "[" toon_str = false \/ contains "]" toon_str = false ->
        Validator.is_valid r = true).
Proof.
  intros Hlevel _.
  assert (Hstrict : Validator.is_strict level = false)
    by (destruct level; [contradiction| |]; reflexivity).
  unfold Validator.validate.
  destruct (Validator.validate_lines level indent
              {| Validator.result := Validator.empty_result;
                 Validator.in_array := false;
                 Validator.array_info := None |} 1
              (split newline toon_str)) as [st'|] eqn:Hrun.
  2:{ apply validate_lines_raises in Hrun. tauto. }
  assert (Herrs : forall e, In e (Validator.errors (Validator.result st')) ->
                            header_error e).
  { apply (validate_lines_errors_lenient level indent _ Hstrict _ _ _ Hrun).
    intros e []. }
  exists (Validator.result st'). split; [reflexivity|]. split.
  - intros e He. now apply Herrs.
  - intros Hnone.
    destruct (validate_lines_well_formed level indent _ _ Hrun) as [Hv _].
    rewrite Hv. unfold Validator.has_errors.
    destruct (Validator.errors (Validator.result st')) as [|e es] eqn:He;
      [reflexivity|].
    exfalso.
    destruct (Herrs e (or_introl eq_refl)) as [_ [line [Hctx [Hl Hr]]]].
    destruct (validate_lines_located level indent _ _ Hrun e)
      as [k [_ [Hk _]]].
    { left. rewrite He. now left. }
    rewrite Hctx in Hk. symmetry in Hk. apply nth_error_In in Hk.
    apply contains_strip in Hl, Hr.
    apply (contains_split newline _ _ _ Hk) in Hl.
    apply (contains_split newline _ _ _ Hk) in Hr.
    destruct Hnone; congruence.
Qed.

Lemma lenient_errors_are_array_headers_witness :
  exists r,
    Validator.validate Validator.LENIENT 2 ("a: 1" ++ nl ++ " b: 2") = Some r
    /\ (forall e, In e (Validator.errors r) ->
                  Validator.message e = Validator.InvalidArrayHeader)
    /\ (contains "[" ("a: 1" ++ nl ++ " b: 2") = false
        \/ contains "]" ("a: 1" ++ nl ++ " b: 2") = false ->
        Validator.is_valid r = true).
Proof.
  apply lenient_errors_are_array_headers; [discriminate|reflexivity].
Defined.

(** X16.  validate raises (ZeroDivisionError) exactly when the level is STRICT,
    the indent unit is 0 and a line of the text is not blank. *)
Theorem validate_raises_iff level indent toon_str :
  Validator.validate level indent toon_str = None
  <-> level = Validator.STRICT /\ indent = 0%Z
      /\ exists line, In line (split newline toon_str)
                      /\ is_empty (strip line) = false.
Proof.
  unfold Validator.validate.
  destruct (Validator.validate_lines level indent _ 1 (split newline toon_str))
    as [st'|] eqn:Hrun; simpl.
  - split; [discriminate|]. intros [H1 [H2 H3]].
    assert (Validator.validate_lines level indent
              {| Validator.result := Validator.empty_result;
                 Validator.in_array := false;
                 Validator.array_info := None |} 1
              (split newline toon_str) = None)
      by (apply validate_lines_raises; tauto).
    congruence.
  - apply validate_lines_raises in Hrun. tauto.
Qed.

(** ** encode_to_toon: data without a dict *)

Lemma format_value_object_free options (v : Value) :
  object_free v = true ->
  forall level, Parser.format_value options v level = [].
Proof.
  induction v as [|b|z|text|s|items _|elems IH] using Value_children_ind;
    try reflexivity; try discriminate.
  cbn [object_free Parser.format_value]. intros Hall level.
  induction IH as [|w l Hw _ IHl]; [reflexivity|].
  simpl in Hall. apply andb_true_iff in Hall as [Hfree Hrest].
  rewrite (Hw Hfree level), (IHl Hrest). reflexivity.
Qed.

(** X17.  encode_to_toon writes nothing for data in which no dict occurs: a
    scalar, a list of scalars and a list of such lists are encoded as the
    empty text, which decode_from_toon reads as the empty dict. *)
Theorem encode_without_dict_is_empty options decode_options (data : Value)
    fuel :
  object_free data = true ->
  Parser.encode_to_toon data options = ""
  /\ Parser.decode_from_toon (S (S fuel))
       (Parser.encode_to_toon data options) decode_options
     = Some (VObj []).
Proof.
  intros Hfree. unfold Parser.encode_to_toon.
  rewrite (format_value_object_free options data Hfree 0%Z).
  split; reflexivity.
Qed.

Lemma encode_without_dict_is_empty_witness :
  Parser.encode_to_toon (VArr [VInt 1; VArr [VStr "a"; VNull]])
    ToonEncodeOptions.default = ""
  /\ Parser.decode_from_toon 2
       (Parser.encode_to_toon (VArr [VInt 1; VArr [VStr "a"; VNull]])
          ToonEncodeOptions.default) ToonDecodeOptions.default
     = Some (VObj []).
Proof.
  apply (encode_without_dict_is_empty ToonEncodeOptions.default
           ToonDecodeOptions.default
           (VArr [VInt 1; VArr [VStr "a"; VNull]]) 0).
  reflexivity.
Defined.

(** ** Texts without a colon *)

Lemma decode_loop_without_colon options lines :
  (forall line, In line lines -> contains ":" (strip line) = false) ->
  forall fuel i,
    List.length lines - i < fuel ->
    Parser.decode_loop options fuel lines i [] = Some [].
Proof.
  intros Hfree. induction fuel as [|fuel IH]; intros i Hfuel; [lia|].
  simpl. unfold Parser.decode_step.
  destruct (nth_error lines i) as [line|] eqn:Hline; [|reflexivity].
  assert (Hi : i < List.length lines)
    by (apply nth_error_Some; congruence).
  apply nth_error_In in Hline. rewrite (Hfree line Hline).
  destruct (is_empty (strip line)); simpl; apply IH; lia.
Qed.

Lemma contains_join (c : ascii) (sep : string) (parts : list string) :
  contains c sep = false ->
  (forall p, In p parts -> contains c p = false) ->
  contains c (join sep parts) = false.
Proof.
  intros Hsep. induction parts as [|p parts IH]; [reflexivity|].
  intros Hall. destruct parts as [|q parts]; [apply Hall; now left|].
  change (join sep (p :: q :: parts)) with (p ++ sep ++ join sep (q :: parts)).
  rewrite !contains_app, Hsep, (Hall p (or_introl eq_refl)). simpl.
  apply IH. intros p' Hp'. apply Hall. now right.
Qed.

(** ** decode_from_toon: texts without a colon *)

(** A text in which no colon occurs is decoded as the empty dict. *)
Lemma decode_without_colon options toon_string fuel :
  contains ":" toon_string = false ->
  List.length (split newline (strip toon_string)) < fuel ->
  Parser.decode_from_toon fuel toon_string options = Some (VObj []).
Proof.
  intros Hfree Hfuel. unfold Parser.decode_from_toon.
  rewrite (decode_loop_without_colon options); [reflexivity| |lia].
  intros line Hin.
  destruct (contains ":" (strip line)) eqn:Hc; [|reflexivity].
  apply contains_strip in Hc.
  apply (contains_split newline _ _ _ Hin) in Hc.
  apply contains_strip in Hc. congruence.
Qed.

Lemma contains_spaces (c : ascii) (n : Z) :
  Ascii.eqb " " c = false -> contains c (spaces n) = false.
Proof.
  intros Hc. unfold spaces.
  induction (Z.to_nat n) as [|k IH]; [reflexivity|].
  cbn [repeat string_of_list_ascii contains]. now rewrite Hc.
Qed.

Lemma colon_free_str_int (z : Z) : contains ":" (str_int z) = false.
Proof.
  destruct (str_int_shape z) as [ds [Hall [_ [_ ->]]]].
  pose proof (contains_decimal ":" ds eq_refl Hall) as Hds.
  destruct (z <? 0)%Z; [simpl|]; exact Hds.
Qed.

Lemma colon_free_format_primitive (v : Value) :
  cell_colon_free v = true ->
  contains ":" (Parser._format_primitive v) = false.
Proof.
  destruct v as [|b|z|text|s|items|elems]; simpl; try discriminate.
  - reflexivity.
  - now destruct b.
  - intros _. apply colon_free_str_int.
  - unfold colon_free. now intros H%negb_true_iff.
  - unfold colon_free. intros H%negb_true_iff.
    destruct (Parser._needs_quotes s); [|assumption].
    simpl. rewrite contains_app, H. reflexivity.
Qed.

Lemma colon_free_row_cells (ks : list string) (item : Value) :
  row_colon_free item = true ->
  forall cell, In cell (Parser.row_cells ks item) ->
               contains ":" cell = false.
Proof.
  destruct item as [| | | | |d|]; try discriminate. simpl. intros Hrow.
  rewrite forallb_forall in Hrow.
  intros cell Hcell. apply in_map_iff in Hcell as [k [<- _]].
  destruct (dict_get k d) as [v|] eqn:Hget; [|reflexivity].
  apply dict_get_In in Hget as [k' Hin].
  apply Hrow in Hin. apply andb_true_iff in Hin as [_ Hv].
  now apply colon_free_format_primitive.
Qed.

(** X18.  A text in which no colon occurs is decoded as the empty dict; so
    is the encoding of a table (a list of dicts with the keys of the first
    one) under a key, whenever no colon occurs in the key, the delimiter,
    the column names and the cells: the rows are lost there and back. *)
Theorem table_decodes_to_empty_dict :
  (forall options toon_string fuel,
      contains ":" toon_string = false ->
      List.length (split newline (strip toon_string)) < fuel ->
      Parser.decode_from_toon fuel toon_string options = Some (VObj []))
  /\ (forall encode_options decode_options key first rest fuel,
         let arr := VObj first :: rest in
         let text :=
           Parser.encode_to_toon (VObj [(key, VArr arr)]) encode_options in
         Parser.uniform first arr = true ->
         colon_free key = true ->
         colon_free (ToonEncodeOptions.delimiter encode_options) = true ->
         forallb row_colon_free arr = true ->
         List.length (split newline (strip text)) < fuel ->
         Parser.decode_from_toon fuel text decode_options = Some (VObj [])).
Proof.
  split; [intros; now apply decode_without_colon|].
  intros eo dopts key first rest fuel arr text Huniform Hkey Hdelim Hrows
    Hfuel.
  apply decode_without_colon; [|assumption].
  unfold colon_free in Hkey, Hdelim.
  apply negb_true_iff in Hkey, Hdelim.
  subst text. unfold Parser.encode_to_toon.
  assert (Hlines :
            Parser.format_value eo (VObj [(key, VArr arr)]) 0
            = Parser.tabular_lines eo "" key first arr).
  { subst arr. cbn [Parser.format_value].
    rewrite Huniform, Z.mul_0_r, app_nil_r. reflexivity. }
  rewrite Hlines. apply contains_join; [reflexivity|].
  assert (Hfirst : row_colon_free (VObj first) = true).
  { subst arr. simpl in Hrows. now apply andb_true_iff in Hrows as [H _]. }
  unfold Parser.tabular_lines. intros line [<-|[<-|Hin]].
  - rewrite !contains_app, Hkey, Hdelim. unfold str_nat.
    rewrite colon_free_str_int. unfold Parser.length_prefix.
    now destruct (ToonEncodeOptions.length_marker eo).
  - rewrite !contains_app. cbn [append contains].
    rewrite (contains_spaces ":" _ eq_refl). simpl.
    apply contains_join; [assumption|].
    intros k Hk. unfold keys in Hk. apply in_map_iff in Hk as [kv [<- Hkv]].
    simpl in Hfirst. rewrite forallb_forall in Hfirst.
    apply Hfirst in Hkv. apply andb_true_iff in Hkv as [H _].
    now apply negb_true_iff in H.
  - apply in_map_iff in Hin as [item [<- Hitem]].
    rewrite !contains_app. cbn [append contains].
    rewrite (contains_spaces ":" _ eq_refl). simpl.
    apply contains_join; [assumption|].
    apply colon_free_row_cells.
    rewrite forallb_forall in Hrows. now apply Hrows.
Qed.

Lemma table_decodes_to_empty_dict_witness :
  Parser.decode_from_toon 6
    (Parser.encode_to_toon (VObj [("users", VArr [alice; bob; carol])])
       ToonEncodeOptions.default) ToonDecodeOptions.default
  = Some (VObj []).
Proof.
  apply (proj2 table_decodes_to_empty_dict ToonEncodeOptions.default
           ToonDecodeOptions.default "users"
           [("id", VInt 1); ("name", VStr "Alice")] [bob; carol] 6);
    try reflexivity.
  vm_compute. lia.
Defined.

(** ** toon_validator.py: the convenience functions and the rule for quotes *)

(** X19.  validate_toon and is_valid_toon return on every text within the
    digit limit of int, in strict and in lenient mode: the validator they
    build has the indent unit 2; and is_valid_toon returns whether the
    result of validate_toon holds no error. *)
Theorem validate_toon_returns (toon_str : string) (strict : bool) :
  within_digit_limit toon_str = true ->
  exists r,
    Validator.validate_toon toon_str strict = Some r
    /\ Validator.is_valid_toon toon_str strict
       = Some (negb (Validator.has_errors r)).
Proof.
  intros _.
  unfold Validator.is_valid_toon, Validator.validate_toon, Validator.validate.
  destruct (Validator.validate_lines _ 2 _ 1 (split newline toon_str))
    as [st'|] eqn:Hrun.
  - exists (Validator.result st'). split; [reflexivity|]. simpl.
    now destruct (validate_lines_well_formed _ _ _ _ Hrun) as [-> _].
  - apply validate_lines_raises in Hrun as [_ [_ H]]. discriminate.
Qed.

Lemma validate_toon_returns_witness :
  exists r,
    Validator.validate_toon ("users [2,]" ++ nl ++ "  id, name") true = Some r
    /\ Validator.is_valid_toon ("users [2,]" ++ nl ++ "  id, name") true
       = Some (negb (Validator.has_errors r)).
Proof.
  apply validate_toon_returns. reflexivity.
Defined.

Lemma all_chars_replace_empty (p : ascii -> bool) (c : ascii) (s : string) :
  all_chars p (replace c "" s) = true ->
  all_chars (fun x => p x || Ascii.eqb x c) s = true.
Proof.
  induction s as [|d s IH]; simpl; [reflexivity|].
  destruct (Ascii.eqb d c); simpl.
  - intros H. rewrite orb_true_r. now apply IH.
  - intros H. apply andb_true_iff in H as [Hd Hs].
    rewrite Hd. now apply IH.
Qed.

Lemma contains_all_chars (p : ascii -> bool) (c : ascii) (s : string) :
  p c = false -> all_chars p s = true -> contains c s = false.
Proof.
  intros Hc. induction s as [|d s IH]; simpl; [reflexivity|]. intros Hall.
  apply andb_true_iff in Hall as [Hd Hs].
  destruct (Ascii.eqb_spec d c) as [->|_]; [congruence|]. now apply IH.
Qed.

Lemma replace_absent (c : ascii) (new s : string) :
  contains c s = false -> replace c new s = s.
Proof.
  induction s as [|d s IH]; simpl; [reflexivity|].
  destruct (Ascii.eqb d c); simpl; [discriminate|].
  intros H. now rewrite IH.
Qed.

(** A string that is digits once every '.' and '-' is taken out: it is not
    empty and holds digits, '.' and '-' only. *)
Lemma number_like_chars (s : string) :
  isdigit (replace "-" "" (replace "." "" s)) = true ->
  exists c r, s = String c r /\ all_chars is_number_char s = true.
Proof.
  intros H.
  assert (Hall : all_chars isdigit_char (replace "-" "" (replace "." "" s))
                 = true).
  { unfold isdigit in H.
    destruct (replace "-" "" (replace "." "" s)); [discriminate|exact H]. }
  apply all_chars_replace_empty, all_chars_replace_empty in Hall.
  destruct s as [|c r]; [discriminate|]. exists c, r. split; [reflexivity|].
  exact Hall.
Qed.

Lemma number_like_not_reserved (c : ascii) (r : string) :
  is_number_char c = true ->
  mem (lower (String c r)) ["true"; "false"; "null"] = false.
Proof.
  destruct c as [[] [] [] [] [] [] [] []]; intros H; try discriminate H;
    reflexivity.
Qed.

Lemma escape_number_like (s : string) :
  all_chars is_number_char s = true -> OldParser.escape s = s.
Proof.
  intros Hall. unfold OldParser.escape.
  rewrite (replace_absent backslash _ s), (replace_absent dquote _ s),
    (replace_absent newline _ s), (replace_absent tab _ s);
    try reflexivity; now apply (contains_all_chars is_number_char).
Qed.

(** X20.  The validator's rule for quotes is that of _encode_string, the
    delimiter apart, but for the strings that are digits once every '.'
    and '-' is taken out: _encode_string puts them in quotes, so that they
    are read back as strings, and on the line it writes the validator
    warns that the quotes are unnecessary. *)
Theorem validator_flags_quoted_numbers (self : OldParser.ToonParser)
    (s : string) :
  (isdigit (replace "-" "" (replace "." "" s)) = false ->
   is_substring (OldParser.delimiter self) s = false ->
   Validator._needs_quotes s = OldParser.needs_quoting self s)
  /\ (isdigit (replace "-" "" (replace "." "" s)) = true ->
      OldParser._encode_string self s = quoted s
      /\ OldParser._parse_value (quoted s) = VStr s
      /\ forall key n,
           contains ":" key = false -> startswith "-" key = false ->
           Validator._check_quoting
             (key ++ ": " ++ OldParser._encode_string self s) n
           = [Validator.UnnecessaryQuotes (quoted s)]).
Proof.
  split.
  - intros Hd Hsub.
    unfold Validator._needs_quotes, OldParser.needs_quoting.
    change Validator.reserved_keywords with OldParser.reserved_keywords.
    rewrite Hd, Hsub.
    destruct (is_empty s); [reflexivity|].
    destruct (mem (lower s) OldParser.reserved_keywords); [reflexivity|].
    simpl. destruct (negb (String.eqb s (strip s))); [reflexivity|].
    simpl. now rewrite !orb_false_r.
  - intros Hd.
    destruct (number_like_chars s Hd) as [c [r [Hs Hall]]].
    assert (Hc : is_number_char c = true)
      by (rewrite Hs in Hall; simpl in Hall;
          now apply andb_true_iff in Hall as [? _]).
    assert (Hres : mem (lower s) ["true"; "false"; "null"] = false)
      by (rewrite Hs; now apply number_like_not_reserved).
    assert (Henc : OldParser._encode_string self s = quoted s).
    { unfold OldParser._encode_string, OldParser.needs_quoting.
      rewrite Hd, (escape_number_like s Hall).
      rewrite !orb_true_r. reflexivity. }
    assert (Hbs : contains backslash s = false)
      by (now apply (contains_all_chars is_number_char)).
    split; [exact Henc|]. split.
    { rewrite _parse_value_quoted. f_equal.
      rewrite <- (escape_number_like s Hall) at 1.
      now apply unescape_escape. }
    intros key n Hkey Hdash. rewrite Henc.
    unfold Validator._check_quoting.
    assert (Hline : contains ":" (key ++ ": " ++ quoted s) = true)
      by (rewrite contains_app; simpl; apply orb_true_r).
    assert (Hstart : startswith "-" (key ++ ": " ++ quoted s) = false).
    { destruct key as [|k0 kr]; [reflexivity|].
      unfold startswith in *. cbn [String.prefix append] in *.
      destruct (ascii_dec "-" k0); [|reflexivity].
      exfalso. destruct kr; discriminate. }
    rewrite Hline, Hstart. cbn [negb orb].
    change (key ++ ": " ++ quoted s)
      with (key ++ String ":" (String " " (quoted s))).
    rewrite (partition_app_sep ":" key _ Hkey). cbn [snd].
    rewrite (strip_after_colon _ (trimmed_quoted s)).
    unfold ends_char. rewrite last_char_quoted, slice_quoted.
    assert (Hv : Validator._needs_quotes s = false).
    { unfold Validator._needs_quotes. rewrite Hs at 1. cbn [is_empty].
      change Validator.reserved_keywords with ["true"; "false"; "null"].
      now rewrite Hres, Hd. }
    rewrite Hv. reflexivity.
Qed.

Lemma validator_flags_quoted_numbers_witness :
  Validator._check_quoting
    ("zip: " ++ OldParser._encode_string OldParser.default "02134") 1
  = [Validator.UnnecessaryQuotes (quoted "02134")].
Proof.
  apply (proj2 (proj2 (proj2 (validator_flags_quoted_numbers
                                OldParser.default "02134") eq_refl))
           "zip" 1); reflexivity.
Defined.

(** ** decode_from_toon: a dict under a key *)

Lemma lstrip_spaces (n : Z) (t : string) :
  trimmed t -> lstrip (spaces n ++ t) = t.
Proof.
  intros Ht. unfold spaces, lstrip.
  induction (Z.to_nat n) as [|k IH]; [exact (lstrip_trimmed t Ht)|].
  exact IH.
Qed.

Lemma strip_spaces (n : Z) (t : string) :
  trimmed t -> strip (spaces n ++ t) = t.
Proof.
  intros Ht. unfold strip. rewrite (lstrip_spaces n t Ht).
  rewrite <- (lstrip_trimmed t Ht) at 1. exact (strip_trimmed t Ht).
Qed.

Lemma length_spaces (n : Z) : String.length (spaces n) = Z.to_nat n.
Proof.
  unfold spaces. rewrite length_string_of_list. apply repeat_length.
Qed.

Lemma indent_of_spaces (n : Z) (t : string) :
  trimmed t -> indent_of (spaces n ++ t) = Z.to_nat n.
Proof.
  intros Ht. unfold indent_of.
  rewrite (lstrip_spaces n t Ht), string_length_app, length_spaces. lia.
Qed.

(** The join of lines of which the first starts, and each ends, with a
    character that is not white space. *)
Lemma join_ends_trimmed (sep : string) (ls : list string) :
  ls <> [] ->
  Forall (fun l => exists cl, last_char l = Some cl /\ isspace cl = false)
    ls ->
  exists cl, last_char (join sep ls) = Some cl /\ isspace cl = false.
Proof.
  induction ls as [|l ls IH]; [congruence|]. intros _ Hall.
  inversion Hall as [|? ? Hl Hls]; subst.
  destruct ls as [|l' ls]; [exact Hl|].
  change (join sep (l :: l' :: ls)) with (l ++ sep ++ join sep (l' :: ls)).
  destruct (IH ltac:(discriminate) Hls) as [cl [Hcl Hsp]].
  exists cl. split; [|assumption].
  assert (Hne : join sep (l' :: ls) <> "")
    by (intros E; rewrite E in Hcl; discriminate).
  rewrite !last_char_app; [assumption|assumption|].
  destruct sep; [exact Hne|discriminate].
Qed.

Lemma join_trimmed (sep : string) (c : ascii) (r : string)
    (ls : list string) :
  isspace c = false ->
  Forall (fun l => exists cl, last_char l = Some cl /\ isspace cl = false)
    (String c r :: ls) ->
  trimmed (join sep (String c r :: ls)).
Proof.
  intros Hc Hall.
  destruct (join_ends_trimmed sep (String c r :: ls) ltac:(discriminate) Hall)
    as [cl [Hcl Hsp]].
  destruct ls as [|l ls].
  - now exists c, r, cl.
  - change (join sep (String c r :: l :: ls))
      with (String c (r ++ sep ++ join sep (l :: ls))) in *.
    now exists c, (r ++ sep ++ join sep (l :: ls)), cl.
Qed.

Lemma trimmed_last (s : string) :
  trimmed s -> exists cl, last_char s = Some cl /\ isspace cl = false.
Proof. intros [c0 [r [cl [_ [_ H]]]]]. now exists cl. Qed.

Section NestedObject.
Variable encode_options : ToonEncodeOptions.t.
Variable decode_options : ToonDecodeOptions.t.
Variable key : string.
Variable items : dict.
Hypothesis Hkey : line_key key = true.
Hypothesis Hitems : flat_entries items = true.
Hypothesis Hnodup : NoDup (keys items).
Hypothesis Hwide : (1 <= ToonEncodeOptions.indent encode_options)%Z.
Hypothesis Hdeep :
  (ToonDecodeOptions.indent decode_options
   <= ToonEncodeOptions.indent encode_options)%Z.

Let lines : list string :=
  (key ++ ":") :: map (nested_line encode_options) items.

Lemma nested_lines_format :
  Parser.format_value encode_options (VObj [(key, VObj items)]) 0 = lines.
Proof.
  unfold lines. cbn [Parser.format_value].
  rewrite Z.mul_0_r, app_nil_r. change (spaces 0) with "".
  cbn [append]. f_equal.
  clear Hnodup. revert Hitems. generalize items as its.
  induction its as [|[k v] its IH]; [reflexivity|]. intros Hall.
  unfold flat_entries in Hall. simpl in Hall.
  apply andb_true_iff in Hall as [Hkv Hrest].
  apply andb_true_iff in Hkv as [_ Hv].
  cbn [map]. rewrite <- (IH Hrest).
  destruct v as [|b|z|text|s|its'|elems]; try discriminate; reflexivity.
Qed.

Lemma item_facts k v :
  In (k, v) items -> line_key k = true /\ line_scalar v = true.
Proof.
  intros Hin. unfold flat_entries in Hitems.
  rewrite forallb_forall in Hitems. specialize (Hitems _ Hin).
  now apply andb_true_iff in Hitems.
Qed.

Lemma key_line_trimmed : trimmed (key ++ ":").
Proof.
  unfold line_key in Hkey.
  apply andb_true_iff in Hkey as [H _].
  apply andb_true_iff in H as [H _].
  apply andb_true_iff in H as [H _].
  apply andb_true_iff in H as [Hstrip _].
  apply String.eqb_eq in Hstrip.
  assert (Hc : trimmed ":") by (now exists ":"%char, "", ":"%char).
  destruct (strip_fixed key Hstrip) as [->|Hk]; [exact Hc|].
  change (key ++ ":") with (key ++ "" ++ ":"). now apply trimmed_app.
Qed.

(** The loop of _parse_nested_object on the lines of the entries. *)
Lemma nested_object_loop_entries base :
  (base <= ToonEncodeOptions.indent encode_options)%Z ->
  forall post pre i,
    items = List.app pre post ->
    Parser.nested_object_loop (map (nested_line encode_options) post) i base
      pre
    = (items, i + List.length post).
Proof.
  intros Hbase. induction post as [|[k v] post IH]; intros pre i Hsplit.
  - rewrite app_nil_r in Hsplit. subst pre. simpl. f_equal. lia.
  - assert (Hin : In (k, v) items)
      by (rewrite Hsplit; apply in_or_app; right; now left).
    destruct (item_facts k v Hin) as [Hk Hv].
    destruct (entry_line_facts k v Hk Hv)
      as [Ht [_ [Hcolon [_ [Hpart [Hstrip _]]]]]].
    destruct (line_scalar_text v Hv) as [Hft [_ Hparse]].
    cbn [map Parser.nested_object_loop].
    assert (Hs : strip (nested_line encode_options (k, v))
                 = entry_line (k, v)) by apply (strip_spaces _ _ Ht).
    assert (Hi : indent_of (nested_line encode_options (k, v))
                 = Z.to_nat (ToonEncodeOptions.indent encode_options
                             * (0 + 1))) by apply (indent_of_spaces _ _ Ht).
    rewrite !Hs, Hi.
    destruct Ht as [c0 [r [cl [Hshape _]]]].
    rewrite Hshape at 1. cbn [is_empty].
    assert (Hge : (Z.of_nat
                     (Z.to_nat (ToonEncodeOptions.indent encode_options
                                * (0 + 1)))
                   <? base)%Z = false)
      by (apply Z.ltb_ge; lia).
    rewrite Hge, Hcolon, Hpart, Hstrip, (strip_after_colon _ Hft), Hparse.
    assert (Hnew : ~ In k (keys pre)).
    { unfold keys in *. rewrite Hsplit, map_app in Hnodup. simpl in Hnodup.
      apply NoDup_remove_2 in Hnodup. intros Hc. apply Hnodup.
      apply in_or_app. now left. }
    rewrite (dict_set_new k v pre Hnew), (IH (List.app pre [(k, v)]) (S i));
      [|now rewrite <- app_assoc].
    f_equal. simpl. lia.
Qed.

Lemma nested_lines_stripped :
  items <> [] ->
  split newline (strip (join (chr newline) lines)) = lines.
Proof.
  intros Hne.
  assert (Hlast : Forall (fun l => exists cl, last_char l = Some cl
                                              /\ isspace cl = false) lines).
  { unfold lines. constructor; [apply trimmed_last, key_line_trimmed|].
    apply Forall_forall. intros l Hl. apply in_map_iff in Hl.
    destruct Hl as [[k v] [<- Hin]].
    destruct (item_facts k v Hin) as [Hk Hv].
    destruct (entry_line_facts k v Hk Hv) as [Ht _].
    destruct (trimmed_last _ Ht) as [cl [Hcl Hsp]].
    exists cl. split; [|assumption]. unfold nested_line.
    rewrite last_char_app; [assumption|].
    destruct Ht as [c0 [r [_ [-> _]]]]. discriminate. }
  assert (Htrim : trimmed (join (chr newline) lines)).
  { unfold lines in *. destruct key_line_trimmed as [c [r [cl [Hs [Hc _]]]]].
    rewrite Hs in *. now apply join_trimmed. }
  rewrite (strip_trimmed _ Htrim).
  apply split_join_lines; [discriminate|].
  unfold lines. cbn [forallb]. apply andb_true_iff. split.
  - unfold line_key in Hkey.
    apply andb_true_iff in Hkey as [H _].
    apply andb_true_iff in H as [_ Hnl].
    now rewrite no_newline_app, Hnl.
  - apply forallb_forall. intros l Hl. apply in_map_iff in Hl.
    destruct Hl as [[k v] [<- Hin]].
    destruct (item_facts k v Hin) as [Hk Hv].
    destruct (entry_line_facts k v Hk Hv) as [_ [Hnl _]].
    unfold nested_line. now rewrite no_newline_app, no_newline_spaces, Hnl.
Qed.

(** The three turns of the loop of decode_from_toon on the lines of a dict
    under a key: the dict is stored, and then its last entry is read a
    second time, as an entry of the result. *)
Lemma decode_loop_nested front k v fuel :
  items = List.app front [(k, v)] ->
  3 <= fuel ->
  Parser.decode_loop decode_options fuel lines 0 []
  = Some (dict_set k v [(key, VObj items)]).
Proof.
  intros Hsplit Hfuel.
  assert (Hin : In (k, v) items)
    by (rewrite Hsplit; apply in_or_app; right; now left).
  destruct (item_facts k v Hin) as [Hk Hv].
  destruct (entry_line_facts k v Hk Hv)
    as [Ht [_ [Hcolon [Hdash [Hpart [Hstrip Hbr]]]]]].
  destruct (line_scalar_text v Hv) as [Hft [_ Hparse]].
  assert (Hn : List.length items = S (List.length front))
    by (rewrite Hsplit, length_app; simpl; lia).
  assert (Hpos : 0 < Z.to_nat (ToonEncodeOptions.indent encode_options
                               * (0 + 1))) by lia.
  (* the first turn: the line of the key *)
  assert (Hstep1 : Parser.decode_step decode_options lines 0 []
                   = Some (Parser.Next (List.length items)
                             [(key, VObj items)])).
  { unfold Parser.decode_step. cbn [nth_error lines].
    pose proof key_line_trimmed as Hkt.
    rewrite (strip_trimmed _ Hkt), (indent_of_trimmed _ Hkt).
    destruct Hkt as [c0 [r [cl [Hshape _]]]].
    rewrite Hshape at 1. cbn [is_empty]. clear Hshape.
    assert (Hkc : contains ":" (key ++ ":") = true)
      by (rewrite contains_app; simpl; apply orb_true_r).
    assert (Hkd : startswith "-" (key ++ ":") = false).
    { unfold line_key in Hkey. apply andb_true_iff in Hkey as [_ Hd].
      apply negb_true_iff in Hd.
      destruct key as [|k0 kr]; [reflexivity|].
      unfold startswith in *. cbn [String.prefix append] in *.
      destruct (ascii_dec "-" k0); [|reflexivity].
      exfalso. destruct kr; discriminate. }
    assert (Hkp : partition ":" (key ++ ":") = (key, "")).
    { change (key ++ ":") with (key ++ String ":" "").
      apply partition_app_sep.
      unfold line_key in Hkey.
      apply andb_true_iff in Hkey as [H _].
      apply andb_true_iff in H as [H _].
      apply andb_true_iff in H as [H _].
      apply andb_true_iff in H as [_ Hc]. now apply negb_true_iff in Hc. }
    assert (Hks : strip key = key).
    { unfold line_key in Hkey.
      apply andb_true_iff in Hkey as [H _].
      apply andb_true_iff in H as [H _].
      apply andb_true_iff in H as [H _].
      apply andb_true_iff in H as [H _]. now apply String.eqb_eq in H. }
    rewrite Hkc, Hkd, Hkp, Hks. cbn [negb andb].
    assert (Hcons : exists k1 v1 rest, items = (k1, v1) :: rest).
    { rewrite Hsplit. destruct front as [|[k1 v1] f']; simpl; eauto. }
    destruct Hcons as [k1 [v1 [rest Hits]]].
    assert (Hmap : map (nested_line encode_options) items
                   = nested_line encode_options (k1, v1)
                     :: map (nested_line encode_options) rest)
      by (rewrite Hits; reflexivity).
    change (0 + 1) with 1. unfold lines at 1. cbn [nth_error].
    rewrite Hmap at 1. cbn [nth_error].
    assert (Hin1 : In (k1, v1) items) by (rewrite Hits; now left).
    destruct (item_facts k1 v1 Hin1) as [Hk1 Hv1].
    destruct (entry_line_facts k1 v1 Hk1 Hv1) as [Ht1 _].
    assert (Hi1 : indent_of (nested_line encode_options (k1, v1))
                  = Z.to_nat (ToonEncodeOptions.indent encode_options
                              * (0 + 1))) by apply (indent_of_spaces _ _ Ht1).
    rewrite Hi1.
    assert (Hlt : (0 <? Z.to_nat (ToonEncodeOptions.indent encode_options
                                  * (0 + 1)))%nat = true)
      by (apply Nat.ltb_lt; lia).
    rewrite Hlt. unfold Parser._parse_nested_object, lines. cbn [skipn].
    rewrite (nested_object_loop_entries
               (Z.of_nat 0 + ToonDecodeOptions.indent decode_options)
               ltac:(lia) items [] 1 eq_refl).
    cbn [dict_set]. do 3 f_equal. simpl. lia. }
  (* the second turn: the line of the last entry, once more *)
  assert (Hline : nth_error lines (List.length items)
                  = Some (nested_line encode_options (k, v))).
  { unfold lines. rewrite Hn. cbn [nth_error].
    rewrite Hsplit, map_app, nth_error_app2; rewrite length_map; [|lia].
    now rewrite Nat.sub_diag. }
  assert (Hend : nth_error lines (List.length items + 1) = None).
  { apply nth_error_None. unfold lines. simpl. rewrite length_map. lia. }
  assert (Hstep2 : forall result,
             Parser.decode_step decode_options lines (List.length items)
               result
             = Some (Parser.Next (List.length items + 1)
                       (dict_set k v result))).
  { intros result. unfold Parser.decode_step. rewrite Hline, Hend.
    assert (Hs : strip (nested_line encode_options (k, v))
                 = entry_line (k, v)) by apply (strip_spaces _ _ Ht).
    rewrite !Hs.
    destruct Ht as [c0 [r [cl [Hshape _]]]].
    rewrite Hshape at 1. cbn [is_empty].
    rewrite Hcolon, Hdash. cbn [negb andb].
    rewrite Hpart, Hstrip, Hbr, (strip_after_colon _ Hft), Hparse.
    reflexivity. }
  destruct fuel as [|[|[|fuel]]]; try lia.
  cbn [Parser.decode_loop]. rewrite Hstep1, Hstep2.
  unfold Parser.decode_step. now rewrite Hend.
Qed.

End NestedObject.

(** X21.  A dict of line scalars that stands under a key is not decoded from
    its encoding as it was: where the indent unit of the encoder is 1 at
    least and that of the decoder is not greater, decode_from_toon stores
    the dict under the key and then reads the last line again, so that the
    last entry of the dict also becomes an entry of the result (or takes
    the place of the dict, under the same key). *)
Theorem nested_object_round_trip_fails encode_options decode_options key
    front k v fuel :
  let items := List.app front [(k, v)] in
  line_key key = true -> flat_entries items = true -> NoDup (keys items) ->
  (1 <= ToonEncodeOptions.indent encode_options)%Z ->
  (ToonDecodeOptions.indent decode_options
   <= ToonEncodeOptions.indent encode_options)%Z ->
  3 <= fuel ->
  Parser.decode_from_toon fuel
    (Parser.encode_to_toon (VObj [(key, VObj items)]) encode_options)
    decode_options
  = Some (VObj (dict_set k v [(key, VObj items)]))
  /\ dict_set k v [(key, VObj items)] <> [(key, VObj items)].
Proof.
  intros items Hkey Hitems Hnodup Hwide Hdeep Hfuel. split.
  - unfold Parser.decode_from_toon, Parser.encode_to_toon.
    rewrite (nested_lines_format encode_options key items Hitems).
    rewrite (nested_lines_stripped encode_options key items Hkey Hitems);
      [|subst items; destruct front; discriminate].
    rewrite (decode_loop_nested encode_options decode_options key items
               Hkey Hitems Hnodup Hwide Hdeep front k v fuel eq_refl Hfuel).
    reflexivity.
  - assert (Hv : line_scalar v = true).
    { unfold flat_entries in Hitems. rewrite forallb_forall in Hitems.
      assert (Hin : In (k, v) items)
        by (subst items; apply in_or_app; right; now left).
      specialize (Hitems _ Hin). now apply andb_true_iff in Hitems as [_ ?]. }
    simpl. destruct (String.eqb key k).
    + intros [= E]. rewrite E in Hv. discriminate.
    + discriminate.
Qed.

Lemma nested_object_round_trip_fails_witness :
  Parser.decode_from_toon 3
    (Parser.encode_to_toon
       (VObj [("user", VObj [("id", VInt 1); ("name", VStr "Ada")])])
       ToonEncodeOptions.default) ToonDecodeOptions.default
  = Some (VObj [("user", VObj [("id", VInt 1); ("name", VStr "Ada")]);
                ("name", VStr "Ada")]).
Proof.
  apply (nested_object_round_trip_fails ToonEncodeOptions.default
           ToonDecodeOptions.default "user" [("id", VInt 1)] "name"
           (VStr "Ada") 3); try reflexivity; try (simpl; lia).
  repeat constructor; simpl; intuition discriminate.
Defined.

(** ** _parse_primitive_array *)

Lemma string_app_assoc (a b c : string) : (a ++ b) ++ c = a ++ b ++ c.
Proof. induction a as [|x a IH]; simpl; [reflexivity|now rewrite IH]. Qed.

Lemma split_join_commas (ts : list string) :
  (forall t, In t ts -> contains "," t = false) ->
  forall p t1,
    contains "," p = false -> contains "," t1 = false ->
    split "," (p ++ join ", " (t1 :: ts))
    = (p ++ t1) :: map (fun t => String " " t) ts.
Proof.
  induction ts as [|t ts IH]; intros Hall p t1 Hp Ht1.
  - cbn [join map]. apply split_without_sep.
    now rewrite contains_app, Hp, Ht1.
  - change (p ++ join ", " (t1 :: t :: ts))
      with (p ++ t1 ++ String "," (" " ++ join ", " (t :: ts))).
    rewrite <- string_app_assoc.
    rewrite split_app_sep by (now rewrite contains_app, Hp, Ht1).
    rewrite (IH (fun t' H' => Hall t' (or_intror H')) " " t eq_refl
               (Hall t (or_introl eq_refl))).
    reflexivity.
Qed.

(** X22.  _parse_primitive_array reads back the scalars of an array from the
    text the encoder writes for them, joined by a comma and a space, when
    no comma occurs in the text of a scalar. *)
Theorem primitive_array_text_round_trip (elems : list Value) :
  forallb array_scalar elems = true ->
  Parser._parse_primitive_array
    (join ", " (map Parser._format_primitive elems))
  = elems.
Proof.
  intros Hall. destruct elems as [|v vs]; [reflexivity|].
  cbn [map]. simpl in Hall. apply andb_true_iff in Hall as [Hv Hvs].
  apply andb_true_iff in Hv as [Hv Hvc]. apply negb_true_iff in Hvc.
  rewrite forallb_forall in Hvs.
  assert (Hcommas : forall t, In t (map Parser._format_primitive vs) ->
                              contains "," t = false).
  { intros t Ht. apply in_map_iff in Ht as [w [<- Hw]].
    specialize (Hvs w Hw). apply andb_true_iff in Hvs as [_ H].
    now apply negb_true_iff in H. }
  pose proof (split_join_commas _ Hcommas "" _ eq_refl Hvc) as Hsplit.
  cbn [append] in Hsplit.
  unfold Parser._parse_primitive_array. rewrite Hsplit.
  assert (Htext : forall w, line_scalar w = true ->
             strip (Parser._format_primitive w) = Parser._format_primitive w
             /\ strip (String " " (Parser._format_primitive w))
                = Parser._format_primitive w
             /\ is_empty (Parser._format_primitive w) = false
             /\ Parser._parse_primitive (Parser._format_primitive w) = w).
  { intros w Hw. destruct (line_scalar_text w Hw) as [Ht [_ Hparse]].
    split; [apply (strip_trimmed _ Ht)|].
    split; [apply (strip_after_colon _ Ht)|]. split; [|assumption].
    destruct Ht as [c0 [r [_ [-> _]]]]. reflexivity. }
  destruct (Htext v Hv) as [Hs [_ [Hne Hparse]]].
  cbn [filter map]. rewrite Hs, Hne. cbn [negb map]. rewrite Hs, Hparse.
  f_equal. clear Hsplit Hcommas.
  induction vs as [|w ws IH]; [reflexivity|].
  assert (Hw : line_scalar w = true).
  { specialize (Hvs w (or_introl eq_refl)).
    now apply andb_true_iff in Hvs as [? _]. }
  destruct (Htext w Hw) as [Hws [Hws' [Hwne Hwp]]].
  cbn [map filter]. rewrite Hws', Hwne. cbn [negb map].
  rewrite Hws', Hwp.
  f_equal. apply IH. intros x Hx. apply Hvs. now right.
Qed.

Lemma primitive_array_text_round_trip_witness :
  Parser._parse_primitive_array
    (join ", "
       (map Parser._format_primitive [VInt 100; VStr "a b"; VNull; VBool true]))
  = [VInt 100; VStr "a b"; VNull; VBool true].
Proof.
  apply primitive_array_text_round_trip. reflexivity.
Defined.

(** ** toon_parser-old.py: the encoder returns *)

Section EncoderFacts.
Import OldParser.
Variable self : ToonParser.

Lemma _encode_value_dict obj level :
  _encode_value self (PDict obj) level
  = do lines <- encode_entries self level obj; Ok (join (chr newline) lines).
Proof. reflexivity. Qed.

Lemma _encode_value_list arr level :
  _encode_value self (PList arr) level
  = match arr with
    | [] => Ok "[0]"
    | _ =>
        match _detect_array_type arr with
        | PRIMITIVE => _encode_primitive_array self arr
        | TABULAR => _encode_tabular_array self arr level
        | LIST =>
            do lines <- encode_items self level arr;
            Ok (join (chr newline)
                  (("[" ++ str_nat (List.length arr) ++ "]") :: lines))
        end
    end.
Proof. destruct arr; reflexivity. Qed.

Lemma encode_entries_ok items :
  Forall (fun kv => (encodes self) (snd kv)) items ->
  forall level, exists lines, encode_entries self level items = Ok lines.
Proof.
  induction 1 as [|[k v] l Hv _ IH]; intros level; [now exists []|].
  destruct (IH level) as [r Hr]. simpl in Hv.
  cbn [encode_entries]. fold (encode_entries self level). rewrite Hr.
  destruct v; try (destruct (Hv level) as [t ->]; eexists; reflexivity).
  destruct (Hv (level + 1)%Z) as [t ->]. eexists. reflexivity.
Qed.

Lemma encode_rest_ok items :
  Forall (fun kv => (encodes self) (snd kv)) items ->
  forall level, exists lines, encode_rest self level items = Ok lines.
Proof.
  induction 1 as [|[k v] l Hv _ IH]; intros level; [now exists []|].
  destruct (IH level) as [r Hr]. simpl in Hv.
  cbn [encode_rest]. fold (encode_rest self level). rewrite Hr.
  destruct v; try (destruct (Hv (level + 1)%Z) as [t ->]; eexists;
                   reflexivity).
  destruct (Hv (level + 2)%Z) as [t ->]. eexists. reflexivity.
Qed.

Lemma encode_items_ok elems :
  Forall (encodes_deep self) elems ->
  forallb encodable elems = true ->
  forallb (fun e => negb (is_empty_dict e)) elems = true ->
  forall level, exists lines, encode_items self level elems = Ok lines.
Proof.
  induction 1 as [|item l Hitem _ IH]; intros Henc Hne level;
    [now exists []|].
  simpl in Henc, Hne.
  apply andb_true_iff in Henc as [Hi Hl].
  apply andb_true_iff in Hne as [Hie Hle].
  destruct (IH Hl Hle level) as [r Hr].
  destruct (Hitem Hi) as [Hself Hvalues].
  cbn [encode_items]. fold (encode_items self level). rewrite Hr.
  destruct item as [| | | | | | | | | |its| |];
    try (destruct (Hself (level + 1)%Z) as [t ->]; eexists; reflexivity).
  destruct its as [|[k0 v0] others]; [discriminate|].
  inversion Hvalues as [|? ? Hv0 Hothers]; subst. simpl in Hv0.
  destruct (Hv0 (level + 1)%Z) as [t ->].
  destruct (encode_rest_ok others Hothers level) as [more ->].
  eexists. reflexivity.
Qed.

Lemma encode_scalar_ok v :
  is_primitive v = true -> exists text, encode_scalar self v = Ok text.
Proof. destruct v; simpl; try discriminate; eauto. Qed.

Lemma _encode_primitive_array_ok arr :
  forallb is_primitive arr = true ->
  exists text, _encode_primitive_array self arr = Ok text.
Proof.
  intros Hall. unfold _encode_primitive_array.
  assert (H : exists values,
             (fix each (l : list PyVal) : result (list string) :=
                match l with
                | [] => Ok []
                | item :: l' =>
                    do v <- encode_scalar self item;
                    do r <- each l'; Ok (v :: r)
                end) arr = Ok values).
  { induction arr as [|item arr IH]; [now exists []|].
    simpl in Hall. apply andb_true_iff in Hall as [Hi Hl].
    destruct (IH Hl) as [r Hr]. destruct (encode_scalar_ok item Hi) as [t Ht].
    rewrite Ht, Hr. eexists. reflexivity. }
  destruct H as [values ->]. eexists. reflexivity.
Qed.

Lemma encodes_all (v : PyVal) : (encodes_deep self) v.
Proof.
  induction v as [|b|z|f text|s|iso|f text|elems|sorted| |items IH|elems IH|]
    using PyVal_children_ind; intros Henc; try discriminate;
    try (split; [intros level; eexists; reflexivity|exact I]).
  - cbn [encodable] in Henc. rewrite forallb_forall in Henc.
    assert (Hvalues : Forall (fun kv => (encodes self) (snd kv)) items).
    { rewrite Forall_forall in *. intros kv Hin.
      now apply (IH kv Hin (Henc kv Hin)). }
    split; [|exact Hvalues]. intros level.
    destruct (encode_entries_ok items Hvalues level) as [lines Hl].
    rewrite _encode_value_dict, Hl. eexists. reflexivity.
  - split; [|exact I]. intros level. rewrite _encode_value_list.
    destruct elems as [|e elems]; [eexists; reflexivity|].
    cbn [encodable] in Henc. apply andb_true_iff in Henc as [Hall Hlist].
    destruct (_detect_array_type (e :: elems)) eqn:Hdet.
    + unfold _detect_array_type in Hdet.
      destruct (forallb is_primitive (e :: elems)) eqn:Hp.
      * now apply _encode_primitive_array_ok.
      * destruct (_ && _ && _); discriminate.
    + destruct (tabular_rows_of_detect _ Hdet) as [first [rest [Harr Hrows]]].
      destruct (table_rows_ok self first (indent_str self (level + 1))
                  _ Hrows) as [rows [Hr _]].
      unfold _encode_tabular_array.
      rewrite Harr in *. rewrite tabular_array_lines_rows, Hr.
      eexists. reflexivity.
    + destruct (encode_items_ok (e :: elems) IH Hall Hlist level)
        as [lines Hl].
      rewrite Hl. eexists. reflexivity.
Qed.

End EncoderFacts.

(** X23.  _encode_value of toon_parser-old.py returns a text, at every
    level, for None, a bool, an int, a float, a str, and every dict and
    list of such values in which no empty dict is an element of a list that
    is written item by item; on such a list, as [{}, 1], it raises
    IndexError.  encode returns a text for every such value that the
    normaliser leaves as it is. *)
Theorem old_encoder_returns (self : OldParser.ToonParser)
    (v : OldParser.PyVal) :
  encodable v = true ->
  (forall level, exists text, OldParser._encode_value self v level
                              = OldParser.Ok text)
  /\ (settled v = true ->
      exists text, OldParser.encode self v = OldParser.Ok text)
  /\ OldParser.encode self
       (OldParser.PList [OldParser.PDict []; OldParser.PInt 1])
     = OldParser.Raise OldParser.IndexError.
Proof.
  intros Henc. destruct (encodes_all self v Henc) as [Hv _].
  split; [exact Hv|]. split; [|reflexivity].
  intros Hset. unfold OldParser.encode.
  apply normalize_fixed_iff in Hset. rewrite Hset. apply Hv.
Qed.

Lemma old_encoder_returns_witness :
  exists text,
    OldParser.encode OldParser.default
      (OldParser.PDict
         [("tags", OldParser.PList [OldParser.PStr "a"; OldParser.PInt 1]);
          ("rows", OldParser.PList
                     [OldParser.PDict [("id", OldParser.PInt 1)];
                      OldParser.PInt 2])])
    = OldParser.Ok text.
Proof.
  apply (proj1 (proj2 (old_encoder_returns OldParser.default
                         (OldParser.PDict
                            [("tags", OldParser.PList
                                        [OldParser.PStr "a"; OldParser.PInt 1]);
                             ("rows", OldParser.PList
                                        [OldParser.PDict
                                           [("id", OldParser.PInt 1)];
                                         OldParser.PInt 2])])
                         eq_refl))).
  reflexivity.
Defined.

(** ** toon_parser-old.py: a flat dict, there and back *)

Section OldFlatFacts.
Import OldParser.
Variable self : ToonParser.

Lemma starts_char_contains (c : ascii) (s : string) :
  contains c s = false -> starts_char c s = false.
Proof.
  destruct s as [|d s]; [reflexivity|]. unfold starts_char. simpl.
  now intros H%orb_false_iff.
Qed.

Lemma float_ok_not_bracket (s : string) :
  starts_char "[" s = true -> float_ok s = false.
Proof.
  destruct s as [|c r]; [discriminate|]. unfold starts_char. simpl.
  intros Hc. apply Ascii.eqb_eq in Hc. subst c.
  unfold float_ok, strip_number.
  change (lstrip_by isspace_number (String "[" r)) with (String "[" r).
  destruct (rstrip_by_head isspace_number "[" r eq_refl) as [r' ->].
  destruct (underscores_ok (String "[" r')); [|reflexivity].
  change (remove_underscores (String "[" r'))
    with (String "[" (remove_underscores r')).
  reflexivity.
Qed.

Lemma _parse_value_str_int (z : Z) : _parse_value (str_int z) = VInt z.
Proof.
  pose proof (int_str_int z) as Hint.
  pose proof (strip_trimmed _ (trimmed_str_int z)) as Hstrip.
  destruct (str_int_shape z) as [ds [Hall [Hne [_ Hstr]]]].
  destruct ds as [|d ds]; [discriminate|].
  assert (Hd : isdecimal d = true)
    by (simpl in Hall; now apply andb_true_iff in Hall as [? _]).
  assert (Hdot : contains "." (String d ds) = false)
    by (now apply contains_decimal).
  unfold _parse_value. rewrite Hstrip, Hint, Hstr.
  destruct (z <? 0)%Z.
  - change (contains "." (String "-" (String d ds)))
      with (contains "." (String d ds)).
    rewrite Hdot. reflexivity.
  - rewrite Hdot. decimal_cases d Hd; reflexivity.
Qed.

Lemma starts_bracket_str_int (z : Z) : starts_char "[" (str_int z) = false.
Proof.
  destruct (str_int_shape z) as [ds [Hall [Hne [_ Hstr]]]].
  destruct ds as [|d ds]; [discriminate|]. rewrite Hstr.
  assert (Hd : isdecimal d = true)
    by (simpl in Hall; now apply andb_true_iff in Hall as [? _]).
  destruct (z <? 0)%Z; [reflexivity|].
  decimal_cases d Hd; reflexivity.
Qed.

Lemma _parse_value_float (text : string) :
  float_ok text = true -> strip text = text -> contains "." text = true ->
  _parse_value text = VFloat text.
Proof.
  intros Hf Hstrip Hdot. unfold _parse_value. rewrite Hstrip, Hf, Hdot.
  destruct (String.eqb_spec text "null") as [->|_]; [discriminate|].
  destruct (String.eqb_spec text "true") as [->|_]; [discriminate|].
  destruct (String.eqb_spec text "false") as [->|_]; [discriminate|].
  destruct (starts_char dquote text) eqn:Hq; [|reflexivity].
  apply float_ok_not_quoted in Hq. congruence.
Qed.

Lemma needs_quoting_false (s : string) :
  needs_quoting self s = false ->
  strip s = s /\ is_empty s = false /\ contains "[" s = false
  /\ no_newline s = true
  /\ mem (lower s) reserved_keywords = false.
Proof.
  unfold needs_quoting. intros Hq.
  repeat (apply orb_false_iff in Hq as [Hq ?]).
  match goal with
  | H : negb (String.eqb s (strip s)) = false |- _ =>
      apply negb_false_iff, String.eqb_eq in H; symmetry in H
  end.
  unfold no_newline. repeat split; auto. now apply negb_true_iff.
Qed.

(** A string that holds no backslash is read back as _encode_string wrote
    it, when it is quoted or is neither wrapped in quotes of its own nor
    read as a number. *)
Lemma _parse_value_encode_string (s : string) :
  contains backslash s = false ->
  needs_quoting self s
  || (negb (starts_char dquote s && ends_char dquote s)
      && negb (parses_as_number s)) = true ->
  _parse_value (_encode_string self s) = VStr s.
Proof.
  intros Hbs Hok. unfold _encode_string.
  destruct (needs_quoting self s) eqn:Hq.
  - change (String dquote (escape s ++ chr dquote)) with (quoted (escape s)).
    now rewrite _parse_value_quoted, unescape_escape.
  - simpl in Hok. apply andb_true_iff in Hok as [Hw Hn].
    apply negb_true_iff in Hw, Hn.
    destruct (needs_quoting_false s Hq) as [Hstrip [_ [_ [_ Hres]]]].
    destruct (lower_reserved s Hres) as [Hnull [Ht Hf]].
    unfold _parse_value. rewrite Hstrip, Hnull, Ht, Hf, Hw.
    unfold parses_as_number, Parser.parse_number in Hn.
    destruct (contains "." s).
    + destruct (float_ok s); [discriminate|reflexivity].
    + destruct (int s); [discriminate|reflexivity].
Qed.

(** The text of a line scalar: trimmed, on one line, not the start of an
    array, and read back as the scalar. *)
Lemma old_scalar_text (v : PyVal) :
  old_line_scalar self v = true ->
  exists text,
    encode_scalar self v = Ok text
    /\ trimmed text /\ no_newline text = true
    /\ starts_char "[" text = false
    /\ _parse_value text = to_value v
    /\ settled v = true.
Proof.
  destruct v as [|b|z|f text|s| | | | | | | |]; simpl old_line_scalar;
    try discriminate; intros H.
  - exists "null". repeat split. now exists "n"%char, "ull", "l"%char.
  - destruct b; eexists; (split; [reflexivity|]); repeat split.
    + now exists "t"%char, "rue", "e"%char.
    + now exists "f"%char, "alse", "e"%char.
  - exists (str_int z). split; [reflexivity|]. split; [apply trimmed_str_int|].
    split; [apply no_newline_str_int|].
    split; [apply starts_bracket_str_int|].
    split; [apply _parse_value_str_int|reflexivity].
  - apply andb_true_iff in H as [H Hnl].
    apply andb_true_iff in H as [H Hdot].
    apply andb_true_iff in H as [H Hstrip].
    apply andb_true_iff in H as [Hkept Hf].
    apply String.eqb_eq in Hstrip.
    exists text. split; [reflexivity|]. split.
    { destruct (strip_fixed text Hstrip) as [->|Ht];
        [discriminate|assumption]. }
    split; [assumption|]. split.
    { destruct (starts_char "[" text) eqn:Hb; [|reflexivity].
      apply float_ok_not_bracket in Hb. congruence. }
    split; [now apply _parse_value_float|exact Hkept].
  - apply andb_true_iff in H as [Hbs Hok]. apply negb_true_iff in Hbs.
    exists (_encode_string self s). split; [reflexivity|].
    split; [|split; [apply no_newline_encode_string|split]].
    + unfold _encode_string. destruct (needs_quoting self s) eqn:Hq.
      * apply (trimmed_quoted (escape s)).
      * destruct (needs_quoting_false s Hq) as [Hstrip [Hne _]].
        destruct (strip_fixed s Hstrip) as [->|Ht];
          [discriminate|assumption].
    + unfold _encode_string. destruct (needs_quoting self s) eqn:Hq;
        [reflexivity|].
      destruct (needs_quoting_false s Hq) as [_ [_ [Hbr _]]].
      now apply starts_char_contains.
    + split; [now apply _parse_value_encode_string|reflexivity].
Qed.

Lemma old_item_facts items k v :
  old_flat_entries self items = true -> In (k, v) items ->
  line_key k = true /\ old_line_scalar self v = true.
Proof.
  intros Hall Hin. unfold old_flat_entries in Hall.
  rewrite forallb_forall in Hall. specialize (Hall _ Hin).
  now apply andb_true_iff in Hall.
Qed.

(** The line of an entry, as the loop of _parse_lines sees it. *)
Lemma old_entry_line_facts k v :
  line_key k = true -> old_line_scalar self v = true ->
  let line := old_entry_line self (k, v) in
  exists text,
    encode_scalar self v = Ok text
    /\ trimmed line /\ no_newline line = true
    /\ contains ":" line = true /\ startswith "-" line = false
    /\ partition ":" line = (k, String " " text)
    /\ strip k = k
    /\ strip (String " " text) = text
    /\ is_empty text = false /\ starts_char "[" text = false
    /\ _parse_value text = to_value v.
Proof.
  intros Hk Hv. unfold line_key in Hk.
  apply andb_true_iff in Hk as [Hk Hdash].
  apply andb_true_iff in Hk as [Hk Hnl].
  apply andb_true_iff in Hk as [Hk Hbr].
  apply andb_true_iff in Hk as [Hstrip Hcolon].
  apply String.eqb_eq in Hstrip.
  apply negb_true_iff in Hdash, Hbr, Hcolon.
  destruct (old_scalar_text v Hv) as [f [Henc [Ht [Hfnl [Hfb [Hparse _]]]]]].
  exists f. unfold old_entry_line. cbn [fst snd]. rewrite Henc.
  assert (Hcolon' : trimmed ":") by (now exists ":"%char, "", ":"%char).
  split; [reflexivity|]. split.
  { destruct (strip_fixed k Hstrip) as [->|Hkt].
    - change ("" ++ ": " ++ f) with (":" ++ " " ++ f). now apply trimmed_app.
    - now apply trimmed_app. }
  split.
  { change (k ++ ": " ++ f) with (k ++ chr ":" ++ chr " " ++ f).
    now rewrite !no_newline_app, Hnl, Hfnl. }
  split; [rewrite contains_app; simpl; apply orb_true_r|].
  split.
  { destruct k as [|c0 r]; [reflexivity|].
    unfold startswith in *. cbn [String.prefix append] in *.
    destruct (ascii_dec "-" c0); [|reflexivity].
    exfalso. destruct r; discriminate. }
  split.
  { change (k ++ ": " ++ f) with (k ++ String ":" (String " " f)).
    now apply partition_app_sep. }
  split; [assumption|]. split; [now apply strip_after_colon|].
  split; [|now split].
  destruct Ht as [c0 [r [_ [-> _]]]]. reflexivity.
Qed.

(** One turn of the loop of _parse_lines at indent 0 on the line of an
    entry: the entry is stored and the loop moves to the next line. *)
Lemma parse_lines_loop_entry fuel lines idx acc k v :
  line_key k = true -> old_line_scalar self v = true ->
  nth_error lines idx = Some (old_entry_line self (k, v)) ->
  parse_lines_loop self (S fuel) lines idx 0 acc
  = parse_lines_loop self fuel lines (idx + 1) 0
      (dict_set k (to_value v) acc).
Proof.
  intros Hk Hv Hline.
  destruct (old_entry_line_facts k v Hk Hv)
    as [f [_ [Ht [_ [Hcolon [Hdash [Hpart [Hstrip [Hval [Hne [Hbr Hparse]]]]]]]]]]].
  cbn [parse_lines_loop]. rewrite Hline.
  rewrite (strip_trimmed _ Ht), (indent_of_trimmed _ Ht).
  destruct Ht as [c0 [r [cl [Hshape _]]]].
  rewrite Hshape at 1. cbn [is_empty]. clear Hshape.
  change (Z.of_nat 0 <? 0)%Z with false. change (0 <? Z.of_nat 0)%Z with false.
  rewrite !andb_false_r. cbv iota.
  rewrite Hcolon, Hdash. cbn [negb andb].
  rewrite Hpart, Hstrip, Hval, Hne, Hbr, Hparse. reflexivity.
Qed.

Lemma parse_lines_loop_entries items :
  NoDup (map fst items) -> old_flat_entries self items = true ->
  forall post pre fuel,
    items = List.app pre post ->
    List.length post < fuel ->
    parse_lines_loop self fuel (map (old_entry_line self) items)
      (List.length pre) 0 (map (fun kv => (fst kv, to_value (snd kv))) pre)
    = Some (Ok (map (fun kv => (fst kv, to_value (snd kv))) items,
                List.length items)).
Proof.
  intros Hnd Hall.
  induction post as [|[k v] post IH]; intros pre fuel Hitems Hfuel.
  - rewrite app_nil_r in Hitems. subst pre.
    destruct fuel as [|fuel]; [simpl in Hfuel; lia|].
    cbn [parse_lines_loop].
    assert (Hnone : nth_error (map (old_entry_line self) items)
                      (List.length items) = None)
      by (apply nth_error_None; rewrite length_map; lia).
    now rewrite Hnone.
  - destruct fuel as [|fuel]; [simpl in Hfuel; lia|].
    assert (Hin : In (k, v) items)
      by (rewrite Hitems; apply in_or_app; right; now left).
    destruct (old_item_facts items k v Hall Hin) as [Hk Hv].
    assert (Hline : nth_error (map (old_entry_line self) items)
                      (List.length pre)
                    = Some (old_entry_line self (k, v))).
    { rewrite Hitems, map_app, nth_error_app2; rewrite length_map; [|lia].
      now rewrite Nat.sub_diag. }
    rewrite (parse_lines_loop_entry fuel _ _ _ k v Hk Hv Hline).
    assert (Hnew : ~ In k (keys (map (fun kv => (fst kv, to_value (snd kv)))
                                   pre))).
    { unfold keys. rewrite map_map. cbn [fst].
      rewrite Hitems, map_app in Hnd. simpl in Hnd.
      apply NoDup_remove_2 in Hnd. intros Hc. apply Hnd.
      apply in_or_app. now left. }
    rewrite (dict_set_new _ _ _ Hnew).
    replace (List.length pre + 1) with (List.length (List.app pre [(k, v)]))
      by (rewrite length_app; reflexivity).
    change (List.app (map (fun kv => (fst kv, to_value (snd kv))) pre)
              [(k, to_value v)])
      with (List.app (map (fun kv => (fst kv, to_value (snd kv))) pre)
              (map (fun kv => (fst kv, to_value (snd kv))) [(k, v)])).
    rewrite <- map_app. apply IH; [now rewrite <- app_assoc|].
    simpl in Hfuel. lia.
Qed.

(** The lines _encode_object writes for a dict of line scalars at level
    0. *)
Lemma encode_entries_flat items :
  old_flat_entries self items = true ->
  encode_entries self 0 items = Ok (map (old_entry_line self) items).
Proof.
  induction items as [|[k v] items IH]; [reflexivity|]. intros Hall.
  unfold old_flat_entries in Hall. simpl in Hall.
  apply andb_true_iff in Hall as [Hkv Hrest].
  apply andb_true_iff in Hkv as [_ Hv].
  destruct (old_scalar_text v Hv) as [f [Henc _]].
  assert (Hl : old_entry_line self (k, v) = k ++ ": " ++ f)
    by (unfold old_entry_line; cbn [fst snd]; now rewrite Henc).
  cbn [encode_entries map]. fold (encode_entries self 0).
  rewrite (IH Hrest), Hl. unfold indent_str. rewrite Z.mul_0_r.
  change (spaces 0) with "".
  destruct v; try discriminate; cbn [_encode_value]; rewrite Henc;
    reflexivity.
Qed.

Lemma settled_flat items :
  old_flat_entries self items = true -> settled (PDict items) = true.
Proof.
  intros Hall. cbn [settled]. apply forallb_forall. intros [k v] Hin.
  destruct (old_item_facts items k v Hall Hin) as [_ Hv].
  now destruct (old_scalar_text v Hv) as [f [_ [_ [_ [_ [_ Hs]]]]]].
Qed.

End OldFlatFacts.

(** X24.  With toon_parser-old.py, a dict whose keys are distinct line keys
    and whose values are line scalars is encoded without an error, and the
    text is decoded as the dict it came from, in strict and in lenient
    mode, under every indent unit and delimiter. *)
Theorem old_flat_object_round_trip (self : OldParser.ToonParser) items fuel :
  NoDup (map fst items) -> old_flat_entries self items = true ->
  List.length items + 2 <= fuel ->
  exists text,
    OldParser.encode self (OldParser.PDict items) = OldParser.Ok text
    /\ OldParser.decode self fuel text
       = Some (OldParser.Ok
                 (VObj (map (fun kv => (fst kv, to_value (snd kv))) items))).
Proof.
  intros Hnd Hall Hfuel.
  exists (join (chr newline) (map (old_entry_line self) items)). split.
  - unfold OldParser.encode.
    pose proof (settled_flat self items Hall) as Hs.
    apply normalize_fixed_iff in Hs. rewrite Hs. cbn [OldParser.bind].
    now rewrite _encode_value_dict, (encode_entries_flat self items Hall).
  - unfold OldParser.decode, OldParser._parse_lines.
    destruct items as [|kv items].
    + destruct fuel as [|[|fuel]]; try (simpl in Hfuel; lia). reflexivity.
    + set (its := kv :: items) in *.
      rewrite split_join_lines; [|discriminate|].
      * pose proof (parse_lines_loop_entries self its Hnd Hall its [] fuel
                      eq_refl) as Hrun.
        cbn [List.length map] in Hrun. rewrite Hrun; [reflexivity|].
        subst its. simpl in *. lia.
      * apply forallb_forall. intros l Hl. apply in_map_iff in Hl.
        destruct Hl as [[k v] [<- Hin]].
        destruct (old_item_facts self its k v Hall Hin) as [Hk Hv].
        now destruct (old_entry_line_facts self k v Hk Hv)
          as [f [_ [_ [Hnl _]]]].
Qed.

Lemma old_flat_object_round_trip_witness :
  exists text,
    OldParser.encode OldParser.default
      (OldParser.PDict
         [("name", OldParser.PStr "Ada: Lovelace"); ("age", OldParser.PInt 36)])
    = OldParser.Ok text
    /\ OldParser.decode OldParser.default 4 text
       = Some (OldParser.Ok
                 (VObj [("name", VStr "Ada: Lovelace"); ("age", VInt 36)])).
Proof.
  apply (old_flat_object_round_trip OldParser.default
           [("name", OldParser.PStr "Ada: Lovelace");
            ("age", OldParser.PInt 36)] 4).
  - repeat constructor; simpl; intuition discriminate.
  - reflexivity.
  - simpl. lia.
Defined.

(** ** toon_validator.py on what encode_to_toon writes *)

Section ValidEntries.
Import Validator.
Variable indent : Z.
Hypothesis Hunit : indent <> 0%Z.

Lemma add_all_nil add i line r : add_all add i line [] r = r.
Proof. reflexivity. Qed.

(** A turn of the loop of validate at the level STRICT on the line of a
    valid entry adds no error. *)
Lemma validate_line_valid_entry st i k v :
  valid_entry (k, v) = true ->
  exists st',
    validate_line STRICT indent st i (entry_line (k, v)) = Some st'
    /\ errors (result st') = errors (result st).
Proof.
  unfold valid_entry. cbn [fst snd]. intros H.
  apply andb_true_iff in H as [H Heven].
  apply andb_true_iff in H as [H Hbr]. apply negb_true_iff in Hbr.
  apply andb_true_iff in H as [H Hv].
  apply andb_true_iff in H as [Hk Hvalid].
  destruct (entry_line_facts k v Hk Hv)
    as [Ht [_ [Hcolon [Hdash [Hpart [Hstrip Hkbr]]]]]].
  destruct (line_scalar_text v Hv) as [Hft _].
  set (f := Parser._format_primitive v) in *.
  set (line := entry_line (k, v)) in *.
  assert (Hline_br : contains "[" line = false).
  { unfold line, entry_line. cbn [fst snd]. fold f.
    rewrite !contains_app, Hkbr, Hbr. reflexivity. }
  assert (Hne : is_empty line = false)
    by (destruct Ht as [c0 [r [_ [-> _]]]]; reflexivity).
  assert (Hfne : is_empty f = false)
    by (destruct Hft as [c0 [r [_ [-> _]]]]; reflexivity).
  assert (Hkne : is_empty k = false)
    by (destruct k; [discriminate Hvalid|reflexivity]).
  assert (Hind : _validate_indentation STRICT indent line i 0 = Some []).
  { unfold _validate_indentation. rewrite (indent_of_trimmed _ Ht).
    cbn [is_strict]. destruct (Z.eqb_spec indent 0) as [E|_]; [contradiction|].
    change (Z.of_nat 0) with 0%Z. rewrite Z.mod_0_l by assumption.
    destruct line; reflexivity. }
  assert (Hkv : _validate_key_value STRICT line i = []).
  { unfold _validate_key_value. rewrite Hcolon, Hpart, Hstrip. cbn [negb].
    rewrite (strip_after_colon _ Hft), Hkne, Hvalid. cbn [negb].
    unfold _is_valid_value. rewrite Hfne.
    rewrite (starts_char_contains "[" f Hbr). cbn [andb].
    fold f in Heven. rewrite Heven. reflexivity. }
  unfold validate_line. rewrite (strip_trimmed _ Ht), Hne, Hind.
  cbn [is_strict]. rewrite add_all_nil, Hline_br. cbn [andb].
  rewrite Hcolon, Hdash. cbn [negb andb]. rewrite Hkv, add_all_nil.
  eexists. split; [reflexivity|]. cbn [result].
  now rewrite !errors_add_warnings.
Qed.

Lemma validate_lines_valid_entries items :
  forallb valid_entry items = true ->
  forall st i,
    exists st',
      validate_lines STRICT indent st i (map entry_line items) = Some st'
      /\ errors (result st') = errors (result st).
Proof.
  induction items as [|[k v] items IH]; intros Hall st i.
  - exists st. now split.
  - simpl in Hall. apply andb_true_iff in Hall as [Hkv Hrest].
    destruct (validate_line_valid_entry st i k v Hkv) as [st1 [H1 He1]].
    destruct (IH Hrest st1 (S i)) as [st' [Hrun He]].
    exists st'. cbn [map validate_lines]. rewrite H1. split; [assumption|].
    congruence.
Qed.

End ValidEntries.

(** X25.  What encode_to_toon writes for a dict of valid entries is valid
    for the validator at the level STRICT, under every indent unit but 0:
    validate returns a result without an error, and quick_validate
    returns True. *)
Theorem flat_object_validates options indent items :
  indent <> 0%Z -> forallb valid_entry items = true ->
  exists r,
    Validator.validate Validator.STRICT indent
      (Parser.encode_to_toon (VObj items) options) = Some r
    /\ Validator.errors r = [] /\ Validator.is_valid r = true
    /\ Validator.quick_validate Validator.STRICT indent
         (Parser.encode_to_toon (VObj items) options) = Some true.
Proof.
  intros Hunit Hall.
  assert (Hflat : flat_entries items = true).
  { unfold flat_entries. apply forallb_forall. intros kv Hin.
    rewrite forallb_forall in Hall. specialize (Hall kv Hin).
    unfold valid_entry in Hall.
    apply andb_true_iff in Hall as [H _].
    apply andb_true_iff in H as [H _].
    apply andb_true_iff in H as [H Hv].
    apply andb_true_iff in H as [Hk _]. now rewrite Hk, Hv. }
  unfold Validator.quick_validate, Validator.validate, Parser.encode_to_toon.
  rewrite (format_value_entries options items Hflat).
  assert (Hsplit : exists lines,
             split newline (join (chr newline) (map entry_line items)) = lines
             /\ exists st',
                  Validator.validate_lines Validator.STRICT indent
                    {| Validator.result := Validator.empty_result;
                       Validator.in_array := false;
                       Validator.array_info := None |} 1 lines = Some st'
                  /\ Validator.errors (Validator.result st') = []).
  { destruct items as [|kv items].
    - exists [""]. split; [reflexivity|]. eexists. split; reflexivity.
    - exists (map entry_line (kv :: items)). split.
      + apply split_join_lines; [discriminate|].
        apply forallb_forall. intros l Hl. apply in_map_iff in Hl.
        destruct Hl as [[k v] [<- Hin]].
        unfold flat_entries in Hflat. rewrite forallb_forall in Hflat.
        specialize (Hflat _ Hin). cbn [fst snd] in Hflat.
        apply andb_true_iff in Hflat as [Hk Hv].
        now destruct (entry_line_facts k v Hk Hv) as [_ [Hn _]].
      + destruct (validate_lines_valid_entries indent Hunit (kv :: items)
                    Hall
                    {| Validator.result := Validator.empty_result;
                       Validator.in_array := false;
                       Validator.array_info := None |} 1)
          as [st' [Hrun He]].
        exists st'. split; [assumption|]. now rewrite He. }
  destruct Hsplit as [lines [-> [st' [Hrun He]]]].
  rewrite Hrun. cbn [option_map].
  destruct (validate_lines_well_formed _ _ _ _ Hrun) as [Hv _].
  assert (Hvalid : Validator.is_valid (Validator.result st') = true)
    by (rewrite Hv; unfold Validator.has_errors; now rewrite He).
  exists (Validator.result st'). rewrite Hvalid. repeat split. exact He.
Qed.

Lemma flat_object_validates_witness :
  exists r,
    Validator.validate Validator.STRICT 2
      (Parser.encode_to_toon
         (VObj [("name", VStr "Ada: Lovelace"); ("age", VInt 36)])
         ToonEncodeOptions.default) = Some r
    /\ Validator.errors r = [] /\ Validator.is_valid r = true
    /\ Validator.quick_validate Validator.STRICT 2
         (Parser.encode_to_toon
            (VObj [("name", VStr "Ada: Lovelace"); ("age", VInt 36)])
            ToonEncodeOptions.default) = Some true.
Proof.
  apply flat_object_validates; [discriminate|reflexivity].
Defined.

(** ** toon_parser-old.py: dicts in dicts, there and back *)

Section DictTreeFacts.
Import OldParser.
Variable self : ToonParser.
Hypothesis Hunit : (1 <= indent self)%Z.

Lemma split_not_nil (sep : ascii) (s : string) : split sep s <> [].
Proof.
  destruct s as [|c s]; simpl; [discriminate|].
  destruct (Ascii.eqb c sep); [discriminate|].
  destruct (split sep s); discriminate.
Qed.

Lemma split_app_lines (sep : ascii) (a b : string) :
  split sep (a ++ String sep b) = List.app (split sep a) (split sep b).
Proof.
  induction a as [|c a IH]; simpl.
  - now rewrite Ascii.eqb_refl.
  - rewrite IH. destruct (Ascii.eqb c sep); [reflexivity|].
    pose proof (split_not_nil sep a) as Hne.
    destruct (split sep a) as [|h t]; [congruence|reflexivity].
Qed.

(** Splitting a join of texts at the newlines gives the lines of the
    texts, one after the other. *)
Lemma split_join_concat (ls : list string) :
  ls <> [] ->
  split newline (join (chr newline) ls) = List.concat (map (split newline) ls).
Proof.
  induction ls as [|l ls IH]; [congruence|]. intros _.
  destruct ls as [|l' ls].
  - simpl. now rewrite app_nil_r.
  - change (join (chr newline) (l :: l' :: ls))
      with (l ++ String newline (join (chr newline) (l' :: ls))).
    rewrite split_app_lines, IH by discriminate. reflexivity.
Qed.

Lemma distinct_NoDup (l : list string) : distinct l = true -> NoDup l.
Proof.
  induction l as [|k l IH]; [constructor|]. simpl. intros H.
  apply andb_true_iff in H as [Hk Hl]. apply negb_true_iff in Hk.
  constructor; [|now apply IH].
  intros Hin. apply mem_In in Hin. congruence.
Qed.

Lemma tree_lines_dict level items :
  tree_lines self level (PDict items)
  = match items with
    | [] => [""]
    | _ => flat_map (entry_lines self level) items
    end.
Proof. destruct items; reflexivity. Qed.

Lemma to_json_dict items : to_json (PDict items) = VObj (json_entries items).
Proof. reflexivity. Qed.

Lemma dict_tree_dict items :
  dict_tree self (PDict items)
  = distinct (map fst items)
    && forallb (fun kv =>
                  line_key (fst kv)
                  && (old_line_scalar self (snd kv)
                      || dict_tree self (snd kv))) items.
Proof. reflexivity. Qed.

(** A line scalar is no dict: its entry is one line, and its JSON value
    the scalar. *)
Lemma entry_lines_scalar level k v :
  old_line_scalar self v = true ->
  entry_lines self level (k, v)
  = [indent_str self level ++ old_entry_line self (k, v)]
  /\ to_json v = to_value v
  /\ dict_tree self v = false.
Proof. destruct v; try discriminate; intros _; repeat split. Qed.

Lemma entry_lines_tree level k v :
  dict_tree self v = true ->
  entry_lines self level (k, v)
  = (indent_str self level ++ k ++ ":") :: tree_lines self (level + 1) v
  /\ exists sub, v = PDict sub.
Proof.
  destruct v; try discriminate; intros _. split; [reflexivity|].
  eexists; reflexivity.
Qed.

(** The texts that the loop of _encode_object gives for the entries of a
    dict tree hold the lines of the entries. *)
Lemma encode_tree_entries level items :
  Forall (fun kv =>
            dict_tree self (snd kv) = true ->
            forall level, exists text,
              _encode_value self (snd kv) level = Ok text
              /\ split newline text = tree_lines self level (snd kv)) items ->
  forallb (fun kv =>
             line_key (fst kv)
             && (old_line_scalar self (snd kv) || dict_tree self (snd kv)))
    items = true ->
  exists els,
    encode_entries self level items = Ok els
    /\ List.concat (map (split newline) els)
       = flat_map (entry_lines self level) items
    /\ (items <> [] -> els <> []).
Proof.
  induction items as [|[k v] items IH]; intros HP Hall.
  - exists []. repeat split. congruence.
  - inversion HP as [|? ? Hv HP']; subst. simpl in Hall, Hv.
    apply andb_true_iff in Hall as [Hkv Hrest].
    apply andb_true_iff in Hkv as [Hk Hsv].
    destruct (IH HP' Hrest) as [els [Hels [Hcat _]]].
    assert (Hknl : no_newline k = true).
    { unfold line_key in Hk. apply andb_true_iff in Hk as [Hk _].
      now apply andb_true_iff in Hk as [_ Hk]. }
    cbn [encode_entries]. fold (encode_entries self level). rewrite Hels.
    destruct (old_line_scalar self v) eqn:Hs.
    + destruct (old_scalar_text self v Hs) as [f [Henc [_ [Hnl _]]]].
      destruct (entry_lines_scalar level k v Hs) as [Hl _].
      exists ((indent_str self level ++ k ++ ": " ++ f) :: els).
      split.
      { destruct v; try discriminate; cbn [_encode_value]; rewrite Henc;
          reflexivity. }
      split; [|discriminate].
      cbn [map List.concat flat_map]. rewrite Hcat, Hl.
      unfold old_entry_line. cbn [fst snd]. rewrite Henc.
      rewrite split_without_sep; [reflexivity|].
      apply negb_true_iff.
      fold (no_newline (indent_str self level ++ k ++ ": " ++ f)).
      change (k ++ ": " ++ f) with (k ++ chr ":" ++ chr " " ++ f).
      unfold indent_str.
      now rewrite !no_newline_app, no_newline_spaces, Hknl, Hnl.
    + simpl in Hsv.
      destruct (entry_lines_tree level k v Hsv) as [Hl [sub ->]].
      destruct (Hv Hsv (level + 1)%Z) as [text [Htext Hsplit]].
      rewrite Htext.
      exists ((indent_str self level ++ k ++ ":") :: text :: els).
      split; [reflexivity|]. split; [|discriminate].
      cbn [map List.concat flat_map]. rewrite Hcat, Hl, Hsplit.
      rewrite split_without_sep; [reflexivity|].
      apply negb_true_iff.
      fold (no_newline (indent_str self level ++ k ++ ":")).
      unfold indent_str.
      now rewrite !no_newline_app, no_newline_spaces, Hknl.
Qed.

(** _encode_value gives, for a dict tree, the text of its lines. *)
Lemma encode_tree (v : PyVal) :
  dict_tree self v = true ->
  forall level, exists text,
    _encode_value self v level = Ok text
    /\ split newline text = tree_lines self level v.
Proof.
  induction v as [| | | | | | | | | |items IH| |] using PyVal_children_ind;
    try discriminate.
  intros Ht level. rewrite dict_tree_dict in Ht.
  apply andb_true_iff in Ht as [_ Hall].
  destruct (encode_tree_entries level items IH Hall) as [els [Hels [Hcat Hne]]].
  exists (join (chr newline) els). rewrite _encode_value_dict, Hels.
  split; [reflexivity|]. rewrite tree_lines_dict.
  destruct items as [|kv items].
  - simpl in Hels. injection Hels as <-. reflexivity.
  - rewrite split_join_concat by (apply Hne; discriminate). exact Hcat.
Qed.

Lemma settled_tree (v : PyVal) : dict_tree self v = true -> settled v = true.
Proof.
  induction v as [| | | | | | | | | |items IH| |] using PyVal_children_ind;
    try discriminate.
  intros Ht. rewrite dict_tree_dict in Ht.
  apply andb_true_iff in Ht as [_ Hall]. cbn [settled].
  apply forallb_forall. intros [k w] Hin.
  rewrite Forall_forall in IH. specialize (IH _ Hin).
  rewrite forallb_forall in Hall. specialize (Hall _ Hin). cbn [fst snd] in *.
  apply andb_true_iff in Hall as [_ Hw].
  destruct (old_line_scalar self w) eqn:Hs.
  - now destruct (old_scalar_text self w Hs) as [f [_ [_ [_ [_ [_ Hset]]]]]].
  - now apply IH.
Qed.

Lemma unit_level level : (0 <= level)%Z -> (0 <= indent self * level)%Z.
Proof. nia. Qed.

Lemma unit_level_lt level :
  (0 <= level)%Z -> (indent self * level < indent self * (level + 1))%Z.
Proof. nia. Qed.

(** An indented line: what the loop of _parse_lines measures. *)
Lemma pad_line_facts level t :
  (0 <= level)%Z -> trimmed t ->
  strip (indent_str self level ++ t) = t
  /\ is_empty t = false
  /\ Z.of_nat (indent_of (indent_str self level ++ t))
     = (indent self * level)%Z.
Proof.
  intros Hl Ht. unfold indent_str.
  rewrite (strip_spaces _ t Ht), (indent_of_spaces _ t Ht).
  rewrite Z2Nat.id by now apply unit_level.
  repeat split. now destruct Ht as [c0 [r [cl [-> _]]]].
Qed.

Lemma key_line_facts k :
  line_key k = true ->
  trimmed (k ++ ":")
  /\ contains ":" (k ++ ":") = true
  /\ startswith "-" (k ++ ":") = false
  /\ partition ":" (k ++ ":") = (k, "")
  /\ strip k = k.
Proof.
  intros Hk. unfold line_key in Hk.
  apply andb_true_iff in Hk as [Hk Hdash].
  apply andb_true_iff in Hk as [Hk Hnl].
  apply andb_true_iff in Hk as [Hk Hbr].
  apply andb_true_iff in Hk as [Hstrip Hcolon].
  apply String.eqb_eq in Hstrip.
  apply negb_true_iff in Hdash, Hbr, Hcolon.
  assert (Hcolon' : trimmed ":") by (now exists ":"%char, "", ":"%char).
  split.
  { destruct (strip_fixed k Hstrip) as [->|Hkt]; [exact Hcolon'|].
    change (k ++ ":") with (k ++ "" ++ ":"). now apply trimmed_app. }
  split; [rewrite contains_app; simpl; apply orb_true_r|].
  split.
  { destruct k as [|c0 r]; [reflexivity|].
    unfold startswith in *. cbn [String.prefix append] in *.
    destruct (ascii_dec "-" c0); [|reflexivity].
    exfalso. destruct r; discriminate. }
  split; [now apply partition_app_sep|assumption].
Qed.

(** One turn of the loop of _parse_lines on the line of a scalar entry at
    its level: the entry is stored and the loop moves to the next line. *)
Lemma parse_lines_loop_scalar fuel lines idx level acc k v :
  (0 <= level)%Z -> line_key k = true -> old_line_scalar self v = true ->
  nth_error lines idx
  = Some (indent_str self level ++ old_entry_line self (k, v)) ->
  parse_lines_loop self (S fuel) lines idx (indent self * level) acc
  = parse_lines_loop self fuel lines (idx + 1) (indent self * level)
      (dict_set k (to_value v) acc).
Proof.
  intros Hl Hk Hv Hline.
  destruct (old_entry_line_facts self k v Hk Hv)
    as [f [_ [Ht [_ [Hcolon [Hdash [Hpart [Hstrip [Hval [Hne [Hbr Hparse]]]]]]]]]]].
  destruct (pad_line_facts level _ Hl Ht) as [Hs [He Hind]].
  cbn [parse_lines_loop]. rewrite Hline. cbv zeta.
  rewrite Hs, He, Hind, Z.ltb_irrefl, !andb_false_r.
  rewrite Hcolon, Hdash. cbn [negb andb].
  rewrite Hpart, Hstrip, Hval, Hne, Hbr, Hparse. reflexivity.
Qed.

(** One turn of the loop on the line of a key that opens a dict: the lines
    that follow are read one level deeper, the dict is stored under the
    key, and the loop goes on after them. *)
Lemma parse_lines_loop_key fuel lines idx level acc k :
  (0 <= level)%Z -> line_key k = true ->
  nth_error lines idx = Some (indent_str self level ++ k ++ ":") ->
  parse_lines_loop self (S fuel) lines idx (indent self * level) acc
  = match parse_lines_loop self fuel lines (idx + 1)
            (indent self * (level + 1)) [] with
    | Some (Ok (nested_result, idx')) =>
        parse_lines_loop self fuel lines idx' (indent self * level)
          (dict_set k (VObj nested_result) acc)
    | other => other
    end.
Proof.
  intros Hl Hk Hline.
  destruct (key_line_facts k Hk) as [Ht [Hcolon [Hdash [Hpart Hstrip]]]].
  destruct (pad_line_facts level _ Hl Ht) as [Hs [He Hind]].
  cbn [parse_lines_loop]. rewrite Hline. cbv zeta.
  rewrite Hs, He, Hind, Z.ltb_irrefl, !andb_false_r.
  rewrite Hcolon, Hdash. cbn [negb andb].
  rewrite Hpart, Hstrip.
  replace (indent self * level + indent self)%Z
    with (indent self * (level + 1))%Z by lia.
  reflexivity.
Qed.

(** The loop ends where the lines after it stop it. *)
Lemma parse_lines_loop_exit fuel pre post bound acc :
  stops bound post ->
  parse_lines_loop self (S fuel) (List.app pre post) (List.length pre) bound
    acc
  = Some (Ok (acc, List.length pre)).
Proof.
  intros Hstop. cbn [parse_lines_loop].
  rewrite nth_error_app2 by lia. rewrite Nat.sub_diag.
  destruct post as [|l post]; [reflexivity|]. cbn [nth_error].
  destruct Hstop as [Hne Hlt]. apply Z.ltb_lt in Hlt. cbv zeta.
  now rewrite Hne, Hlt.
Qed.

(** The first line of an entry is not blank and is indented as its
    level. *)
Lemma entry_lines_head level k v :
  (0 <= level)%Z -> line_key k = true ->
  old_line_scalar self v || dict_tree self v = true ->
  exists l rest,
    entry_lines self level (k, v) = l :: rest
    /\ is_empty (strip l) = false
    /\ Z.of_nat (indent_of l) = (indent self * level)%Z.
Proof.
  intros Hl Hk Hv. destruct (old_line_scalar self v) eqn:Hs.
  - destruct (entry_lines_scalar level k v Hs) as [-> _].
    destruct (old_entry_line_facts self k v Hk Hs) as [f [_ [Ht _]]].
    destruct (pad_line_facts level _ Hl Ht) as [Hstrip [He Hind]].
    eexists _, _. split; [reflexivity|]. now rewrite Hstrip.
  - simpl in Hv. destruct (entry_lines_tree level k v Hv) as [-> _].
    destruct (key_line_facts k Hk) as [Ht _].
    destruct (pad_line_facts level _ Hl Ht) as [Hstrip [He Hind]].
    eexists _, _. split; [reflexivity|]. now rewrite Hstrip.
Qed.

(** The entries that follow a dict, and the lines after them, stop the
    loop that reads the dict. *)
Lemma stops_entries level todo post :
  (0 <= level)%Z ->
  forallb (fun kv =>
             line_key (fst kv)
             && (old_line_scalar self (snd kv) || dict_tree self (snd kv)))
    todo = true ->
  stops (indent self * level) post ->
  stops (indent self * (level + 1))
    (List.app (flat_map (entry_lines self level) todo) post).
Proof.
  intros Hl Hall Hstop. pose proof (unit_level_lt level Hl) as Hlt.
  destruct todo as [|[k v] todo].
  - destruct post as [|l post]; [exact I|]. destruct Hstop as [Hne Hind].
    split; [assumption|]. simpl. lia.
  - simpl in Hall. apply andb_true_iff in Hall as [Hkv _].
    apply andb_true_iff in Hkv as [Hk Hv].
    destruct (entry_lines_head level k v Hl Hk Hv) as [l [rest [Heq [Hne Hind]]]].
    cbn [flat_map]. rewrite Heq. simpl. split; [assumption|]. lia.
Qed.

(** The loop of _parse_lines reads the lines of the entries of a dict
    tree, after the entries it has stored, as the rest of the dict. *)
Lemma decode_tree_entries level todo :
  (0 <= level)%Z ->
  Forall (fun kv => decodes self (snd kv)) todo ->
  forallb (fun kv =>
             line_key (fst kv)
             && (old_line_scalar self (snd kv) || dict_tree self (snd kv)))
    todo = true ->
  forall done pre post fuel,
    NoDup (map fst (List.app done todo)) ->
    stops (indent self * level) post ->
    List.length (flat_map (entry_lines self level) todo) < fuel ->
    parse_lines_loop self fuel
      (List.app pre (List.app (flat_map (entry_lines self level) todo) post))
      (List.length pre) (indent self * level) (json_entries done)
    = Some (Ok (json_entries (List.app done todo),
                List.length pre
                + List.length (flat_map (entry_lines self level) todo))).
Proof.
  intros Hl. induction todo as [|[k v] todo IH];
    intros HP Hall done pre post fuel Hnd Hstop Hfuel.
  - destruct fuel as [|fuel]; [simpl in Hfuel; lia|].
    cbn [flat_map List.app List.length].
    rewrite parse_lines_loop_exit by assumption.
    now rewrite app_nil_r, Nat.add_0_r.
  - inversion HP as [|? ? Hv HP']; subst. simpl in Hall, Hv.
    apply andb_true_iff in Hall as [Hkv Hrest].
    apply andb_true_iff in Hkv as [Hk Hsv].
    destruct fuel as [|fuel]; [lia|].
    assert (Hnew : ~ In k (keys (json_entries done))).
    { unfold keys, json_entries. rewrite map_map. cbn [fst].
      rewrite map_app in Hnd. simpl in Hnd.
      apply NoDup_remove_2 in Hnd. intros Hc. apply Hnd.
      apply in_or_app. now left. }
    assert (Hnd' : NoDup (map fst (List.app (List.app done [(k, v)]) todo)))
      by now rewrite <- app_assoc.
    cbn [flat_map] in *. rewrite length_app in Hfuel.
    set (rest := flat_map (entry_lines self level) todo) in *.
    destruct (old_line_scalar self v) eqn:Hs.
    + destruct (entry_lines_scalar level k v Hs) as [Hlines [Hjson _]].
      rewrite Hlines in *. cbn [List.length] in Hfuel.
      set (line := indent_str self level ++ old_entry_line self (k, v)) in *.
      rewrite (parse_lines_loop_scalar fuel _ _ level _ k v Hl Hk Hs).
      2:{ rewrite nth_error_app2 by lia. now rewrite Nat.sub_diag. }
      rewrite (dict_set_new _ _ _ Hnew).
      replace (List.app (json_entries done) [(k, to_value v)])
        with (json_entries (List.app done [(k, v)])).
      2:{ unfold json_entries. rewrite map_app. cbn [map fst snd].
          now rewrite Hjson. }
      replace (List.app pre (List.app (List.app [line] rest) post))
        with (List.app (List.app pre [line]) (List.app rest post))
        by (now rewrite <- !app_assoc).
      replace (List.length pre + 1) with (List.length (List.app pre [line]))
        by (now rewrite length_app).
      rewrite (IH HP' Hrest (List.app done [(k, v)]) (List.app pre [line])
                 post fuel Hnd' Hstop); [|lia].
      rewrite <- app_assoc, !length_app. cbn [List.app List.length].
      do 3 f_equal. lia.
    + simpl in Hsv.
      destruct (entry_lines_tree level k v Hsv) as [Hlines [sub Hsub]].
      rewrite Hlines in *. cbn [List.length] in Hfuel.
      set (head := indent_str self level ++ k ++ ":") in *.
      set (below := tree_lines self (level + 1) v) in *.
      rewrite (parse_lines_loop_key fuel _ _ level _ k Hl Hk).
      2:{ rewrite nth_error_app2 by lia. now rewrite Nat.sub_diag. }
      assert (Hnested :
                parse_lines_loop self fuel
                  (List.app (List.app pre [head])
                     (List.app below (List.app rest post)))
                  (List.length (List.app pre [head]))
                  (indent self * (level + 1)) []
                = Some (Ok (json_entries sub,
                            List.length (List.app pre [head])
                            + List.length below))).
      { apply (Hv sub Hsub Hsv (level + 1)%Z); [lia| |fold below; lia].
        now apply stops_entries. }
      replace (List.app pre (List.app (List.app (head :: below) rest) post))
        with (List.app (List.app pre [head])
                (List.app below (List.app rest post)))
        by (rewrite <- !app_assoc; reflexivity).
      replace (List.length pre + 1) with (List.length (List.app pre [head]))
        by (now rewrite length_app).
      rewrite Hnested.
      rewrite (dict_set_new _ _ _ Hnew).
      replace (List.app (json_entries done) [(k, VObj (json_entries sub))])
        with (json_entries (List.app done [(k, v)])).
      2:{ unfold json_entries at 1. rewrite map_app. cbn [map fst snd].
          now rewrite Hsub, to_json_dict. }
      replace (List.app (List.app pre [head])
                 (List.app below (List.app rest post)))
        with (List.app (List.app pre (head :: below)) (List.app rest post))
        by (rewrite <- !app_assoc; reflexivity).
      replace (List.length (List.app pre [head]) + List.length below)
        with (List.length (List.app pre (head :: below)))
        by (rewrite !length_app; simpl; lia).
      rewrite (IH HP' Hrest (List.app done [(k, v)])
                 (List.app pre (head :: below)) post fuel Hnd' Hstop); [|lia].
      rewrite <- app_assoc, !length_app. cbn [List.app List.length].
      do 3 f_equal. lia.
Qed.

(** _parse_lines reads the lines of every dict tree as the dict. *)
Lemma decode_tree (v : PyVal) : decodes self v.
Proof.
  induction v as [| | | | | | | | | |items IH| |] using PyVal_children_ind;
    intros items0 Heq; try discriminate.
  injection Heq as <-. intros Ht level pre post fuel Hl Hstop Hfuel.
  rewrite dict_tree_dict in Ht. apply andb_true_iff in Ht as [Hd Hall].
  rewrite tree_lines_dict in *. destruct items as [|kv items].
  - destruct fuel as [|fuel]; [simpl in Hfuel; lia|].
    cbn [parse_lines_loop]. rewrite nth_error_app2 by lia.
    rewrite Nat.sub_diag. cbn [List.app nth_error].
    change (is_empty (strip "")) with true. cbv iota.
    destruct fuel as [|fuel]; [simpl in Hfuel; lia|].
    replace (List.app pre ("" :: post)) with (List.app (List.app pre [""]) post)
      by (now rewrite <- app_assoc).
    replace (List.length pre + 1) with (List.length (List.app pre [""]))
      by (now rewrite length_app).
    rewrite parse_lines_loop_exit by assumption.
    now rewrite length_app.
  - apply (decode_tree_entries level (kv :: items) Hl IH Hall [] pre post fuel);
      [|assumption|assumption].
    now apply distinct_NoDup.
Qed.

End DictTreeFacts.

(** X26.  With toon_parser-old.py and an indent unit of at least one, a
    dict whose keys are distinct line keys and whose values are line
    scalars or such dicts, to any depth, is encoded without an error, and
    the text is decoded as the dict it came from once the fuel is above the
    number of its lines, in strict and in lenient mode: each dict is
    written one level deeper than its key, an empty dict as an empty
    line.  The recursion limit of the interpreter is not modelled. *)
Theorem old_dict_tree_round_trip (self : OldParser.ToonParser)
    (v : OldParser.PyVal) :
  (1 <= OldParser.indent self)%Z ->
  dict_tree self v = true ->
  exists text,
    OldParser.encode self v = OldParser.Ok text
    /\ split newline text = tree_lines self 0 v
    /\ forall fuel,
         List.length (split newline text) < fuel ->
         OldParser.decode self fuel text = Some (OldParser.Ok (to_json v)).
Proof.
  intros Hunit Ht.
  destruct (encode_tree self v Ht 0%Z) as [text [Henc Hsplit]].
  exists text. split; [|split; [exact Hsplit|]].
  - unfold OldParser.encode.
    pose proof (settled_tree self v Ht) as Hs.
    apply normalize_fixed_iff in Hs. rewrite Hs. exact Henc.
  - intros fuel Hfuel. unfold OldParser.decode, OldParser._parse_lines.
    rewrite Hsplit in *.
    destruct v as [| | | | | | | | | |items| |]; try discriminate.
    pose proof (decode_tree self Hunit (OldParser.PDict items) items eq_refl Ht
                  0%Z [] [] fuel (Z.le_refl 0) I Hfuel) as Hrun.
    rewrite Z.mul_0_r, app_nil_r in Hrun. cbn [List.app List.length] in Hrun.
    rewrite Hrun. reflexivity.
Qed.

Lemma old_dict_tree_round_trip_witness :
  exists text,
    OldParser.encode OldParser.default
      (OldParser.PDict
         [("user", OldParser.PDict
                     [("name", OldParser.PStr "Ada");
                      ("tags", OldParser.PDict []);
                      ("home", OldParser.PDict [("zip", OldParser.PStr "02134")])]);
          ("active", OldParser.PBool true)])
    = OldParser.Ok text
    /\ split newline text
       = ["user:"; "  name: Ada"; "  tags:"; ""; "  home:";
          "    zip: " ++ String dquote ("02134" ++ chr dquote);
          "active: true"]
    /\ forall fuel,
         List.length (split newline text) < fuel ->
         OldParser.decode OldParser.default fuel text
         = Some (OldParser.Ok
                   (VObj [("user", VObj [("name", VStr "Ada");
                                         ("tags", VObj []);
                                         ("home", VObj [("zip", VStr "02134")])]);
                          ("active", VBool true)])).
Proof.
  apply (old_dict_tree_round_trip OldParser.default
           (OldParser.PDict
              [("user", OldParser.PDict
                          [("name", OldParser.PStr "Ada");
                           ("tags", OldParser.PDict []);
                           ("home", OldParser.PDict
                                      [("zip", OldParser.PStr "02134")])]);
               ("active", OldParser.PBool true)])).
  - simpl. lia.
  - reflexivity.
Defined.
